(** * terminal_utils: a shallow embedding of the rendering core

    The development follows the headers of the library one module per file:
    [ConsoleCMD] (escape sequences, key codes, character classes), [Colors]
    (rgb, color), [Coord] (coord, coord_box), [Cursor] (cursor_data, cursor),
    [WindowBox] (the two scroll bars), [InputControl] and
    [DirectoryDisplayBox].

    Conventions of the embedding.
    - A [wchar_t] is a [Z]; a [std::wstring] is a [list Z].  Appending to a
      buffer passed by reference becomes a function from the old buffer to
      the new one.
    - Narrowing conversions that the source writes ([static_cast<short>],
      [static_cast<uint8_t>], [static_cast<int>] of a size, initialising a
      [short] from an [int] expression, passing an [int] for an [unsigned])
      are written out with the wrap-around functions of [Machine].
    - Arithmetic on [int] is arithmetic on [Z] and [/] is [Z.quot]: signed
      overflow has no defined behaviour in C++, and the indices the theorems
      speak about are bounded by the sizes of the buffers they index.
    - Code that can throw returns [option] (or [result] where the kind of
      failure matters); the terminal is the field [stdout] of the widget
      records, holding everything [mz::Write] has emitted so far. *)

From Stdlib Require Import ZArith List Lia Bool String Ascii DecimalString.
Import ListNotations.
Open Scope Z_scope.

(* ------------------------------------------------------------------ *)
(** ** Machine integers and wide strings *)

Module Machine.

Definition to_uint8 (z : Z) : Z := z mod 256.
Definition to_unsigned (z : Z) : Z := z mod 4294967296.
Definition to_short (z : Z) : Z := (z + 32768) mod 65536 - 32768.
Definition to_int (z : Z) : Z := (z + 2147483648) mod 4294967296 - 2147483648.
(** [wchar_t] is written to the terminal as two bytes. *)
Definition to_wchar (z : Z) : Z := z mod 65536.

Definition uint8_range (z : Z) : Prop := 0 <= z < 256.
Definition short_range (z : Z) : Prop := -32768 <= z < 32768.
Definition int_range (z : Z) : Prop := -2147483648 <= z < 2147483648.

End Machine.
Import Machine.

Definition wchar := Z.
Definition wstring := list wchar.

(** A narrow literal read as a wide string. *)
Definition wlit (s : string) : wstring :=
  map (fun c => Z.of_N (N_of_ascii c)) (list_ascii_of_string s).

Definition wlen (s : wstring) : Z := Z.of_nat (List.length s).

(** [count] copies of [c], for a [count] that is not negative. *)
Definition fill (count : Z) (c : wchar) : wstring := repeat c (Z.to_nat count).

(** The body of a counted [for] loop run [n] times on a state. *)
Definition times {S : Type} (n : Z) (body : S -> S) (s : S) : S :=
  Nat.iter (Z.to_nat n) body s.

(** [P] holds of the [n] numbers from [k] on. *)
Fixpoint all_below (n : nat) (k : Z) (P : Z -> bool) : bool :=
  match n with
  | O => true
  | Datatypes.S m => P k && all_below m (k + 1) P
  end.

(** [for (i = lo; i < hi; i++) body(i)] on a state. *)
Fixpoint for_up {S : Type} (n : nat) (i : Z) (body : Z -> S -> S) (s : S) : S :=
  match n with
  | O => s
  | Datatypes.S k => for_up k (i + 1) body (body i s)
  end.

(** [for (i = hi; i > lo; i--) body(i)] on a state. *)
Fixpoint for_down {S : Type} (n : nat) (i : Z) (body : Z -> S -> S) (s : S) : S :=
  match n with
  | O => s
  | Datatypes.S k => for_down k (i - 1) body (body i s)
  end.

(** [s[i]] and [s[i] = v]; an index outside the string reads 0 and writes
  nothing (the source never indexes outside, see the invariants below). *)
Definition wget (s : wstring) (i : Z) : wchar := nth (Z.to_nat i) s 0.

Fixpoint wset_nat (s : wstring) (i : nat) (v : wchar) : wstring :=
  match s, i with
  | [], _ => []
  | _ :: t, O => v :: t
  | h :: t, Datatypes.S k => h :: wset_nat t k v
  end.

Definition wset (s : wstring) (i : Z) (v : wchar) : wstring :=
  if i <? 0 then s else wset_nat s (Z.to_nat i) v.

(** [sv.substr(pos, n)]: throws [std::out_of_range] when [pos > size()],
  otherwise clips [n] to what is left.  Both arguments are [size_t]: a
  negative [int] passed for one converts to a huge value. *)
Definition substr (s : wstring) (pos n : Z) : option wstring :=
  if (pos <? 0) || (wlen s <? pos) then None
  else Some (firstn (Z.to_nat (if n <? 0 then wlen s else n)) (skipn (Z.to_nat pos) s)).

(** [s.replace(pos, n, t)]: throws [std::out_of_range] when [pos > size()],
  otherwise the (clipped) span of [n] characters at [pos] becomes [t]. *)
Definition wreplace (s : wstring) (pos n : Z) (t : wstring) : option wstring :=
  if (pos <? 0) || (wlen s <? pos) then None
  else Some (firstn (Z.to_nat pos) s ++ t
             ++ skipn (Z.to_nat (if n <? 0 then wlen s else pos + n)) s).

(** [s.append(count, c)] with [count] an [int]: a negative count converts to
  a size no string can have, and [append] throws [std::length_error]. *)
Definition append_n (s : wstring) (count : Z) (c : wchar) : option wstring :=
  if count <? 0 then None else Some (s ++ fill count c).

Definition bind {A B : Type} (m : option A) (k : A -> option B) : option B :=
  match m with
  | Some a => k a
  | None => None
  end.

Notation "x <- m ;; k" := (bind m (fun x => k))
  (at level 61, m at next level, right associativity).
Notation "' pat <- m ;; k" := (bind m (fun x => let 'pat := x in k))
  (at level 61, pat pattern, m at next level, right associativity).

(** A [long long] converted to [size_t]. *)
Definition to_size_t (z : Z) : Z := z mod 18446744073709551616.

(* ------------------------------------------------------------------ *)
(** ** ConsoleCMD.h / ConsoleCMD.cpp *)

Module ConsoleCMD.

Definition ESC : wchar := 27.

(** Key codes. *)
Definition RETURNKEY : Z := 13.
Definition ESCAPEKEY : Z := 27.
Definition SPACEKEY : Z := 32.
Definition BACKSPACEKEY : Z := 8.
Definition UPKEY : Z := Z.lor (Z.shiftl 72 16) 224.
Definition DOWNKEY : Z := Z.lor (Z.shiftl 80 16) 224.
Definition HOMEKEY : Z := Z.lor (Z.shiftl 71 16) 224.
Definition ENDKEY : Z := Z.lor (Z.shiftl 79 16) 224.
Definition LEFTKEY : Z := Z.lor (Z.shiftl 75 16) 224.
Definition RIGHTKEY : Z := Z.lor (Z.shiftl 77 16) 224.
Definition INSERTKEY : Z := Z.lor (Z.shiftl 82 16) 224.
Definition DELETEKEY : Z := Z.lor (Z.shiftl 83 16) 224.
Definition PAGEUPKEY : Z := Z.lor (Z.shiftl 73 16) 224.
Definition PAGEDOWNKEY : Z := Z.lor (Z.shiftl 81 16) 224.

(** Symbols: [LHEAD] and [RHEAD] are single characters, the others are
    arrays whose every element is appended. *)
Definition LHEAD : wchar := 0x82cb.
Definition RHEAD : wchar := 0x83cb.
Definition LLQUOTE : wstring := [0xABC2].
Definition RRQUOTE : wstring := [0xBBC2].
Definition FSQUARE : wstring := [0x96E2; 0xA0].
Definition TRIUP : wstring := [0x96E2; 0xb2].
Definition TRIDOWN : wstring := [0x96E2; 0xbc].

(** Character classes. *)
Definition IsDigitCharacter (c : Z) : bool := (48 <=? c) && (c <=? 57).
Definition IsLowerCase (c : Z) : bool := (97 <=? c) && (c <=? 122).
Definition IsUpperCase (c : Z) : bool := (65 <=? c) && (c <=? 90).
Definition IsAlphaNumeric (c : Z) : bool :=
  IsLowerCase c || IsUpperCase c || IsDigitCharacter c.

Definition one_of (c : Z) (s : string) : bool :=
  existsb (Z.eqb c) (wlit s).

Definition IsFilenameCharacter (c : Z) : bool :=
  if IsAlphaNumeric c then true
  else one_of c "~`!@#$%^&()-+_=;',. ".

Definition IsDisplayCharacter (c : Z) : bool :=
  if IsFilenameCharacter c then true
  else one_of c "\/:*?<>|" || (c =? 34).

(** [std::format] of an integer: [{}] and [{:0>wd}]. *)
Definition fmt_d (n : Z) : wstring :=
  wlit (NilZero.string_of_int (Z.to_int n)).

Definition fmt_pad0 (w : nat) (n : Z) : wstring :=
  let s := fmt_d n in repeat 48 (w - List.length s) ++ s.

(** Cursor control, appended to a buffer. *)
Definition SetShow (Buff : wstring) : wstring := Buff ++ ESC :: wlit "[?25h".
Definition SetHide (Buff : wstring) : wstring := Buff ++ ESC :: wlit "[?25l".
Definition SetBlink (Buff : wstring) : wstring := Buff ++ ESC :: wlit "[?12h".
Definition ClrBlink (Buff : wstring) : wstring := Buff ++ ESC :: wlit "[?12l".
Definition ResetShape (Buff : wstring) : wstring := Buff ++ ESC :: wlit "[0 q".
Definition SetShape (Buff : wstring) (Shape : Z) : wstring :=
  Buff ++ ESC :: wlit "[" ++ fmt_d Shape ++ wlit " q".

(** Text attributes, appended to a buffer (the "set" forms push a
    terminating zero after the sequence). *)
Definition SetBackColor (Buf : wstring) (R G B : Z) : wstring :=
  Buf ++ ESC :: wlit "[48;2;" ++ fmt_pad0 3 R ++ wlit ";" ++ fmt_pad0 3 G
      ++ wlit ";" ++ fmt_pad0 3 B ++ wlit "m".
Definition SetFrontColor (Buf : wstring) (R G B : Z) : wstring :=
  Buf ++ ESC :: wlit "[38;2;" ++ fmt_pad0 3 R ++ wlit ";" ++ fmt_pad0 3 G
      ++ wlit ";" ++ fmt_pad0 3 B ++ wlit "m".
Definition SetBold (Buff : wstring) : wstring := (Buff ++ ESC :: wlit "[1m") ++ [0].
Definition ClrBold (Buff : wstring) : wstring := Buff ++ ESC :: wlit "[22m".
Definition SetUnderline (Buff : wstring) : wstring := (Buff ++ ESC :: wlit "[4m") ++ [0].
Definition ClrUnderline (Buff : wstring) : wstring := Buff ++ ESC :: wlit "[24m".
Definition SetNegative (Buff : wstring) : wstring := (Buff ++ ESC :: wlit "[7m") ++ [0].
Definition ClrNegative (Buff : wstring) : wstring := Buff ++ ESC :: wlit "[27m".

(** Relative movement, appended to a buffer. *)
Definition MoveUp (Buff : wstring) : wstring := Buff ++ ESC :: wlit "[A".
Definition MoveDown (Buff : wstring) : wstring := Buff ++ ESC :: wlit "[B".
Definition MoveLeft (Buff : wstring) : wstring := Buff ++ ESC :: wlit "[D".
Definition MoveRight (Buff : wstring) : wstring := Buff ++ ESC :: wlit "[C".
Definition MoveLeftN (Buff : wstring) (Count : Z) : wstring :=
  Buff ++ ESC :: wlit "[" ++ fmt_pad0 4 Count ++ wlit "D".
Definition MoveDownN (Buff : wstring) (Count : Z) : wstring :=
  Buff ++ ESC :: wlit "[" ++ fmt_pad0 4 Count ++ wlit "B".

(** The unbuffered forms, as the text they write. *)
Definition MoveLeftN_direct (Count : Z) : wstring :=
  ESC :: wlit "[" ++ fmt_d Count ++ wlit "D".
Definition MoveRightN_direct (Count : Z) : wstring :=
  ESC :: wlit "[" ++ fmt_d Count ++ wlit "C".

(** [SetPos(Buff, unsigned Row, unsigned Col)]: the callers pass [int]
    expressions, which convert to [unsigned]. *)
Definition SetPos (Buff : wstring) (Row Col : Z) : wstring :=
  Buff ++ ESC :: wlit "[" ++ fmt_pad0 4 (to_unsigned Row) ++ wlit ";"
       ++ fmt_pad0 4 (to_unsigned Col) ++ wlit "H".

(** [SetPos(int Row, int Col)], written directly. *)
Definition SetPos_direct (Row Col : Z) : wstring :=
  ESC :: wlit "[" ++ fmt_pad0 4 Row ++ wlit ";" ++ fmt_pad0 4 Col ++ wlit "H".

(** The absolute movements by a count that the buffer forms of
    [MoveUp] and [MoveRight] append. *)
Definition MoveUpN (Buff : wstring) (Count : Z) : wstring :=
  Buff ++ ESC :: wlit "[" ++ fmt_pad0 4 Count ++ wlit "A".
Definition MoveRightN (Buff : wstring) (Count : Z) : wstring :=
  Buff ++ ESC :: wlit "[" ++ fmt_pad0 4 Count ++ wlit "C".

(** [string_to_unsigned]: the loop over the characters, entered with the
    number of characters seen and the result so far; [LLONG_MIN] is the
    answer for a string that is no number. *)
Definition LLONG_MIN : Z := - 9223372036854775808.

Fixpoint string_to_unsigned_loop (sv : wstring) (ndigits Res : Z) : Z :=
  match sv with
  | [] => Res
  | c :: rest =>
      let ndigits := ndigits + 1 in
      if (ndigits <? 18) && (48 <=? c) && (c <=? 57)
      then string_to_unsigned_loop rest ndigits (Res * 10 + (c - 48))
      else LLONG_MIN
  end.

Definition string_to_unsigned (sv : wstring) : Z :=
  match sv with
  | [] => LLONG_MIN
  | _ => string_to_unsigned_loop sv 0 0
  end.

(** [string_to_signed]. *)
Definition string_to_signed (sv : wstring) : Z :=
  match sv with
  | [] => LLONG_MIN
  | c :: rest =>
      let '(Sign, Res) :=
        if c =? 45 then (-1, string_to_unsigned rest) else (1, string_to_unsigned sv) in
      if negb (Res =? LLONG_MIN) then Res * Sign else LLONG_MIN
  end.

(** [username_error]: the counters and the error bitmap after the loop
    over the characters, then the checks of the counters. *)
Definition username_step (st : Z * Z * Z * Z) (w : wchar) : Z * Z * Z * Z :=
  let '(nL, nU, nD, Errors) := st in
  if (48 <=? w) && (w <=? 57) then (nL, nU, nD + 1, Errors)
  else if (97 <=? w) && (w <=? 122) then (nL + 1, nU, nD, Errors)
  else if (65 <=? w) && (w <=? 90) then (nL, nU + 1, nD, Errors)
  else (nL, nU, nD, Z.lor Errors 16).

Definition username_error (Text : wstring) (MinLen MaxLen : Z) : Z :=
  let Errors := 0 in
  let Errors := if wlen Text <? to_size_t MinLen then Z.lor Errors 1 else Errors in
  let Errors := if wlen Text >? to_size_t MaxLen then Z.lor Errors 1 else Errors in
  let '(nL, nU, nD, Errors) := fold_left username_step Text (0, 0, 0, Errors) in
  let Errors := if nD =? 0 then Z.lor Errors 2 else Errors in
  let Errors := if nL =? 0 then Z.lor Errors 4 else Errors in
  let Errors := if nU =? 0 then Z.lor Errors 8 else Errors in
  Errors.

(** [Append] and [InPlace]: the buffer and the number returned. *)
Definition Append (bf wv : wstring) : wstring * Z := (bf ++ wv, to_int (wlen wv)).
Definition InPlace (bf wv : wstring) : wstring * Z :=
  let Size := to_int (wlen wv) in (MoveLeftN (bf ++ wv) Size, Size).

End ConsoleCMD.

(* ------------------------------------------------------------------ *)
(** ** colors.h *)

Module Colors.
Import ConsoleCMD.

(** Three [uint8_t] components. *)
Record rgb : Type := mk_rgb { r : Z; g : Z; b : Z }.

Definition wf_rgb (c : rgb) : Prop :=
  uint8_range (r c) /\ uint8_range (g c) /\ uint8_range (b c).

(** [rgb(TR r, TG g, TB b)]: every argument is cast to [uint8_t]. *)
Definition rgb3 (R G B : Z) : rgb :=
  mk_rgb (to_uint8 R) (to_uint8 G) (to_uint8 B).

(** [rgb(T X)]: the low 24 bits, little-endian. *)
Definition rgb_of_int (X : Z) : rgb :=
  let v := Z.land (to_unsigned X) 0xffffff in
  mk_rgb (Z.land v 0xff) (Z.land (Z.shiftr v 8) 0xff) (Z.land (Z.shiftr v 16) 0xff).

Definition value (c : rgb) : Z := r c + 256 * g c + 65536 * b c.

(** The private helpers work on [unsigned]. *)
Definition avg (l r : Z) : Z := to_unsigned (l + r) / 2.
Definition sub (l r : Z) : Z := avg l (Z.lxor r 0xff).
Definition mul (l r : Z) : Z :=
  let x := to_unsigned (l * r) in
  if x >? 25500 then 255 else x / 100.

Definition Avg (L R : rgb) (Weight : Z) : rgb :=
  let Weight := if Weight <? 0 then 0 else if Weight >? 100 then 100 else Weight in
  rgb3 (to_uint8 (Z.quot (r L * Weight + r R * (100 - Weight)) 100))
       (to_uint8 (Z.quot (g L * Weight + g R * (100 - Weight)) 100))
       (to_uint8 (Z.quot (b L * Weight + b R * (100 - Weight)) 100)).

Definition neg (c : rgb) : rgb := rgb_of_int (Z.lxor (value c) 0xffffff).

Definition rgb_eqb (L R : rgb) : bool :=
  (r L =? r R) && (g L =? g R) && (b L =? b R).

(** [operator +]. *)
Definition rgb_add (L R : rgb) : rgb :=
  rgb3 (avg (r L) (r R)) (avg (g L) (g R)) (avg (b L) (b R)).

(** [operator -] on two colors. *)
Definition rgb_sub (L R : rgb) : rgb :=
  rgb3 (sub (r L) (r R)) (sub (g L) (g R)) (sub (b L) (b R)).

(** [operator *]. *)
Definition rgb_mul (L : rgb) (x : Z) : rgb :=
  let L := if x >=? 0 then L else neg L in
  let x := if x >=? 0 then x else - x in
  rgb3 (mul (r L) x) (mul (g L) x) (mul (b L) x).

Definition setBack (c : rgb) (Buf : wstring) : wstring :=
  SetBackColor Buf (r c) (g c) (b c).
Definition setFront (c : rgb) (Buf : wstring) : wstring :=
  SetFrontColor Buf (r c) (g c) (b c).

Record color : Type := mk_color { F : rgb; B : rgb }.

Definition BLACK : rgb := rgb3 0 0 0.
Definition GRAY : rgb := rgb3 128 128 128.
Definition WHITE : rgb := rgb3 255 255 255.
Definition BLUE : rgb := rgb3 0 0 255.

Definition default_color : color := mk_color WHITE BLACK.

Definition apply (c : color) (Buffer : wstring) : wstring :=
  setBack (B c) (setFront (F c) Buffer).

Definition blend (c : color) (Level : Z) : color :=
  mk_color (Avg (B c) (F c) Level) (Avg (F c) (B c) Level).

(** Predefined schemes. *)
Definition ListColors : color := mk_color (rgb3 0xff 0xff 0xff) (rgb3 0x20 0x20 0x20).
Definition ListFocusColors : color := mk_color (rgb3 0xff 0xff 0xff) (rgb3 0x4d 0x4d 0x4d).
Definition ListSelectColors : color := mk_color (rgb3 0xff 0xff 0xff) (rgb3 0x77 0x77 0x77).
Definition ListSelectFocusColors : color :=
  mk_color (rgb3 0xff 0xff 0xff) (rgb3 0x87 0x87 0x87).
Definition InputColors : color := mk_color (Avg BLUE WHITE 30) (rgb_mul WHITE 20).

(** What a saturating and a modular component-wise addition would give;
    [rgb_add] is compared with both. *)
Definition saturating_add (L R : rgb) : rgb :=
  mk_rgb (Z.min 255 (r L + r R)) (Z.min 255 (g L + g R)) (Z.min 255 (b L + b R)).
Definition modular_add (L R : rgb) : rgb :=
  mk_rgb ((r L + r R) mod 256) ((g L + g R) mod 256) ((b L + b R) mod 256).

(** [rgb::Avg256], [mix], [darken], [brighten] and their 256-step forms,
    [gray]; [rgb{}] is black. *)
Definition Avg256 (L R : rgb) (Weight : Z) : rgb :=
  let Weight := if Weight <? 0 then 0 else if Weight >? 256 then 256 else Weight in
  rgb3 (to_uint8 (Z.quot (r L * Weight + r R * (256 - Weight)) 256))
       (to_uint8 (Z.quot (g L * Weight + g R * (256 - Weight)) 256))
       (to_uint8 (Z.quot (b L * Weight + b R * (256 - Weight)) 256)).

Definition mix (c Rhs : rgb) (RhsPercentage : Z) : rgb := Avg Rhs c RhsPercentage.

Definition darken (c : rgb) (BlackPercentage : Z) : rgb :=
  if BlackPercentage >? 0
  then Avg (mk_rgb 0 0 0) c BlackPercentage
  else Avg (rgb3 255 255 255) c (- BlackPercentage).

Definition brighten (c : rgb) (WhitePercentage : Z) : rgb :=
  if WhitePercentage >? 0
  then Avg (rgb3 255 255 255) c WhitePercentage
  else Avg (mk_rgb 0 0 0) c (- WhitePercentage).

Definition mix256 (c Rhs : rgb) (RhsShare256 : Z) : rgb := Avg256 Rhs c RhsShare256.
Definition darken256 (c : rgb) (BlackShare256 : Z) : rgb :=
  Avg256 (mk_rgb 0 0 0) c BlackShare256.
Definition brighten256 (c : rgb) (WhiteShare256 : Z) : rgb :=
  Avg256 (rgb3 255 255 255) c WhiteShare256.

Definition gray (X : Z) : rgb := rgb3 (to_uint8 X) (to_uint8 X) (to_uint8 X).

(** [color(rgb C, int Contrast)], [mirror], [mix], unary [-], [==], [avg],
    [apply_mirror] and [apply_negative]. *)
Definition color_of_contrast (C : rgb) (Contrast : Z) : color :=
  mk_color (darken C Contrast) (brighten C Contrast).

Definition mirror (c : color) : color := mk_color (B c) (F c).

Definition color_mix (c : color) (FrontPercentage : Z) : rgb :=
  Avg (F c) (B c) FrontPercentage.

Definition color_neg (c : color) : color := mk_color (neg (F c)) (neg (B c)).

Definition color_eqb (L R : color) : bool := rgb_eqb (F L) (F R) && rgb_eqb (B L) (B R).

Definition color_avg (c Rhs : color) (Weight : Z) : color :=
  mk_color (Avg (F c) (F Rhs) Weight) (Avg (B c) (B Rhs) Weight).

Definition apply_mirror (c : color) (Buffer : wstring) : wstring :=
  setFront (B c) (setBack (F c) Buffer).

Definition apply_negative (c : color) (Buffer : wstring) : wstring :=
  setBack (neg (B c)) (setFront (neg (F c)) Buffer).

Definition wf_color (c : color) : Prop := wf_rgb (F c) /\ wf_rgb (B c).

End Colors.

(* ------------------------------------------------------------------ *)
(** ** coord.h *)

Module Coord.
Import ConsoleCMD.

(** Two [short] fields. *)
Record coord : Type := mk_coord { Row : Z; Col : Z }.

Definition wf_coord (c : coord) : Prop := short_range (Row c) /\ short_range (Col c).

(** [coord(TR Row, TC Col)]: both arguments are cast to [short]. *)
Definition coord_of (R C : Z) : coord := mk_coord (to_short R) (to_short C).

Definition coord_add (L R : coord) : coord :=
  coord_of (to_short (Row L + Row R)) (to_short (Col L + Col R)).

Definition coord_sub (L R : coord) : coord :=
  coord_of (to_short (Row L - Row R)) (to_short (Col L - Col R)).

Definition offset (c : coord) (NumRows NumCols : Z) : coord :=
  coord_of (Row c + NumRows) (Col c + NumCols).

(** [coord::normalize]. *)
Definition coord_normalize (c : coord) : coord :=
  mk_coord (if Row c >? 0 then Row c else 0) (if Col c >? 0 then Col c else 0).

(** [coord::apply]. *)
Definition apply (c : coord) (Buff : wstring) : wstring :=
  SetPos Buff (Row c + 1) (Col c + 1).

(** The cursor-tracking writers: each updates the tracked position and
    appends to the buffer. *)
Definition move_left (st : coord * wstring) : coord * wstring :=
  let (c, Buff) := st in
  (mk_coord (Row c) (to_short (Col c - 1)), MoveLeft Buff).

Definition move_down (st : coord * wstring) : coord * wstring :=
  let (c, Buff) := st in
  (mk_coord (to_short (Row c + 1)) (Col c), MoveDown Buff).

(** [push_back(Buff, const wchar_t (&L)[N])]: one column, [N] characters. *)
Definition push_back_sym (L : wstring) (st : coord * wstring) : coord * wstring :=
  let (c, Buff) := st in
  (mk_coord (Row c) (to_short (Col c + 1)), Buff ++ L).

(** [push_back(Buff, int wc)]. *)
Definition push_back (wc : Z) (st : coord * wstring) : coord * wstring :=
  let (c, Buff) := st in
  (mk_coord (Row c) (to_short (Col c + 1)), Buff ++ [to_wchar wc]).

(** [append(bf, Count, c)], called with a positive [Count]. *)
Definition append_fill (Count : Z) (ch : wchar) (st : coord * wstring) : coord * wstring :=
  let (c, bf) := st in
  (mk_coord (Row c) (to_short (Col c + to_short Count)), bf ++ fill Count ch).

Record coord_box : Type := mk_box { Top : coord; Bottom : coord }.

Definition wf_box (bx : coord_box) : Prop := wf_coord (Top bx) /\ wf_coord (Bottom bx).

Definition default_box : coord_box := mk_box (coord_of 1 1) (coord_of 1 1).

Definition set_size (bx : coord_box) (NumRows NumCols : Z) : coord_box :=
  mk_box (Top bx) (coord_sub (coord_add (Top bx) (coord_of NumRows NumCols)) (coord_of 1 1)).

Definition num_rows (bx : coord_box) : Z := Row (Bottom bx) - Row (Top bx) + 1.
Definition num_cols (bx : coord_box) : Z := Col (Bottom bx) - Col (Top bx) + 1.

Definition disjoint (bx Rhs : coord_box) : bool :=
  (Row (Top bx) >? Row (Bottom Rhs))
  || (Col (Top bx) >? Col (Bottom Rhs))
  || (Row (Top Rhs) >? Row (Bottom bx))
  || (Col (Top Rhs) >? Col (Bottom bx)).

(** [coord_box::normalize(MinNumRows, MinNumCols)]; the two [short] locals
    are initialised from [int] expressions. *)
Definition normalize (MinNumRows MinNumCols : Z) (bx : coord_box) : coord_box :=
  let Top' := coord_normalize (Top bx) in
  let Bottom' := coord_normalize (Bottom bx) in
  let MinNumRows := if MinNumRows >? 0 then MinNumRows else 0 in
  let MinNumCols := if MinNumCols >? 0 then MinNumCols else 0 in
  let R := to_short (Row Top' + MinNumRows - 1) in
  let C := to_short (Col Top' + MinNumCols - 1) in
  mk_box Top'
         (mk_coord (if R >? Row Bottom' then R else Row Bottom')
                   (if C >? Col Bottom' then C else Col Bottom')).

(** [normalize()] with its default arguments. *)
Definition normalize_default (bx : coord_box) : coord_box := normalize 1 1 bx.

(** [coord_box::intersect]; the four locals are [short]s chosen among
    [short]s, so the constructor's casts change nothing. *)
Definition intersect (bx Rhs : coord_box) : coord_box :=
  let TR := if Row (Top bx) >? Row (Top Rhs) then Row (Top bx) else Row (Top Rhs) in
  let TC := if Col (Top bx) >? Col (Top Rhs) then Col (Top bx) else Col (Top Rhs) in
  let BR := if Row (Bottom bx) <? Row (Bottom Rhs) then Row (Bottom bx) else Row (Bottom Rhs) in
  let BC := if Col (Bottom bx) <? Col (Bottom Rhs) then Col (Bottom bx) else Col (Bottom Rhs) in
  mk_box (mk_coord TR TC) (mk_coord BR BC).

Definition top_right (bx : coord_box) : coord := coord_of (Row (Top bx)) (Col (Bottom bx)).
Definition bottom_left (bx : coord_box) : coord := coord_of (Row (Bottom bx)) (Col (Top bx)).

(** A box that [normalize] leaves alone: its top is not negative and its
    bottom is not before its top, in both directions. *)
Definition normalized (bx : coord_box) : Prop :=
  0 <= Row (Top bx) /\ 0 <= Col (Top bx)
  /\ Row (Top bx) <= Row (Bottom bx) /\ Col (Top bx) <= Col (Bottom bx).

(** The comparison operators of [coord]: rows first, then columns. *)
Definition coord_ltb (L R : coord) : bool :=
  (Row L <? Row R) || ((Row L =? Row R) && (Col L <? Col R)).
Definition coord_leb (L R : coord) : bool :=
  (Row L <? Row R) || ((Row L =? Row R) && (Col L <=? Col R)).
Definition coord_eqb (L R : coord) : bool := (Row L =? Row R) && (Col L =? Col R).
Definition coord_neb (L R : coord) : bool :=
  negb (Row L =? Row R) || negb (Col L =? Col R).
Definition coord_gtb (L R : coord) : bool := coord_ltb R L.
Definition coord_geb (L R : coord) : bool := coord_leb R L.

(** [operator +=]. *)
Definition coord_add_assign (c rhs : coord) : coord :=
  mk_coord (to_short (Row c + Row rhs)) (to_short (Col c + Col rhs)).

(** [Min] and [Max]. *)
Definition Min (Lhs Rhs : coord) : coord :=
  coord_of (if Row Lhs <? Row Rhs then Row Lhs else Row Rhs)
           (if Col Lhs <? Col Rhs then Col Lhs else Col Rhs).
Definition Max (Lhs Rhs : coord) : coord :=
  coord_of (if Row Lhs >? Row Rhs then Row Lhs else Row Rhs)
           (if Col Lhs >? Col Rhs then Col Lhs else Col Rhs).

(** The other single steps, and the steps by a count. *)
Definition move_up (st : coord * wstring) : coord * wstring :=
  let (c, Buff) := st in
  (mk_coord (to_short (Row c - 1)) (Col c), MoveUp Buff).
Definition move_right (st : coord * wstring) : coord * wstring :=
  let (c, Buff) := st in
  (mk_coord (Row c) (to_short (Col c + 1)), MoveRight Buff).

Definition move_up_n (X : Z) (st : coord * wstring) : coord * wstring :=
  let (c, Buff) := st in
  if X >? 0 then (mk_coord (to_short (Row c - to_short X)) (Col c), MoveUpN Buff X) else st.
Definition move_down_n (X : Z) (st : coord * wstring) : coord * wstring :=
  let (c, Buff) := st in
  if X >? 0 then (mk_coord (to_short (Row c + to_short X)) (Col c), MoveDownN Buff X) else st.
Definition move_left_n (X : Z) (st : coord * wstring) : coord * wstring :=
  let (c, Buff) := st in
  if X >? 0 then (mk_coord (Row c) (to_short (Col c - to_short X)), MoveLeftN Buff X) else st.
Definition move_right_n (X : Z) (st : coord * wstring) : coord * wstring :=
  let (c, Buff) := st in
  if X >? 0 then (mk_coord (Row c) (to_short (Col c + to_short X)), MoveRightN Buff X) else st.

(** [move_row_by], [move_col_by], [move_by], [move_row_to], [move_col_to],
    [update_to], [move_to]. *)
Definition move_row_by (X : Z) (st : coord * wstring) : coord * wstring :=
  if X <? 0 then move_up_n (- X) st
  else if X >? 0 then move_down_n X st
  else st.
Definition move_col_by (X : Z) (st : coord * wstring) : coord * wstring :=
  if X <? 0 then move_left_n (- X) st
  else if X >? 0 then move_right_n X st
  else st.
Definition move_by (C : coord) (st : coord * wstring) : coord * wstring :=
  move_col_by (Col C) (move_row_by (Row C) st).
Definition move_row_to (X : Z) (st : coord * wstring) : coord * wstring :=
  move_row_by (X - Row (fst st)) st.
Definition move_col_to (X : Z) (st : coord * wstring) : coord * wstring :=
  move_col_by (X - Col (fst st)) st.
Definition update_to (C : coord) (st : coord * wstring) : coord * wstring :=
  move_by (coord_sub C (fst st)) st.
Definition move_to (C : coord) (st : coord * wstring) : coord * wstring :=
  let c := mk_coord (Row C) (Col C) in (c, apply c (snd st)).

(** [coord_box]: setters and getters. *)
Definition set_top (bx : coord_box) (TopPosition : coord) : coord_box :=
  mk_box TopPosition (Bottom bx).
Definition set_size_coord (bx : coord_box) (BoxSize : coord) : coord_box :=
  mk_box (Top bx) (coord_sub (coord_add (Top bx) BoxSize) (coord_of 1 1)).
Definition set_rows (bx : coord_box) (NumRows : Z) : coord_box :=
  mk_box (Top bx) (mk_coord (to_short (Row (Top bx) + NumRows - 1)) (Col (Bottom bx))).
Definition set_cols (bx : coord_box) (NumCols : Z) : coord_box :=
  mk_box (Top bx) (mk_coord (Row (Bottom bx)) (to_short (Col (Top bx) + NumCols - 1))).
Definition get_size (bx : coord_box) : coord :=
  coord_add (coord_sub (Bottom bx) (Top bx)) (coord_of 1 1).

(** [contains] and [partially_intersects]. *)
Definition contains (bx Rhs : coord_box) : bool :=
  (Row (Top bx) <=? Row (Top Rhs)) && (Col (Top bx) <=? Col (Top Rhs))
  && (Row (Bottom bx) >=? Row (Bottom Rhs)) && (Col (Bottom bx) >=? Col (Bottom Rhs)).
Definition partially_intersects (bx Rhs : coord_box) : bool :=
  negb (disjoint bx Rhs) && negb (contains bx Rhs) && negb (contains Rhs bx).

(** Placing a child. *)
Definition place_center_top (bx : coord_box) (ChildSize : coord) : coord :=
  let SizeDifference := coord_sub (get_size bx) ChildSize in
  coord_of (Row (Top bx)) (Col (Top bx) + Z.quot (Col SizeDifference) 2).
Definition place_center (bx : coord_box) (ChildSize : coord) : coord_box :=
  let Size := get_size bx in
  let CenterTop :=
    mk_coord (to_short (Row (Top bx) + Z.quot (Row Size - Row ChildSize) 2))
             (to_short (Col (Top bx) + Z.quot (Col Size - Col ChildSize) 2)) in
  mk_box CenterTop (coord_sub (coord_add CenterTop ChildSize) (coord_of 1 1)).
Definition place_offset (bx : coord_box) (ChildSize Offset : coord) : coord_box :=
  let ChildTop := coord_add (Top bx) Offset in
  mk_box ChildTop (coord_sub (coord_add ChildTop ChildSize) (coord_of 1 1)).

(** Positions. *)
Definition center (bx : coord_box) : coord :=
  coord_of (Z.quot (Row (Top bx) + Row (Bottom bx)) 2)
           (Z.quot (Col (Top bx) + Col (Bottom bx)) 2).
Definition center_top (bx : coord_box) (RowOffset : Z) : coord :=
  coord_of (Row (Top bx) + RowOffset) (Z.quot (Col (Top bx) + Col (Bottom bx)) 2).
Definition center_left (bx : coord_box) (ColumnOffset : Z) : coord :=
  coord_of (Z.quot (Row (Top bx) + Row (Bottom bx)) 2) (Col (Top bx) + ColumnOffset).
Definition center_right (bx : coord_box) (ColumnOffset : Z) : coord :=
  coord_of (Z.quot (Row (Top bx) + Row (Bottom bx)) 2) (Col (Bottom bx) + ColumnOffset).
Definition center_bottom (bx : coord_box) (RowOffset : Z) : coord :=
  coord_of (Row (Bottom bx) + RowOffset) (Z.quot (Col (Top bx) + Col (Bottom bx)) 2).

(** Moving a box. *)
Definition move_top_to (bx : coord_box) (NewTop : coord) : coord_box :=
  let Displacement := coord_sub NewTop (Top bx) in
  mk_box NewTop (coord_add_assign (Bottom bx) Displacement).
Definition shift (bx : coord_box) (Displacement : coord) : coord_box :=
  mk_box (coord_add (Top bx) Displacement) (coord_add (Bottom bx) Displacement).
Definition shift_by (bx : coord_box) (NumRows NumCols : Z) : coord_box :=
  shift bx (coord_of NumRows NumCols).

(** Children in the corners. *)
Definition top_left_child (bx : coord_box) (Size : coord) : coord_box :=
  let Size := Min Size (get_size bx) in
  mk_box (Top bx) (coord_sub (coord_add (Top bx) Size) (coord_of 1 1)).
Definition bottom_right_child (bx : coord_box) (Size : coord) : coord_box :=
  let Size := Min Size (get_size bx) in
  mk_box (coord_add (coord_sub (Bottom bx) Size) (coord_of 1 1)) (Bottom bx).
Definition top_right_child (bx : coord_box) (Size : coord) : coord_box :=
  let Size := Min Size (get_size bx) in
  mk_box (coord_of (Row (Top bx)) (Col (Bottom bx) - Col Size + 1))
         (coord_of (Row (Top bx) + Row Size - 1) (Col (Bottom bx))).
Definition bottom_left_child (bx : coord_box) (Size : coord) : coord_box :=
  let Size := Min Size (get_size bx) in
  mk_box (coord_of (Row (Bottom bx) - Row Size + 1) (Col (Top bx)))
         (coord_of (Row (Bottom bx)) (Col (Top bx) + Col Size - 1)).

(** Sections of a box, each cut out of the box by [intersect]. *)
Definition top_rows (bx : coord_box) (NumRows LeftPad RightPad : Z) : coord_box :=
  intersect bx (mk_box (coord_of (Row (Top bx)) (Col (Top bx) + LeftPad))
                       (coord_of (Row (Top bx) + NumRows - 1) (Col (Bottom bx) - RightPad))).
Definition bottom_rows (bx : coord_box) (NumRows LeftPad RightPad : Z) : coord_box :=
  intersect bx (mk_box (coord_of (Row (Bottom bx) - NumRows + 1) (Col (Top bx) + LeftPad))
                       (coord_of (Row (Bottom bx)) (Col (Bottom bx) - RightPad))).
Definition left_columns (bx : coord_box) (NumColumns TopPad BottomPad : Z) : coord_box :=
  intersect bx (mk_box (coord_of (Row (Top bx) + TopPad) (Col (Top bx)))
                       (coord_of (Row (Bottom bx) - BottomPad)
                                 (Col (Top bx) + NumColumns - 1))).
Definition right_columns (bx : coord_box) (NumColumns TopPad BottomPad : Z) : coord_box :=
  intersect bx (mk_box (coord_of (Row (Top bx) + TopPad) (Col (Bottom bx) - NumColumns + 1))
                       (coord_of (Row (Bottom bx) - BottomPad) (Col (Bottom bx)))).
Definition pad_rows (bx : coord_box) (TopPad BottomPad : Z) : coord_box :=
  intersect bx (mk_box (coord_of (Row (Top bx) + TopPad) (Col (Top bx)))
                       (coord_of (Row (Bottom bx) - BottomPad) (Col (Bottom bx)))).
Definition pad_cols (bx : coord_box) (LeftPad RightPad : Z) : coord_box :=
  intersect bx (mk_box (coord_of (Row (Top bx)) (Col (Top bx) + LeftPad))
                       (coord_of (Row (Bottom bx)) (Col (Bottom bx) - RightPad))).
Definition center_rows (bx : coord_box) (TopOffset BottomOffset : Z) : coord_box :=
  mk_box (coord_add (Top bx) (coord_of TopOffset 0))
         (coord_sub (Bottom bx) (coord_of BottomOffset 0)).
Definition center_columns (bx : coord_box) (LeftOffset RightOffset : Z) : coord_box :=
  mk_box (coord_add (Top bx) (coord_of 0 LeftOffset))
         (coord_sub (Bottom bx) (coord_of 0 RightOffset)).
Definition center_box (bx : coord_box) (NumRows NumColumns : Z) : coord_box :=
  let t :=
    mk_coord
      (to_short (Row (Top bx) + Z.quot (Row (Bottom bx) - Row (Top bx) - NumRows + 1) 2))
      (to_short (Col (Top bx)
                 + Z.quot (Col (Bottom bx) - Col (Top bx) - NumColumns + 1) 2)) in
  mk_box t (coord_add t (coord_of (NumRows - 1) (NumColumns - 1))).

(** [coord_box::clear]: spaces over every cell of the box. *)
Definition clear (bx : coord_box) (bf : wstring) : wstring :=
  let NumRows := num_rows bx in
  let NumCols := num_cols bx in
  if (NumRows <=? 0) || (NumCols <=? 0) then bf else
  let bf := apply (Top bx) bf in
  let bf :=
    times (NumRows - 1) (fun bf => MoveDown (MoveLeftN (bf ++ fill NumCols 32) NumCols)) bf in
  let bf := bf ++ fill NumCols 32 in
  MoveLeftN bf 1.

(** A box with at least one cell. *)
Definition nonempty (bx : coord_box) : Prop := 1 <= num_rows bx /\ 1 <= num_cols bx.

(** The cell [p] lies in the box. *)
Definition inside (bx : coord_box) (p : coord) : Prop :=
  Row (Top bx) <= Row p <= Row (Bottom bx) /\ Col (Top bx) <= Col p <= Col (Bottom bx).

End Coord.

(* ------------------------------------------------------------------ *)
(** ** cursor.h *)

Module Cursor.
Import ConsoleCMD.

(** [cursor_data]: three color bytes and the attribute byte, whose
    bit-fields are kept as separate fields; [state_value] is the byte they
    pack into, lowest bits first. *)
Module Data.
Record cursor_data : Type := mk_data {
  R : Z; G : Z; B : Z;
  SHAPE : Z;
  BLINK : bool; UNDER : bool; SHOW : bool; BOLD : bool; NEG : bool
}.
End Data.
Export Data(cursor_data, mk_data, SHAPE, BLINK, UNDER, SHOW, BOLD, NEG).

Definition bit (x : bool) : Z := if x then 1 else 0.

Definition state_value (d : cursor_data) : Z :=
  Z.land (SHAPE d) 7 + 8 * bit (BLINK d) + 16 * bit (UNDER d) + 32 * bit (SHOW d)
  + 64 * bit (BOLD d) + 128 * bit (NEG d).

(** [cursor_data(T Value)]. *)
Definition data_of_value (Value : Z) : cursor_data :=
  let v := to_unsigned Value in
  mk_data (Z.land v 0xff) (Z.land (Z.shiftr v 8) 0xff) (Z.land (Z.shiftr v 16) 0xff)
          (Z.land (Z.shiftr v 24) 7)
          (Z.testbit v 27) (Z.testbit v 28) (Z.testbit v 29) (Z.testbit v 30)
          (Z.testbit v 31).

Definition rgb_value (d : cursor_data) : Z :=
  Data.R d + 256 * Data.G d + 65536 * Data.B d.

(** [cursor_data::rgb()] and [get()]. *)
Definition rgb (d : cursor_data) : Colors.rgb :=
  Colors.rgb3 (Data.R d) (Data.G d) (Data.B d).

(** [cursor_data::set]. *)
Definition set (d : cursor_data) (RGB : Colors.rgb) : cursor_data :=
  mk_data (Colors.r RGB) (Colors.g RGB) (Colors.b RGB)
          (SHAPE d) (BLINK d) (UNDER d) (SHOW d) (BOLD d) (NEG d).

(** [cursor_data::update]: the new data and whether the color changed. *)
Definition update (d : cursor_data) (RGB : Colors.rgb) : cursor_data * bool :=
  let RGB_VAL := rgb_value d in
  (set d RGB, negb (RGB_VAL =? Colors.value RGB)).

Definition set_SHAPE (d : cursor_data) (v : Z) : cursor_data :=
  mk_data (Data.R d) (Data.G d) (Data.B d) v (BLINK d) (UNDER d) (SHOW d) (BOLD d) (NEG d).
Definition set_BLINK (d : cursor_data) (v : bool) : cursor_data :=
  mk_data (Data.R d) (Data.G d) (Data.B d) (SHAPE d) v (UNDER d) (SHOW d) (BOLD d) (NEG d).
Definition set_UNDER (d : cursor_data) (v : bool) : cursor_data :=
  mk_data (Data.R d) (Data.G d) (Data.B d) (SHAPE d) (BLINK d) v (SHOW d) (BOLD d) (NEG d).
Definition set_SHOW (d : cursor_data) (v : bool) : cursor_data :=
  mk_data (Data.R d) (Data.G d) (Data.B d) (SHAPE d) (BLINK d) (UNDER d) v (BOLD d) (NEG d).
Definition set_BOLD (d : cursor_data) (v : bool) : cursor_data :=
  mk_data (Data.R d) (Data.G d) (Data.B d) (SHAPE d) (BLINK d) (UNDER d) (SHOW d) v (NEG d).
Definition set_NEG (d : cursor_data) (v : bool) : cursor_data :=
  mk_data (Data.R d) (Data.G d) (Data.B d) (SHAPE d) (BLINK d) (UNDER d) (SHOW d) (BOLD d) v.

(** [cursor]: foreground data (which carries the attributes) and
    background data. *)
Record cursor : Type := mk_cursor { F : cursor_data; B : cursor_data }.

Definition default_cursor : cursor :=
  mk_cursor (data_of_value 0x00ffffff) (data_of_value 0).

Definition with_F (c : cursor) (d : cursor_data) : cursor := mk_cursor d (B c).
Definition with_B (c : cursor) (d : cursor_data) : cursor := mk_cursor (F c) d.

(** A member function that changes the cursor and appends to the buffer
    takes and returns the pair of both. *)
Definition cstate : Type := (cursor * wstring)%type.

Definition apply_show (c : cursor) (Buff : wstring) : wstring :=
  if SHOW (F c) then SetShow Buff else SetHide Buff.
Definition apply_blink (c : cursor) (Buff : wstring) : wstring :=
  if BLINK (F c) then SetBlink Buff else ClrBlink Buff.
Definition apply_shape (c : cursor) (Buff : wstring) : wstring :=
  SetShape Buff (SHAPE (F c)).
Definition apply_cursor (c : cursor) (Buff : wstring) : wstring :=
  apply_blink c (apply_shape c (apply_show c Buff)).
Definition apply_bold (c : cursor) (Buff : wstring) : wstring :=
  if BOLD (F c) then SetBold Buff else ClrBold Buff.
Definition apply_negative (c : cursor) (Buff : wstring) : wstring :=
  if NEG (F c) then SetNegative Buff else ClrNegative Buff.
Definition apply_underline (c : cursor) (Buff : wstring) : wstring :=
  if UNDER (F c) then SetUnderline Buff else ClrUnderline Buff.
Definition apply_text (c : cursor) (Buff : wstring) : wstring :=
  apply_underline c (apply_negative c (apply_bold c Buff)).
Definition apply_color (c : cursor) (Buff : wstring) : wstring :=
  Colors.setBack (rgb (B c)) (Colors.setFront (rgb (F c)) Buff).
Definition apply (c : cursor) (Buff : wstring) : wstring :=
  apply_color c (apply_text c (apply_cursor c Buff)).

(** In-memory setters. *)
Definition set_front_rgb_mem (c : cursor) (FrontRGB : Colors.rgb) : cursor :=
  with_F c (set (F c) FrontRGB).
Definition set_back_rgb_mem (c : cursor) (BackRGB : Colors.rgb) : cursor :=
  with_B c (set (B c) BackRGB).

(** Set and apply. *)
Definition set_back_rgb (st : cstate) (RGB : Colors.rgb) : cstate :=
  let (c, Buff) := st in
  let c := with_B c (set (B c) RGB) in
  (c, SetBackColor Buff (Data.R (B c)) (Data.G (B c)) (Data.B (B c))).

Definition set_front_rgb (st : cstate) (RGB : Colors.rgb) : cstate :=
  let (c, Buff) := st in
  let c := with_F c (set (F c) RGB) in
  (c, SetFrontColor Buff (Data.R (F c)) (Data.G (F c)) (Data.B (F c))).

(** Conditional updates. *)
Definition update_back_rgb (st : cstate) (RGB : Colors.rgb) : cstate :=
  let (c, Buff) := st in
  let (d, changed) := update (B c) RGB in
  let c := with_B c d in
  if changed then (c, SetBackColor Buff (Data.R (B c)) (Data.G (B c)) (Data.B (B c)))
  else (c, Buff).

Definition update_front_rgb (st : cstate) (RGB : Colors.rgb) : cstate :=
  let (c, Buff) := st in
  let (d, changed) := update (F c) RGB in
  let c := with_F c d in
  if changed then (c, SetFrontColor Buff (Data.R (F c)) (Data.G (F c)) (Data.B (F c)))
  else (c, Buff).

(** One attribute of [update_to]: compare, store, emit. *)
Definition step_SHAPE (Rhs : cursor) (st : cstate) : cstate :=
  let (c, Buff) := st in
  if negb (SHAPE (F c) =? SHAPE (F Rhs)) then
    let c := with_F c (set_SHAPE (F c) (SHAPE (F Rhs))) in (c, apply_shape c Buff)
  else st.
Definition step_SHOW (Rhs : cursor) (st : cstate) : cstate :=
  let (c, Buff) := st in
  if negb (Bool.eqb (SHOW (F c)) (SHOW (F Rhs))) then
    let c := with_F c (set_SHOW (F c) (SHOW (F Rhs))) in (c, apply_show c Buff)
  else st.
Definition step_BLINK (Rhs : cursor) (st : cstate) : cstate :=
  let (c, Buff) := st in
  if negb (Bool.eqb (BLINK (F c)) (BLINK (F Rhs))) then
    let c := with_F c (set_BLINK (F c) (BLINK (F Rhs))) in (c, apply_blink c Buff)
  else st.
Definition step_NEG (Rhs : cursor) (st : cstate) : cstate :=
  let (c, Buff) := st in
  if negb (Bool.eqb (NEG (F c)) (NEG (F Rhs))) then
    let c := with_F c (set_NEG (F c) (NEG (F Rhs))) in (c, apply_negative c Buff)
  else st.
Definition step_BOLD (Rhs : cursor) (st : cstate) : cstate :=
  let (c, Buff) := st in
  if negb (Bool.eqb (BOLD (F c)) (BOLD (F Rhs))) then
    let c := with_F c (set_BOLD (F c) (BOLD (F Rhs))) in (c, apply_bold c Buff)
  else st.
Definition step_UNDER (Rhs : cursor) (st : cstate) : cstate :=
  let (c, Buff) := st in
  if negb (Bool.eqb (UNDER (F c)) (UNDER (F Rhs))) then
    let c := with_F c (set_UNDER (F c) (UNDER (F Rhs))) in (c, apply_underline c Buff)
  else st.

(** [cursor::update_to(Buff, Rhs)]. *)
Definition update_to (st : cstate) (Rhs : cursor) : cstate :=
  let st := update_back_rgb st (rgb (B Rhs)) in
  let st := update_front_rgb st (rgb (F Rhs)) in
  if negb (state_value (F (fst st)) =? state_value (F Rhs)) then
    step_UNDER Rhs (step_BOLD Rhs (step_NEG Rhs (step_BLINK Rhs
      (step_SHOW Rhs (step_SHAPE Rhs st)))))
  else st.

(** The attribute fields of two data agree. *)
Definition same_attributes (d1 d2 : cursor_data) : Prop :=
  SHAPE d1 = SHAPE d2 /\ BLINK d1 = BLINK d2 /\ UNDER d1 = UNDER d2
  /\ SHOW d1 = SHOW d2 /\ BOLD d1 = BOLD d2 /\ NEG d1 = NEG d2.

(** The color bytes of two data agree. *)
Definition same_bytes (d1 d2 : cursor_data) : Prop :=
  Data.R d1 = Data.R d2 /\ Data.G d1 = Data.G d2 /\ Data.B d1 = Data.B d2.

End Cursor.

(* ------------------------------------------------------------------ *)
(** ** WindowBox.h: the scroll bars *)

Module WindowBox.
Import ConsoleCMD.

Record BasicScrollBar : Type := mk_bar {
  BarLength : Z;
  PreLength : Z;
  PostLength : Z;
  BackRGB : Colors.rgb;
  TopLeft : Coord.coord;
  ScrollColors : Colors.color
}.

(** What a [draw] threads through its body: the tracked position [Loc], the
    tracked attribute state [Seq] and the buffer [bf] it appends to. *)
Record pen : Type := mk_pen { Loc : Coord.coord; Seq : Cursor.cursor; buf : wstring }.

Definition with_buf (f : wstring -> wstring) (p : pen) : pen :=
  mk_pen (Loc p) (Seq p) (f (buf p)).
Definition with_loc (f : Coord.coord * wstring -> Coord.coord * wstring) (p : pen) : pen :=
  let (l, b) := f (Loc p, buf p) in mk_pen l (Seq p) b.
Definition with_seq (f : Cursor.cstate -> Cursor.cstate) (p : pen) : pen :=
  let (s, b) := f (Seq p, buf p) in mk_pen (Loc p) s b.
Definition with_seq_mem (f : Cursor.cursor -> Cursor.cursor) (p : pen) : pen :=
  mk_pen (Loc p) (f (Seq p)) (buf p).

(** One scroll-bar cell of the horizontal bar, and one of the vertical bar. *)
Definition h_cell (p : pen) : pen := with_loc (Coord.push_back_sym FSQUARE) p.
Definition v_cell (p : pen) : pen :=
  with_loc (Coord.push_back 32) (with_loc Coord.move_down (with_loc Coord.move_left p)).

(** The thumb of [HorizontalScrollBar::draw]: (thumbStart, thumbEnd).
    [NumItems] divides: with [NumItems = 0] the [int] division is a
    division by zero and the program is killed there, so there is no
    thumb ([None]). *)
Definition h_thumb (BarLength FirstItem NumItems : Z) : option (Z * Z) :=
  if NumItems =? 0 then None else
  let thumbEnd := Z.quot ((FirstItem + BarLength) * BarLength) NumItems in
  let thumbEnd :=
    if thumbEnd >=? BarLength
    then BarLength - (if FirstItem + BarLength <? NumItems then 1 else 0)
    else thumbEnd in
  let '(thumbStart, thumbEnd) :=
    if thumbEnd >? 0 then
      let thumbStart := thumbEnd - Z.quot (BarLength * BarLength) NumItems in
      let thumbStart := thumbStart - (if thumbStart =? thumbEnd then 1 else 0) in
      let thumbStart := if thumbStart >? 0 then thumbStart else 0 in
      (thumbStart, thumbEnd)
    else (0, 1) in
  if (thumbStart =? 0) && (FirstItem >? 0)
  then Some (thumbStart + 1, thumbEnd + 1)
  else Some (thumbStart, thumbEnd).

(** [HorizontalScrollBar::draw(bf, FirstItem, NumItems)]; [None] when the
    thumb computation divides by zero. *)
Definition h_draw (sb : BasicScrollBar) (bf : wstring) (FirstItem NumItems : Z)
  : option wstring :=
  let p := mk_pen (TopLeft sb) Cursor.default_cursor bf in
  let NumBars := BarLength sb in
  let NumBars := if NumBars >? 0 then NumBars else 0 in
  let p := with_buf SetHide p in
  let p := with_buf ClrUnderline p in
  let p := with_buf (Colors.setBack (BackRGB sb)) p in
  let p := with_buf (Coord.apply (Loc p)) p in
  let p := if PreLength sb >? 0
           then with_loc (Coord.append_fill (PreLength sb) 32) p else p in
  p <-
    (if NumItems <=? BarLength sb then
      let p := with_buf (Colors.setFront (Colors.B (ScrollColors sb))) p in
      let p := with_loc (Coord.push_back LHEAD) p in
      let p := times (BarLength sb) h_cell p in
      Some (with_loc (Coord.push_back RHEAD) p)
    else
      ' (thumbStart, thumbEnd) <- h_thumb (BarLength sb) FirstItem NumItems ;;
      let p :=
        if thumbStart >? 0
        then with_seq (fun st => Cursor.set_front_rgb st (Colors.F (ScrollColors sb))) p
        else with_seq (fun st => Cursor.set_front_rgb st (Colors.B (ScrollColors sb))) p in
      let p := with_loc (Coord.push_back LHEAD) p in
      let p :=
        if thumbStart >? 0 then
          let p := with_seq (fun st => Cursor.update_front_rgb st (Colors.B (ScrollColors sb))) p in
          times thumbStart h_cell p
        else p in
      let p :=
        if thumbStart <? thumbEnd then
          let p := with_seq (fun st => Cursor.update_front_rgb st (Colors.F (ScrollColors sb))) p in
          times (thumbEnd - thumbStart) h_cell p
        else p in
      let p :=
        if thumbEnd <? NumBars then
          let p := with_seq (fun st => Cursor.update_front_rgb st (Colors.B (ScrollColors sb))) p in
          times (NumBars - thumbEnd) h_cell p
        else p in
      let p :=
        if thumbEnd <? NumBars
        then with_seq (fun st => Cursor.update_front_rgb st (Colors.F (ScrollColors sb))) p
        else with_seq (fun st => Cursor.update_front_rgb st (Colors.B (ScrollColors sb))) p in
      Some (with_loc (Coord.push_back RHEAD) p)) ;;
  let p := if PostLength sb >? 0
           then with_loc (Coord.append_fill (PostLength sb) 32) p else p in
  Some (buf p).

(** The thumb of [VerticalScrollBar::draw]: (thumbStart, thumbEnd), and
    [None] for the division by zero of [NumItems = 0]. *)
Definition v_thumb (BarLength FirstRow NumItems : Z) : option (Z * Z) :=
  if NumItems =? 0 then None else
  let NumBars := BarLength - 2 in
  let thumbEnd := Z.quot ((FirstRow + BarLength) * NumBars) NumItems in
  let thumbEnd :=
    if thumbEnd >=? NumBars
    then NumBars - (if FirstRow + BarLength <? NumBars then 1 else 0)
    else thumbEnd in
  let '(thumbStart, thumbEnd) :=
    if thumbEnd >? 0 then
      let thumbStart := thumbEnd - Z.quot (BarLength * NumBars) NumItems in
      let thumbStart := thumbStart - (if thumbStart =? thumbEnd then 1 else 0) in
      let thumbStart := if thumbStart >? 0 then thumbStart else 0 in
      (thumbStart, thumbEnd)
    else (0, 1) in
  if (thumbStart =? 0) && (FirstRow >? 0)
  then Some (thumbStart + 1, thumbEnd + 1)
  else Some (thumbStart, thumbEnd).

(** The two branches of [VerticalScrollBar::draw] between the common
    prologue and the down arrow. *)
Definition v_draw_inactive (sb : BasicScrollBar) (p : pen) : pen :=
  let NumBars := BarLength sb - 2 in
  let p := with_seq (fun st => Cursor.set_front_rgb st (Colors.B (ScrollColors sb))) p in
  let p := with_loc (Coord.push_back_sym TRIUP) p in
  let p := with_seq (fun st => Cursor.set_back_rgb st (Colors.B (ScrollColors sb))) p in
  let p := times NumBars v_cell p in
  with_seq (fun st => Cursor.update_back_rgb st (BackRGB sb)) p.

Definition v_draw_thumb (sb : BasicScrollBar) (FirstRow NumItems : Z) (p : pen)
  : option pen :=
  let NumBars := BarLength sb - 2 in
  ' (thumbStart, thumbEnd) <- v_thumb (BarLength sb) FirstRow NumItems ;;
  let p :=
    if thumbStart >? 0
    then with_seq_mem (fun c => Cursor.set_front_rgb_mem c (Colors.F (ScrollColors sb))) p
    else with_seq_mem (fun c => Cursor.set_front_rgb_mem c (Colors.B (ScrollColors sb))) p in
  let p := with_buf (Cursor.apply (Seq p)) p in
  let p := with_loc (Coord.push_back_sym TRIUP) p in
  let p := with_seq (fun st => Cursor.update_front_rgb st (Colors.F (ScrollColors sb))) p in
  let p := with_seq (fun st => Cursor.update_back_rgb st (Colors.B (ScrollColors sb))) p in
  let p := times thumbStart v_cell p in
  let p := with_buf SetNegative p in
  let p := times (thumbEnd - thumbStart) v_cell p in
  let p := with_buf ClrNegative p in
  let p := times (NumBars - thumbEnd) v_cell p in
  let p := with_seq (fun st => Cursor.update_back_rgb st (BackRGB sb)) p in
  if thumbEnd =? NumBars
  then Some (with_seq (fun st => Cursor.update_front_rgb st (Colors.B (ScrollColors sb))) p)
  else Some p.

(** [VerticalScrollBar::draw(bf, FirstRow, NumItems)]; [None] when the
    thumb computation divides by zero. *)
Definition v_draw (sb : BasicScrollBar) (bf : wstring) (FirstRow NumItems : Z)
  : option wstring :=
  let p := mk_pen (TopLeft sb) Cursor.default_cursor bf in
  let p := with_buf SetHide p in
  let p := with_buf ClrUnderline p in
  let p := with_buf (Colors.setBack (BackRGB sb)) p in
  let p := with_buf (Coord.apply (Loc p)) p in
  p <-
    (if NumItems <? BarLength sb
     then Some (v_draw_inactive sb p)
     else v_draw_thumb sb FirstRow NumItems p) ;;
  let p := with_loc Coord.move_left p in
  let p := with_loc Coord.move_down p in
  let p := with_loc (Coord.push_back_sym TRIDOWN) p in
  Some (buf p).

(** What the two [draw]s append before the bar itself. *)
Definition h_prologue (sb : BasicScrollBar) (bf : wstring) : wstring :=
  Coord.apply (TopLeft sb) (Colors.setBack (BackRGB sb) (ClrUnderline (SetHide bf)))
  ++ (if PreLength sb >? 0 then fill (PreLength sb) 32 else []).

Definition v_prologue (sb : BasicScrollBar) (bf : wstring) : wstring :=
  Coord.apply (TopLeft sb) (Colors.setBack (BackRGB sb) (ClrUnderline (SetHide bf))).

(** What one cell of the vertical bar appends. *)
Definition v_cell_text : wstring := MoveDown (MoveLeft []) ++ [32].

(** The vertical bar [DirectoryDisplayBox::initialize] sets up for a box of
    six rows and forty columns at the origin. *)
Definition sample_bar : BasicScrollBar :=
  mk_bar 5 0 0 (Colors.B Colors.ListColors) (Coord.coord_of 0 39)
         (Colors.blend Colors.ListColors 20).

End WindowBox.

(* ------------------------------------------------------------------ *)
(** ** InputControl.h *)

Module InputControl.
Import ConsoleCMD.

(** How a call ends: it returns, it throws [std::logic_error], or an
    exception escapes a [noexcept] function and the program terminates. *)
Inductive outcome (A : Type) : Type :=
| Ok (a : A)
| Throw_logic_error
| Terminate.
Arguments Ok {A} a.
Arguments Throw_logic_error {A}.
Arguments Terminate {A}.

Definition lift {A : Type} (m : option A) : outcome A :=
  match m with
  | Some a => Ok a
  | None => Terminate
  end.

(** The members of [BasicBox] the control uses, its own members, and the
    terminal. *)
Record t : Type := mk {
  bf : wstring;
  Area : Coord.coord_box;
  Color : Colors.color;
  InsertOn : bool;
  BeginIndex : Z;
  BeginOffset : Z;
  MaxLength : Z;
  Text : wstring;
  wc : wchar;
  stdout : wstring
}.

Definition set_bf (s : t) (v : wstring) : t :=
  mk v (Area s) (Color s) (InsertOn s) (BeginIndex s) (BeginOffset s) (MaxLength s)
     (Text s) (wc s) (stdout s).
Definition set_Area (s : t) (v : Coord.coord_box) : t :=
  mk (bf s) v (Color s) (InsertOn s) (BeginIndex s) (BeginOffset s) (MaxLength s)
     (Text s) (wc s) (stdout s).
Definition set_Color (s : t) (v : Colors.color) : t :=
  mk (bf s) (Area s) v (InsertOn s) (BeginIndex s) (BeginOffset s) (MaxLength s)
     (Text s) (wc s) (stdout s).
Definition set_InsertOn (s : t) (v : bool) : t :=
  mk (bf s) (Area s) (Color s) v (BeginIndex s) (BeginOffset s) (MaxLength s)
     (Text s) (wc s) (stdout s).
Definition set_BeginIndex (s : t) (v : Z) : t :=
  mk (bf s) (Area s) (Color s) (InsertOn s) v (BeginOffset s) (MaxLength s)
     (Text s) (wc s) (stdout s).
Definition set_BeginOffset (s : t) (v : Z) : t :=
  mk (bf s) (Area s) (Color s) (InsertOn s) (BeginIndex s) v (MaxLength s)
     (Text s) (wc s) (stdout s).
Definition set_MaxLength (s : t) (v : Z) : t :=
  mk (bf s) (Area s) (Color s) (InsertOn s) (BeginIndex s) (BeginOffset s) v
     (Text s) (wc s) (stdout s).
Definition set_Text (s : t) (v : wstring) : t :=
  mk (bf s) (Area s) (Color s) (InsertOn s) (BeginIndex s) (BeginOffset s) (MaxLength s)
     v (wc s) (stdout s).
Definition set_stdout (s : t) (v : wstring) : t :=
  mk (bf s) (Area s) (Color s) (InsertOn s) (BeginIndex s) (BeginOffset s) (MaxLength s)
     (Text s) (wc s) v.

(** [mz::Write]. *)
Definition emit (w : wstring) (s : t) : t := set_stdout s (stdout s ++ w).

(** Cursor shape helpers. *)
Definition write_bunder_shape : t -> t := emit (ESC :: wlit "[3 q").
Definition write_bblock_shape : t -> t := emit (ESC :: wlit "[1 q").
Definition write_bbar_shape : t -> t := emit (ESC :: wlit "[5 q").
Definition write_right_bbar : t -> t := emit (ESC :: wlit "[C" ++ ESC :: wlit "[5 q").
Definition write_right_bbar_n (Count : Z) : t -> t :=
  emit (ESC :: wlit "[" ++ fmt_d Count ++ wlit "C" ++ ESC :: wlit "[5 q").
Definition write_left : t -> t := emit (ESC :: wlit "[D").
Definition write_left_and_shape (s : t) : t :=
  if InsertOn s then emit (ESC :: wlit "[D" ++ ESC :: wlit "[1 q") s
  else emit (ESC :: wlit "[D" ++ ESC :: wlit "[3 q") s.
Definition write_shape (s : t) : t :=
  if InsertOn s then write_bblock_shape s else write_bunder_shape s.

(** [box_length]. *)
Definition box_length (s : t) : Z :=
  let BoxLength := Coord.num_cols (Area s) in
  if BoxLength <=? MaxLength s then BoxLength else MaxLength s.

(** [format_to(DisplayColor, DisplayCharacter)].  The two lengths are
    [size_t]: a negative column count wraps to a length [append] refuses,
    and a [BeginIndex] outside the text wraps [RemLength] to a value the
    clamp brings back to [BoxLength] before [substr] refuses the position. *)
Definition format_to (DisplayColor : Colors.color) (DisplayCharacter : wchar) (s : t)
  : option t :=
  let BoxLength := Coord.num_cols (Area s) in
  if BoxLength <? 0 then None else
  let size := wlen (Text s) in
  let RemLength :=
    if (size <? BeginIndex s) || (size - BeginIndex s >? BoxLength)
    then BoxLength else size - BeginIndex s in
  let bf := [] in
  let bf := SetHide bf in
  let bf := Colors.apply DisplayColor bf in
  let bf := Coord.apply (Coord.Top (Area s)) bf in
  shown <- (if negb (DisplayCharacter =? 0)
            then Some (fill RemLength DisplayCharacter)
            else substr (Text s) (BeginIndex s) RemLength) ;;
  Some (set_bf s (bf ++ shown ++ fill (BoxLength - RemLength) 32)).

(** [print(DisplayColor, DisplayCharacter)]. *)
Definition print (DisplayColor : Colors.color) (DisplayCharacter : wchar) (s : t)
  : option t :=
  s <- format_to DisplayColor DisplayCharacter s ;;
  Some (emit (bf s) s).

(** [display_cursor]. *)
Definition display_cursor (s : t) : t :=
  let BoxLength := box_length s in
  let Loc := Coord.offset (Coord.Top (Area s)) 0 (BeginOffset s) in
  let s := emit (SetPos_direct (Coord.Row Loc + 1) (Coord.Col Loc + 1)) s in
  let s :=
    if BeginOffset s >=? BoxLength then write_bbar_shape s
    else if InsertOn s then write_bblock_shape s
    else write_bunder_shape s in
  emit (ESC :: wlit "[?25h") s.

(** [print_and_display_cursor]. *)
Definition print_and_display_cursor (s : t) : option t :=
  s <- print (Color s) (wc s) s ;;
  Some (display_cursor s).

(** The text after [BACKSPACE] at cursor position [p]: every later
    character moves one place left, then the last one is dropped. *)
Definition erase_before (Text : wstring) (p : Z) : wstring :=
  removelast
    (for_up (Z.to_nat (wlen Text - p)) p (fun i T => wset T (i - 1) (wget T i)) Text).

(** The text after [DELETE] at cursor position [p]. *)
Definition erase_at (Text : wstring) (p : Z) : wstring :=
  removelast
    (for_up (Z.to_nat (wlen Text - 1 - p)) p (fun i T => wset T i (wget T (i + 1))) Text).

(** The text after inserting [x] at [p], [p] inside the text: the last
    character is pushed again, the tail moves one place right, [x] lands
    at [p]. *)
Definition insert_at (Text : wstring) (p : Z) (x : Z) : wstring :=
  let T := Text ++ [last Text 0] in
  let T := for_down (Z.to_nat (wlen T - 1 - p)) (wlen T - 1)
                    (fun i T => wset T i (wget T (i - 1))) T in
  wset T p (to_wchar x).

(** [process_control_keys(x)]: whether the key was a control key, and the
    state it leaves. *)
Definition process_control_keys (x : Z) (s : t) : option (bool * t) :=
  let BoxLength := box_length s in
  let EndIndex := BeginIndex s + BeginOffset s in
  if x =? BACKSPACEKEY then
    if BeginIndex s + BeginOffset s >? 0 then
      let s := set_Text s (erase_before (Text s) (BeginIndex s + BeginOffset s)) in
      let s := set_BeginOffset s (BeginOffset s - 1) in
      let s := if BeginOffset s <? 0
               then set_BeginIndex (set_BeginOffset s 0) (BeginIndex s - 1) else s in
      s <- print_and_display_cursor s ;;
      Some (true, s)
    else Some (true, s)
  else if x =? HOMEKEY then
    if BeginIndex s + BeginOffset s >? BoxLength then
      let s := set_BeginOffset (set_BeginIndex s 0) 0 in
      s <- print_and_display_cursor s ;;
      Some (true, s)
    else if BeginIndex s + BeginOffset s >? 0 then
      let s := emit (MoveLeftN_direct (BeginOffset s)) s in
      let s := if BeginOffset s =? BoxLength then write_shape s else s in
      Some (true, set_BeginOffset (set_BeginIndex s 0) 0)
    else Some (true, s)
  else if x =? LEFTKEY then
    if BeginOffset s =? BoxLength then
      Some (true, write_left_and_shape (set_BeginOffset s (BeginOffset s - 1)))
    else if BeginOffset s >? 0 then
      Some (true, write_left (set_BeginOffset s (BeginOffset s - 1)))
    else if BeginIndex s >? 0 then
      s <- print_and_display_cursor (set_BeginIndex s (BeginIndex s - 1)) ;;
      Some (true, s)
    else Some (true, s)
  else if x =? RIGHTKEY then
    if BeginIndex s + BeginOffset s <? to_int (wlen (Text s)) then
      let s := set_BeginOffset s (BeginOffset s + 1) in
      if BeginOffset s <? BoxLength then Some (true, emit (ESC :: wlit "[C") s)
      else if BeginOffset s =? BoxLength then Some (true, write_right_bbar s)
      else
        let s := set_BeginOffset (set_BeginIndex s (BeginIndex s + 1)) BoxLength in
        s <- print_and_display_cursor s ;;
        Some (true, s)
    else Some (true, s)
  else if x =? ENDKEY then
    let textSize := to_int (wlen (Text s)) in
    if BeginIndex s + BoxLength >? textSize then
      if BeginIndex s + BeginOffset s <? textSize then
        let s := emit (MoveRightN_direct (textSize - BeginIndex s - BeginOffset s)) s in
        Some (true, set_BeginOffset s (textSize - BeginIndex s))
      else Some (true, s)
    else if BeginIndex s + BoxLength <? textSize then
      let s := set_BeginOffset (set_BeginIndex s (textSize - BoxLength)) BoxLength in
      s <- print_and_display_cursor s ;;
      Some (true, s)
    else if BeginIndex s + BoxLength =? textSize then
      if BeginOffset s <? BoxLength then
        let s := write_right_bbar_n (BoxLength - BeginOffset s) s in
        Some (true, set_BeginOffset s (textSize - BeginIndex s))
      else Some (true, s)
    else Some (true, s)
  else if x =? INSERTKEY then
    let s := set_InsertOn s (negb (InsertOn s)) in
    Some (true, if BeginOffset s <? BoxLength then write_shape s else s)
  else if x =? DELETEKEY then
    if (0 <=? EndIndex) && (EndIndex <? wlen (Text s)) then
      s <- print_and_display_cursor (set_Text s (erase_at (Text s) EndIndex)) ;;
      Some (true, s)
    else Some (true, s)
  else Some (false, s).

(** The validation at the top of [insert]. *)
Definition invalid_state (s : t) : bool :=
  (BeginIndex s <? 0)
  || (BeginOffset s <? 0)
  || (BeginOffset s >? Coord.num_cols (Area s))
  || (BeginIndex s + BeginOffset s >? to_int (wlen (Text s)))
  || (to_int (wlen (Text s)) >? MaxLength s).

(** What [insert] does with a key that is no control key. *)
Definition insert_character (x : Z) (s : t) : option (bool * t) :=
  let OffsetIndex := BeginIndex s + BeginOffset s in
  let BoxLength := box_length s in
  let Processed := 0 in
  let textSize := to_int (wlen (Text s)) in
  if negb (IsDisplayCharacter x) then Some (false, s) else
  if (MaxLength s <? 0) || (wlen (Text s) <? MaxLength s) then
    if OffsetIndex =? to_int (wlen (Text s)) then
      let s := set_Text s (Text s ++ [to_wchar x]) in
      if BeginOffset s <? BoxLength then
        let s := if negb (wc s =? 0) then emit [wc s] s else emit [last (Text s) 0] s in
        let s := set_BeginOffset s (BeginOffset s + 1) in
        let s := if BeginOffset s =? BoxLength then write_bbar_shape s else s in
        Some (true, s)
      else
        let s := set_BeginIndex s (BeginIndex s + 1) in
        let s := set_BeginOffset s BoxLength in
        s <- print_and_display_cursor s ;;
        Some (true, s)
    else
      let '(s, Processed) :=
        if InsertOn s
        then (set_Text s (wset (Text s) OffsetIndex (to_wchar x)), 1)
        else (set_Text s (insert_at (Text s) OffsetIndex x), 1) in
      let s := set_BeginOffset s (BeginOffset s + 1) in
      let '(s, Processed) :=
        if BeginOffset s >=? BoxLength
        then (set_BeginOffset
                (set_BeginIndex s (BeginIndex s + (BeginOffset s - BoxLength))) BoxLength,
              1)
        else (s, Processed) in
      s <- (if Processed >? 0 then print_and_display_cursor s else Some s) ;;
      Some (Processed >=? 0, s)
  else if InsertOn s && (OffsetIndex <? textSize) then
    let s := set_Text s (wset (Text s) OffsetIndex (to_wchar x)) in
    let s :=
      if BeginOffset s <? BoxLength then set_BeginOffset s (BeginOffset s + 1)
      else if BeginIndex s + BeginOffset s <? MaxLength s
           then set_BeginIndex s (BeginIndex s + 1)
           else s in
    s <- print_and_display_cursor s ;;
    Some (true, s)
  else
    s <- (if Processed >? 0 then print_and_display_cursor s else Some s) ;;
    Some (Processed >=? 0, s).

(** [insert(x)]. *)
Definition insert (x : Z) (s : t) : outcome (bool * t) :=
  if invalid_state s then Throw_logic_error
  else
    match process_control_keys x s with
    | None => Terminate
    | Some (true, s) => Ok (true, s)
    | Some (false, s) => lift (insert_character x s)
    end.

(** [clear], [set_size], [set_text], [set_insert_mode].  In [set_text],
    [Text.resize(MaxLength)] with a negative [MaxLength] asks for a size
    no string can have and throws inside the [noexcept] function. *)
Definition clear (s : t) : t := set_BeginOffset (set_BeginIndex (set_Text s []) 0) 0.

Definition set_size (BoxLength MaxTextLength : Z) (s : t) : t :=
  set_MaxLength (set_Area s (Coord.set_size (Area s) 1 BoxLength)) MaxTextLength.

Definition set_text (text : wstring) (s : t) : option t :=
  let s := set_Text s text in
  s <- (if to_int (wlen (Text s)) >? MaxLength s
        then if MaxLength s <? 0 then None
             else Some (set_Text s (firstn (Z.to_nat (MaxLength s)) (Text s)))
        else Some s) ;;
  Some (set_BeginOffset (set_BeginIndex s 0) 0).

Definition set_insert_mode (insert_mode : bool) (s : t) : t := set_InsertOn s insert_mode.

(** [InputControl()]: the members' initialisers, then the constructor body
    ([Controls] is not modelled). *)
Definition create : option t :=
  let s := mk [] Coord.default_box Colors.default_color false 0 0 0 [] 0 [] in
  let s := set_Color s Colors.InputColors in
  format_to (Color s) 0 s.

(** Keys typed one after the other, as the loops of [get] and
    [get_hidden] hand them to [insert]; the answers are collected. *)
Fixpoint type_keys (keys : list Z) (s : t) : outcome (list bool * t) :=
  match keys with
  | [] => Ok ([], s)
  | x :: rest =>
      match insert x s with
      | Ok (b, s) =>
          match type_keys rest s with
          | Ok (bs, s) => Ok (b :: bs, s)
          | Throw_logic_error => Throw_logic_error
          | Terminate => Terminate
          end
      | Throw_logic_error => Throw_logic_error
      | Terminate => Terminate
      end
  end.

(** The part of the buffer after the escape sequences [format_to] starts
    it with: the visible window. *)
Definition header (DisplayColor : Colors.color) (s : t) : wstring :=
  Coord.apply (Coord.Top (Area s)) (Colors.apply DisplayColor (SetHide [])).

Definition visible_window (s : t) : wstring :=
  skipn (List.length (header (Color s) s)) (bf s).

(** The invariant of the edit state: the cursor is inside the field and
    inside the text, and the text is within its maximum length. *)
Definition text_edit_invariant (s : t) : Prop :=
  0 <= BeginIndex s
  /\ 0 <= BeginOffset s <= Coord.num_cols (Area s)
  /\ BeginIndex s + BeginOffset s <= wlen (Text s)
  /\ wlen (Text s) <= MaxLength s.

(** A state [format_to] can render. *)
Definition printable (s : t) : Prop :=
  0 <= Coord.num_cols (Area s) /\ 0 <= BeginIndex s <= wlen (Text s).

(** A freshly constructed field of a given width and maximum length, and
    the field of width 5 and maximum length 10 filled to its maximum. *)
Definition field (BoxLength MaxTextLength : Z) : option t :=
  s <- create ;; Some (set_size BoxLength MaxTextLength s).

Definition full_field : option t :=
  s <- field 5 10 ;; set_text (wlit "ABCDEFGHIJ") s.

End InputControl.

(* ------------------------------------------------------------------ *)
(** ** DirectoryDisplayBox.h *)

Module DirectoryDisplayBox.
Import ConsoleCMD.

Record name_column : Type := mk_col {
  FirstIndex : Z;
  BeginOffset : Z;
  EndOffset : Z;
  Selected : bool
}.

Definition default_col : name_column := mk_col 0 0 0 false.

(** [name_column::size]. *)
Definition size (c : name_column) : Z := EndOffset c - BeginOffset c.

Definition set_Selected (c : name_column) (v : bool) : name_column :=
  mk_col (FirstIndex c) (BeginOffset c) (EndOffset c) v.

(** The members of [BasicBox] the list uses, its own members, and the
    terminal. *)
Record t : Type := mk {
  bf : wstring;
  Area : Coord.coord_box;
  Color : Colors.color;
  NameContainer : wstring;
  NameColumns : list name_column;
  LeftColumnSize : Z;
  RightColumnSize : Z;
  FocusColor : Colors.color;
  SelectColor : Colors.color;
  SelectFocusColor : Colors.color;
  vScroll : WindowBox.BasicScrollBar;
  hScroll : WindowBox.BasicScrollBar;
  TopIndex : Z;
  FocusIndex : Z;
  offsetLeftSign : Z;
  offsetColumn2 : Z;
  offsetRightSign : Z;
  TextLineLength : Z;
  NumIndexes : Z;
  CommInit : wstring;
  CommFocus : wstring;
  CommSelect : wstring;
  CommBoth : wstring;
  CommReturn : wstring;
  TempBuffer : wstring;
  stdout : wstring
}.

Definition set_bf (s : t) (v : wstring) : t :=
  mk v (Area s) (Color s) (NameContainer s) (NameColumns s) (LeftColumnSize s)
     (RightColumnSize s) (FocusColor s) (SelectColor s) (SelectFocusColor s) (vScroll s)
     (hScroll s) (TopIndex s) (FocusIndex s) (offsetLeftSign s) (offsetColumn2 s)
     (offsetRightSign s) (TextLineLength s) (NumIndexes s) (CommInit s) (CommFocus s)
     (CommSelect s) (CommBoth s) (CommReturn s) (TempBuffer s) (stdout s).
Definition set_NameContainer (s : t) (v : wstring) : t :=
  mk (bf s) (Area s) (Color s) v (NameColumns s) (LeftColumnSize s) (RightColumnSize s)
     (FocusColor s) (SelectColor s) (SelectFocusColor s) (vScroll s) (hScroll s)
     (TopIndex s) (FocusIndex s) (offsetLeftSign s) (offsetColumn2 s)
     (offsetRightSign s) (TextLineLength s) (NumIndexes s) (CommInit s) (CommFocus s)
     (CommSelect s) (CommBoth s) (CommReturn s) (TempBuffer s) (stdout s).
Definition set_NameColumns (s : t) (v : list name_column) : t :=
  mk (bf s) (Area s) (Color s) (NameContainer s) v (LeftColumnSize s)
     (RightColumnSize s) (FocusColor s) (SelectColor s) (SelectFocusColor s) (vScroll s)
     (hScroll s) (TopIndex s) (FocusIndex s) (offsetLeftSign s) (offsetColumn2 s)
     (offsetRightSign s) (TextLineLength s) (NumIndexes s) (CommInit s) (CommFocus s)
     (CommSelect s) (CommBoth s) (CommReturn s) (TempBuffer s) (stdout s).
Definition set_TopIndex (s : t) (v : Z) : t :=
  mk (bf s) (Area s) (Color s) (NameContainer s) (NameColumns s) (LeftColumnSize s)
     (RightColumnSize s) (FocusColor s) (SelectColor s) (SelectFocusColor s) (vScroll s)
     (hScroll s) v (FocusIndex s) (offsetLeftSign s) (offsetColumn2 s)
     (offsetRightSign s) (TextLineLength s) (NumIndexes s) (CommInit s) (CommFocus s)
     (CommSelect s) (CommBoth s) (CommReturn s) (TempBuffer s) (stdout s).
Definition set_FocusIndex (s : t) (v : Z) : t :=
  mk (bf s) (Area s) (Color s) (NameContainer s) (NameColumns s) (LeftColumnSize s)
     (RightColumnSize s) (FocusColor s) (SelectColor s) (SelectFocusColor s) (vScroll s)
     (hScroll s) (TopIndex s) v (offsetLeftSign s) (offsetColumn2 s) (offsetRightSign s)
     (TextLineLength s) (NumIndexes s) (CommInit s) (CommFocus s) (CommSelect s)
     (CommBoth s) (CommReturn s) (TempBuffer s) (stdout s).
Definition set_NumIndexes (s : t) (v : Z) : t :=
  mk (bf s) (Area s) (Color s) (NameContainer s) (NameColumns s) (LeftColumnSize s)
     (RightColumnSize s) (FocusColor s) (SelectColor s) (SelectFocusColor s) (vScroll s)
     (hScroll s) (TopIndex s) (FocusIndex s) (offsetLeftSign s) (offsetColumn2 s)
     (offsetRightSign s) (TextLineLength s) v (CommInit s) (CommFocus s) (CommSelect s)
     (CommBoth s) (CommReturn s) (TempBuffer s) (stdout s).
Definition set_TempBuffer (s : t) (v : wstring) : t :=
  mk (bf s) (Area s) (Color s) (NameContainer s) (NameColumns s) (LeftColumnSize s)
     (RightColumnSize s) (FocusColor s) (SelectColor s) (SelectFocusColor s) (vScroll s)
     (hScroll s) (TopIndex s) (FocusIndex s) (offsetLeftSign s) (offsetColumn2 s)
     (offsetRightSign s) (TextLineLength s) (NumIndexes s) (CommInit s) (CommFocus s)
     (CommSelect s) (CommBoth s) (CommReturn s) v (stdout s).
Definition set_stdout (s : t) (v : wstring) : t :=
  mk (bf s) (Area s) (Color s) (NameContainer s) (NameColumns s) (LeftColumnSize s)
     (RightColumnSize s) (FocusColor s) (SelectColor s) (SelectFocusColor s) (vScroll s)
     (hScroll s) (TopIndex s) (FocusIndex s) (offsetLeftSign s) (offsetColumn2 s)
     (offsetRightSign s) (TextLineLength s) (NumIndexes s) (CommInit s) (CommFocus s)
     (CommSelect s) (CommBoth s) (CommReturn s) (TempBuffer s) v.

(** [mz::Write]. *)
Definition emit (w : wstring) (s : t) : t := set_stdout s (stdout s ++ w).

(** [NameColumns[i]] and [NameColumns[i].Selected = v]. *)
Definition column (s : t) (i : Z) : name_column :=
  nth (Z.to_nat i) (NameColumns s) default_col.

Fixpoint update_nth {A : Type} (l : list A) (i : nat) (f : A -> A) : list A :=
  match l, i with
  | [], _ => []
  | h :: tl, O => f h :: tl
  | h :: tl, Datatypes.S k => h :: update_nth tl k f
  end.

Definition select_column (s : t) (i : Z) (v : bool) : t :=
  set_NameColumns s (update_nth (NameColumns s) (Z.to_nat i) (fun c => set_Selected c v)).

(** [if (w.size() < n) w.append(n - w.size(), 0)]. *)
Definition pad_to (w : wstring) (n : Z) : wstring :=
  if wlen w <? n then w ++ fill (n - wlen w) 0 else w.

(** The four color markers of [initialize], brought to one length. *)
Definition color_commands (Color FocusColor SelectColor SelectFocusColor : Colors.color)
  : wstring * wstring * wstring * wstring :=
  let CommInit := Colors.apply Color [] in
  let CommFocus := Colors.apply FocusColor [] in
  let CommSelect := Colors.apply SelectColor [] in
  let CommBoth := Colors.apply SelectFocusColor [] in
  let ColorLength := wlen CommInit in
  let ColorLength := Z.max ColorLength (wlen CommBoth) in
  let ColorLength := Z.max ColorLength (wlen CommFocus) in
  let ColorLength := Z.max ColorLength (wlen CommSelect) in
  (pad_to CommInit ColorLength, pad_to CommFocus ColorLength,
   pad_to CommSelect ColorLength, pad_to CommBoth ColorLength).

(** The two movement sequences of [initialize], brought to one length:
    (TempBuffer, CommReturn). *)
Definition move_commands (LeftColumnSize RightColumnSize : Z) : wstring * wstring :=
  let TempBuffer := SetPos [] 1 1 in
  let CommReturn := MoveDown (MoveLeftN [] (LeftColumnSize + RightColumnSize + 2)) in
  let MoveLength := Z.max (wlen TempBuffer) (wlen CommReturn) in
  (pad_to TempBuffer MoveLength, pad_to CommReturn MoveLength).

(** The template line [initialize] builds to measure a row:
    (offsetLeftSign, offsetColumn2, offsetRightSign, TextLineLength). *)
Definition line_template (CommInit CommReturn : wstring) (LeftColumnSize RightColumnSize : Z)
  : option (Z * Z * Z * Z) :=
  let bf := [] ++ CommInit in
  bf <- append_n bf LeftColumnSize 32 ;;
  let offsetLeftSign := to_int (wlen bf) in
  let bf := bf ++ LLQUOTE in
  let offsetColumn2 := to_int (wlen bf) in
  bf <- append_n bf RightColumnSize 32 ;;
  let offsetRightSign := to_int (wlen bf) in
  let bf := bf ++ RRQUOTE in
  let bf := bf ++ CommReturn in
  let TextLineLength := to_int (wlen bf) in
  Some (offsetLeftSign, offsetColumn2, offsetRightSign, TextLineLength).

(** [initialize]. *)
Definition initialize (s : t) : option t :=
  let RightColumnSize := Coord.num_cols (Area s) - LeftColumnSize s - 3 in
  let Color := Colors.ListColors in
  let FocusColor := Colors.ListFocusColors in
  let SelectColor := Colors.ListSelectColors in
  let SelectFocusColor := Colors.ListSelectFocusColors in
  let '(CommInit, CommFocus, CommSelect, CommBoth) :=
    color_commands Color FocusColor SelectColor SelectFocusColor in
  let '(TempBuffer, CommReturn) := move_commands (LeftColumnSize s) RightColumnSize in
  let hScroll :=
    WindowBox.mk_bar (RightColumnSize - 1) (LeftColumnSize s + 1) 1 (Colors.B Color)
                     (Coord.bottom_left (Area s)) (Colors.blend Color 20) in
  let vScroll :=
    WindowBox.mk_bar (Coord.num_rows (Area s) - 1) 0 0 (Colors.B Color)
                     (Coord.top_right (Area s)) (Colors.blend Color 20) in
  '(offsetLeftSign, offsetColumn2, offsetRightSign, TextLineLength) <-
    line_template CommInit CommReturn (LeftColumnSize s) RightColumnSize ;;
  Some (mk [] (Area s) Color [] (NameColumns s) (LeftColumnSize s) RightColumnSize
           FocusColor SelectColor SelectFocusColor vScroll hScroll
           (TopIndex s) (FocusIndex s) offsetLeftSign offsetColumn2 offsetRightSign
           TextLineLength (NumIndexes s) CommInit CommFocus CommSelect CommBoth CommReturn
           TempBuffer (stdout s)).

(** A loop whose body can fail. *)
Fixpoint times_opt {S : Type} (n : nat) (body : S -> option S) (s : S) : option S :=
  match n with
  | O => Some s
  | Datatypes.S k => s <- body s ;; times_opt k body s
  end.

(** One empty row of [create]. *)
Definition empty_row (s : t) : option t :=
  let col := mk_col (LeftColumnSize s) (to_int (wlen (NameContainer s)))
                    (to_int (wlen (NameContainer s))) false in
  let s := set_NameColumns s (NameColumns s ++ [col]) in
  let bf := bf s ++ CommInit s in
  bf <- append_n bf (LeftColumnSize s + RightColumnSize s + 2) 32 ;;
  Some (set_bf s (bf ++ CommReturn s)).

(** [create]. *)
Definition create (s : t) : option t :=
  let s := set_FocusIndex (set_TopIndex s 0) 0 in
  let NumLines := Coord.num_rows (Area s) - 1 in
  s <- times_opt (Z.to_nat (NumLines - NumIndexes s)) empty_row s ;;
  if NumIndexes s >? 0 then
    bf <- wreplace (bf s) 0 (wlen (CommFocus s)) (CommFocus s) ;;
    Some (set_bf s bf)
  else Some s.

(** [add_item(sv)].  With a negative [ColumnSizes] the count of padding
    spaces, a [size_t], is one no string can hold, and [append] throws
    [std::length_error]. *)
Definition add_item (sv : wstring) (s : t) : option t :=
  if wlen (CommReturn s) =? 0 then None else
  let ColumnSizes := LeftColumnSize s + RightColumnSize s in
  let s := set_NumIndexes s (NumIndexes s + 1) in
  let BeginOffset := to_int (wlen (NameContainer s)) in
  let bf := bf s ++ CommInit s in
  left <- substr sv 0 (LeftColumnSize s) ;;
  let bf := bf ++ left in
  let bf := bf ++ [32] in
  '(bf, NameContainer) <-
    (if (ColumnSizes <? 0) || (wlen sv <=? ColumnSizes) then
       right <- substr sv (LeftColumnSize s) (wlen sv - LeftColumnSize s) ;;
       let bf := bf ++ right in
       bf <- (if ColumnSizes <? 0 then None
              else if wlen sv <? ColumnSizes
                   then Some (bf ++ fill (ColumnSizes - wlen sv) 32) else Some bf) ;;
       Some (bf ++ [32], NameContainer s)
     else
       right <- substr sv (LeftColumnSize s) (RightColumnSize s) ;;
       rest <- substr sv (LeftColumnSize s) (wlen sv - LeftColumnSize s) ;;
       Some ((bf ++ right) ++ RRQUOTE, NameContainer s ++ rest)) ;;
  let bf := bf ++ CommReturn s in
  let col := mk_col (LeftColumnSize s) BeginOffset (to_int (wlen NameContainer)) false in
  Some (set_bf (set_NameContainer (set_NameColumns s (NameColumns s ++ [col]))
                                  NameContainer) bf).

(** Taking the focus mark off the focused row, and putting it on. *)
Definition unmark_focus (s : t) : option t :=
  bf <- (if Selected (column s (FocusIndex s))
         then wreplace (bf s) (FocusIndex s * TextLineLength s)
                       (wlen (CommSelect s)) (CommSelect s)
         else wreplace (bf s) (FocusIndex s * TextLineLength s)
                       (wlen (CommInit s)) (CommInit s)) ;;
  Some (set_bf s bf).

Definition mark_focus (s : t) : option t :=
  bf <- (if Selected (column s (FocusIndex s))
         then wreplace (bf s) (FocusIndex s * TextLineLength s)
                       (wlen (CommBoth s)) (CommBoth s)
         else wreplace (bf s) (FocusIndex s * TextLineLength s)
                       (wlen (CommFocus s)) (CommFocus s)) ;;
  Some (set_bf s bf).

(** [mz::Write(TempBuffer)] and [mz::Write(view(bf).substr(pos, n))]. *)
Definition write_temp (s : t) : t := emit (TempBuffer s) s.

Definition write_rows (pos n : Z) (s : t) : option t :=
  w <- substr (bf s) pos n ;;
  Some (emit w s).

(** Drawing a scroll bar into [TempBuffer]; [None] when the bar's [draw]
    divides by zero. *)
Definition draw_v (First Num : Z) (s : t) : option t :=
  w <- WindowBox.v_draw (vScroll s) (TempBuffer s) First Num ;;
  Some (set_TempBuffer s w).

Definition draw_h (i : Z) (s : t) : option t :=
  w <- WindowBox.h_draw (hScroll s) (TempBuffer s)
                        (FirstIndex (column s i) - LeftColumnSize s) (size (column s i)) ;;
  Some (set_TempBuffer s w).

(** [Area.Top.offset(Rows, 0).apply(TempBuffer)]. *)
Definition place (Rows : Z) (s : t) : t :=
  set_TempBuffer s (Coord.apply (Coord.offset (Coord.Top (Area s)) Rows 0) (TempBuffer s)).

Definition nonzero (z : Z) : bool := negb (z =? 0).

(** [swap_select]: the new selection state of the focused item. *)
Definition swap_select (s : t) : option (bool * t) :=
  let s := select_column s (FocusIndex s) (negb (Selected (column s (FocusIndex s)))) in
  bf <- (if Selected (column s (FocusIndex s))
         then wreplace (bf s) (TextLineLength s * FocusIndex s)
                       (wlen (CommBoth s)) (CommBoth s)
         else wreplace (bf s) (TextLineLength s * FocusIndex s)
                       (wlen (CommFocus s)) (CommFocus s)) ;;
  let s := set_bf s bf in
  let s := set_TempBuffer s [] in
  let s := place (FocusIndex s - TopIndex s) s in
  let s := write_temp s in
  s <- write_rows (TextLineLength s * FocusIndex s) (TextLineLength s) s ;;
  Some (Selected (column s (FocusIndex s)), s).

(** [page_up]: the value returned and the state left. *)
Definition page_up (s : t) : option (Z * t) :=
  if NumIndexes s =? 0 then Some (-1, s) else
  let NumPrintIndex := Z.min (Coord.num_rows (Area s) - 1) (NumIndexes s) in
  if FocusIndex s >? TopIndex s then
    let s := set_TempBuffer s [] in
    s <- (if nonzero (size (column s (FocusIndex s)))
             || nonzero (size (column s (TopIndex s)))
          then draw_h (TopIndex s) s else Some s) ;;
    s <- unmark_focus s ;;
    let s := place (FocusIndex s - TopIndex s) s in
    let s := write_temp s in
    s <- write_rows (TextLineLength s * FocusIndex s) (TextLineLength s) s ;;
    let s := set_FocusIndex s (TopIndex s) in
    s <- mark_focus s ;;
    let s := set_TempBuffer s [] in
    let s := set_TempBuffer s (Coord.apply (Coord.Top (Area s)) (TempBuffer s)) in
    let s := write_temp s in
    s <- write_rows (TextLineLength s * FocusIndex s) (TextLineLength s) s ;;
    Some (FocusIndex s, s)
  else if TopIndex s >? 0 then
    s <- unmark_focus s ;;
    let s := set_TopIndex s (TopIndex s - (Coord.num_rows (Area s) - 1)) in
    let s := set_TopIndex s (Z.max 0 (TopIndex s)) in
    let s := set_FocusIndex s (TopIndex s) in
    s <- mark_focus s ;;
    let s := set_TempBuffer s [] in
    s <- draw_v (TopIndex s) (NumIndexes s) s ;;
    s <- draw_h (FocusIndex s) s ;;
    let s := set_TempBuffer s (Coord.apply (Coord.Top (Area s)) (TempBuffer s)) in
    let s := write_temp s in
    s <- write_rows (TextLineLength s * TopIndex s) (TextLineLength s * NumPrintIndex) s ;;
    Some (FocusIndex s, s)
  else Some (FocusIndex s, s).

(** [page_down]. *)
Definition page_down (s : t) : option (Z * t) :=
  if NumIndexes s =? 0 then Some (-1, s) else
  let NumPrintIndex := Z.min (Coord.num_rows (Area s) - 1) (NumIndexes s) in
  let BottomIndex := TopIndex s + Coord.num_rows (Area s) - 2 in
  let BottomIndex := Z.min BottomIndex (NumIndexes s - 1) in
  if FocusIndex s <? BottomIndex then
    let s := set_TempBuffer s [] in
    s <- (if nonzero (size (column s (FocusIndex s)))
             || nonzero (size (column s BottomIndex))
          then draw_h BottomIndex s else Some s) ;;
    s <- unmark_focus s ;;
    let s := place (FocusIndex s - TopIndex s) s in
    let s := write_temp s in
    s <- write_rows (TextLineLength s * FocusIndex s) (TextLineLength s) s ;;
    let s := set_FocusIndex s BottomIndex in
    s <- mark_focus s ;;
    let s := set_TempBuffer s [] in
    let s := place (BottomIndex - TopIndex s) s in
    let s := write_temp s in
    s <- write_rows (TextLineLength s * FocusIndex s) (TextLineLength s) s ;;
    Some (FocusIndex s, s)
  else if BottomIndex <? NumIndexes s - 1 then
    s <- unmark_focus s ;;
    let BottomIndex := BottomIndex + (Coord.num_rows (Area s) - 2) in
    let BottomIndex := Z.min BottomIndex (NumIndexes s - 1) in
    let s := set_FocusIndex s BottomIndex in
    s <- mark_focus s ;;
    let s := set_TopIndex s (BottomIndex - (Coord.num_rows (Area s) - 2)) in
    let s := set_TopIndex s (Z.max 0 (TopIndex s)) in
    let NumPrintIndex := BottomIndex - TopIndex s + 1 in
    let s := set_TempBuffer s [] in
    s <- draw_v (TopIndex s) (NumIndexes s) s ;;
    s <- draw_h (FocusIndex s) s ;;
    let s := set_TempBuffer s (Coord.apply (Coord.Top (Area s)) (TempBuffer s)) in
    let s := write_temp s in
    s <- write_rows (TextLineLength s * TopIndex s) (TextLineLength s * NumPrintIndex) s ;;
    Some (FocusIndex s, s)
  else Some (FocusIndex s, s).

(** [move_up]. *)
Definition move_up (s : t) : option (Z * t) :=
  if NumIndexes s =? 0 then Some (-1, s) else
  let NumPrintIndex := 2 in
  if FocusIndex s >? 0 then
    s <- unmark_focus s ;;
    let s := set_FocusIndex s (FocusIndex s - 1) in
    s <- mark_focus s ;;
    let s := set_TempBuffer s [] in
    ' (s, NumPrintIndex) <-
      (if TopIndex s >? FocusIndex s then
         let s := set_TopIndex s (FocusIndex s) in
         s <- draw_v (TopIndex s) (NumIndexes s) s ;;
         Some (s, Coord.num_rows (Area s) - 1)
       else Some (s, NumPrintIndex)) ;;
    s <- (if nonzero (size (column s (FocusIndex s + 1)))
             || nonzero (size (column s (FocusIndex s)))
          then draw_h (FocusIndex s) s else Some s) ;;
    let s := place (FocusIndex s - TopIndex s) s in
    let s := write_temp s in
    s <- write_rows (TextLineLength s * FocusIndex s) (TextLineLength s * NumPrintIndex) s ;;
    Some (FocusIndex s, s)
  else Some (FocusIndex s, s).

(** [move_down]. *)
Definition move_down (s : t) : option (Z * t) :=
  let NumPrintIndex := 2 in
  let TopPrintIndex := FocusIndex s in
  if FocusIndex s + 1 <? NumIndexes s then
    s <- unmark_focus s ;;
    let s := set_FocusIndex s (FocusIndex s + 1) in
    s <- mark_focus s ;;
    let s := set_TempBuffer s [] in
    ' (s, TopPrintIndex, NumPrintIndex) <-
      (if FocusIndex s - TopIndex s >=? Coord.num_rows (Area s) - 1 then
         let s := set_TopIndex s (TopIndex s + 1) in
         s' <- draw_v (TopIndex s) (NumIndexes s) s ;;
         Some (s', TopIndex s, Coord.num_rows (Area s) - 1)
       else Some (s, TopPrintIndex, NumPrintIndex)) ;;
    s <- (if nonzero (size (column s (FocusIndex s - 1)))
             || nonzero (size (column s (FocusIndex s)))
          then draw_h (FocusIndex s) s else Some s) ;;
    let s := place (TopPrintIndex - TopIndex s) s in
    let s := write_temp s in
    s <- write_rows (TextLineLength s * TopPrintIndex)
                    (TextLineLength s * NumPrintIndex) s ;;
    Some (FocusIndex s, s)
  else Some (FocusIndex s, s).

(** The four navigation operations under one name. *)
Inductive nav : Type := KeyUp | KeyDown | KeyPageUp | KeyPageDown.

Definition navigate (op : nav) (s : t) : option (Z * t) :=
  match op with
  | KeyUp => move_up s
  | KeyDown => move_down s
  | KeyPageUp => page_up s
  | KeyPageDown => page_down s
  end.

(** The number of rows that show items. *)
Definition visible_count (s : t) : Z := Coord.num_rows (Area s) - 1.

(** The viewport invariant: the focus is an item, and it is inside the
    window that starts at the top index. *)
Definition viewport_invariant (s : t) : Prop :=
  0 <= TopIndex s
  /\ TopIndex s <= FocusIndex s
  /\ FocusIndex s < NumIndexes s
  /\ FocusIndex s - TopIndex s < visible_count s.

(** The buffer holds a row of [TextLineLength] characters for every item,
    and the four markers have one length that fits in a row. *)
Definition buffer_ok (s : t) : Prop :=
  wlen (CommFocus s) = wlen (CommInit s)
  /\ wlen (CommSelect s) = wlen (CommInit s)
  /\ wlen (CommBoth s) = wlen (CommInit s)
  /\ wlen (CommInit s) <= TextLineLength s
  /\ TextLineLength s * NumIndexes s <= wlen (bf s).

(** The character at offset [k] of a buffer, if there is one. *)
Definition wat (w : wstring) (k : Z) : option wchar :=
  if k <? 0 then None else nth_error w (Z.to_nat k).

(** A list box with no items yet, of the given size, its top at the
    origin, and the list of [n] items it becomes after [initialize], [n]
    calls of [add_item] and [create]. *)
Definition empty_list (NumRows NumCols : Z) : t :=
  mk [] (Coord.set_size (Coord.mk_box (Coord.coord_of 0 0) (Coord.coord_of 0 0))
                        NumRows NumCols)
     Colors.default_color [] [] 14 0
     Colors.default_color Colors.default_color Colors.default_color
     (WindowBox.mk_bar 0 0 0 Colors.BLACK (Coord.coord_of 0 0) Colors.default_color)
     (WindowBox.mk_bar 0 0 0 Colors.BLACK (Coord.coord_of 0 0) Colors.default_color)
     0 0 0 0 0 0 0 [] [] [] [] [] [] [].

Definition item_name (i : nat) : wstring :=
  wlit "Line12345678  item " ++ fmt_d (Z.of_nat i).

Fixpoint add_items (n i : nat) (s : t) : option t :=
  match n with
  | O => Some s
  | Datatypes.S k => s <- add_item (item_name i) s ;; add_items k (Datatypes.S i) s
  end.

Definition list_of (n : nat) (NumRows NumCols : Z) : option t :=
  s <- initialize (empty_list NumRows NumCols) ;;
  s <- add_items n 0 s ;;
  create s.

(** A list in a box of 11 rows and 17 columns, as wide as the left
    column and three columns more (the right column has no width and the
    horizontal bar the length -1), with thirty names of 14 characters,
    none of which has hidden text. *)
Definition narrow_list : option t :=
  s <- initialize (empty_list 11 17) ;;
  s <- times_opt 30 (add_item (wlit "Line12345678  ")) s ;;
  create s.

(** The operations in a row, each on the state the one before left. *)
Fixpoint navigate_all (ops : list nav) (s : t) : option t :=
  match ops with
  | [] => Some s
  | op :: rest => '(_, s) <- navigate op s ;; navigate_all rest s
  end.

(** [get_focused_item]: the part of [NameContainer] the focused item
    owns; [substr] throws inside the [noexcept] function when the offset
    is outside the container. *)
Definition get_focused_item (s : t) : option wstring :=
  if (FocusIndex s >=? 0) && (FocusIndex s <? NumIndexes s) then
    let item := column s (FocusIndex s) in
    if BeginOffset item <? EndOffset item then
      substr (NameContainer s) (BeginOffset item) (EndOffset item - BeginOffset item)
    else Some []
  else Some [].

(** [get_focused_index]. *)
Definition get_focused_index (s : t) : Z :=
  if NumIndexes s >? 0 then FocusIndex s else -1.

(** [get_selection_count] and [get_selected_indices]; the count cannot
    pass [NumIndexes], an [int]. *)
Definition get_selection_count (s : t) : Z :=
  for_up (Z.to_nat (NumIndexes s)) 0
         (fun i count => if Selected (column s i) then count + 1 else count) 0.

Definition get_selected_indices (s : t) : list Z :=
  for_up (Z.to_nat (NumIndexes s)) 0
         (fun i selected => if Selected (column s i) then selected ++ [i] else selected) [].

(** [clear_items]. *)
Definition clear_items (s : t) : option t :=
  let s := set_NameContainer s [] in
  let s := set_NameColumns s [] in
  let s := set_NumIndexes s 0 in
  let s := set_TopIndex s 0 in
  let s := set_FocusIndex s 0 in
  let s := set_bf s [] in
  s <- initialize s ;;
  create s.

(** Calls of [add_item] one after the other. *)
Fixpoint add_all (names : list wstring) (s : t) : option t :=
  match names with
  | [] => Some s
  | sv :: rest => s <- add_item sv s ;; add_all rest s
  end.

(** What [initialize] leaves for [add_item] and [create] to rely on: the
    column sizes are not negative, the return sequence is not empty, the
    four markers have one length, and a row is as long as the template
    line. *)
Definition layout_ok (s : t) : Prop :=
  0 <= LeftColumnSize s /\ 0 <= RightColumnSize s
  /\ 0 < wlen (CommReturn s)
  /\ wlen (CommFocus s) = wlen (CommInit s)
  /\ wlen (CommSelect s) = wlen (CommInit s)
  /\ wlen (CommBoth s) = wlen (CommInit s)
  /\ TextLineLength s
     = wlen (CommInit s) + LeftColumnSize s + RightColumnSize s + 2 + wlen (CommReturn s).

(** The state is the one [s] had but for the buffer, the items and the
    focus. *)
Definition same_layout (s s' : t) : Prop :=
  Area s' = Area s /\ LeftColumnSize s' = LeftColumnSize s
  /\ RightColumnSize s' = RightColumnSize s /\ TextLineLength s' = TextLineLength s
  /\ CommInit s' = CommInit s /\ CommFocus s' = CommFocus s
  /\ CommSelect s' = CommSelect s /\ CommBoth s' = CommBoth s
  /\ CommReturn s' = CommReturn s.

End DirectoryDisplayBox.

(* ================================================================== *)
(** * Properties *)

(* ------------------------------------------------------------------ *)
(** ** Conversions and strings *)

Ltac if_cases :=
  repeat match goal with
         | |- context [if ?c then _ else _] => destruct c eqn:?
         end.


Ltac bool_cases :=
  repeat match goal with
         | H : (_ =? _) = true |- _ => apply Z.eqb_eq in H
         | H : (_ =? _) = false |- _ => apply Z.eqb_neq in H
         | H : (_ <? _) = true |- _ => apply Z.ltb_lt in H
         | H : (_ <? _) = false |- _ => apply Z.ltb_ge in H
         | H : (_ <=? _) = true |- _ => apply Z.leb_le in H
         | H : (_ <=? _) = false |- _ => apply Z.leb_gt in H
         | H : (_ >? _) = true |- _ => apply Z.gtb_lt in H
         | H : (_ >? _) = false |- _ => rewrite Z.gtb_ltb in H; apply Z.ltb_ge in H
         | H : (_ >=? _) = true |- _ => rewrite Z.geb_leb in H; apply Z.leb_le in H
         | H : (_ >=? _) = false |- _ => rewrite Z.geb_leb in H; apply Z.leb_gt in H
         | H : (_ && _) = true |- _ => apply andb_true_iff in H; destruct H
         | H : (_ || _) = false |- _ => apply orb_false_iff in H; destruct H
         end.


Lemma to_uint8_id z : uint8_range z -> to_uint8 z = z.
Proof. unfold uint8_range, to_uint8; intros; apply Z.mod_small; lia. Qed.

Lemma to_uint8_range z : uint8_range (to_uint8 z).
Proof. unfold uint8_range, to_uint8; apply Z.mod_pos_bound; lia. Qed.

Lemma to_short_id z : short_range z -> to_short z = z.
Proof.
  unfold short_range, to_short; intros.
  rewrite Z.mod_small by lia. lia.
Qed.

Lemma to_int_id z : int_range z -> to_int z = z.
Proof.
  unfold int_range, to_int; intros.
  rewrite Z.mod_small by lia. lia.
Qed.

Lemma to_unsigned_id z : 0 <= z < 4294967296 -> to_unsigned z = z.
Proof. unfold to_unsigned; intros; apply Z.mod_small; lia. Qed.

Lemma wlen_app (a b : wstring) : wlen (a ++ b) = wlen a + wlen b.
Proof. unfold wlen. rewrite length_app. lia. Qed.

Lemma wlen_nonneg (a : wstring) : 0 <= wlen a.
Proof. unfold wlen. lia. Qed.

Lemma wlen_fill (n : Z) (c : wchar) : 0 <= n -> wlen (fill n c) = n.
Proof. intros. unfold wlen, fill. rewrite repeat_length. lia. Qed.

(* ------------------------------------------------------------------ *)
(** ** colors.h *)

Section ColorFacts.
Import Colors.

Lemma avg_small (l r : Z) :
  uint8_range l -> uint8_range r -> avg l r = Z.quot (l + r) 2 /\ uint8_range (avg l r).
Proof.
  unfold uint8_range, avg. intros Hl Hr.
  rewrite to_unsigned_id by lia.
  rewrite Z.quot_div_nonneg by lia.
  split; [reflexivity|].
  split; [apply Z.div_pos; lia | apply Z.div_lt_upper_bound; lia].
Qed.

Lemma avg_comm (l r : Z) : avg l r = avg r l.
Proof. unfold avg. now rewrite Z.add_comm. Qed.

Lemma avg_same (l : Z) : uint8_range l -> avg l l = l.
Proof.
  unfold uint8_range, avg. intros Hl.
  rewrite to_unsigned_id by lia.
  replace (l + l) with (l * 2) by lia. apply Z.div_mul. lia.
Qed.

(** C10. For all colors [L] and [R] (three bytes each), every component of
    [L + R] is the truncated average of the two components; [+] is
    commutative and idempotent; and it is neither the saturating nor the
    modular component-wise sum: gray 200 plus gray 100 is gray 150, where
    those give 255 and 44. *)
Theorem rgb_add_is_componentwise_average :
  (forall L R : rgb, wf_rgb L -> wf_rgb R ->
     r (rgb_add L R) = Z.quot (r L + r R) 2
     /\ g (rgb_add L R) = Z.quot (g L + g R) 2
     /\ b (rgb_add L R) = Z.quot (b L + b R) 2
     /\ rgb_add L R = rgb_add R L
     /\ rgb_add L L = L)
  /\ rgb_add (rgb3 200 200 200) (rgb3 100 100 100) = rgb3 150 150 150
  /\ rgb_add (rgb3 200 200 200) (rgb3 100 100 100)
     <> saturating_add (rgb3 200 200 200) (rgb3 100 100 100)
  /\ rgb_add (rgb3 200 200 200) (rgb3 100 100 100)
     <> modular_add (rgb3 200 200 200) (rgb3 100 100 100).
Proof.
  split.
  - intros [lr lg lb] [rr rg rb] (Hlr & Hlg & Hlb) (Hrr & Hrg & Hrb).
    cbn [r g b] in *. unfold rgb_add, rgb3. cbn [r g b].
    destruct (avg_small lr rr Hlr Hrr) as [Er Rr].
    destruct (avg_small lg rg Hlg Hrg) as [Eg Rg].
    destruct (avg_small lb rb Hlb Hrb) as [Eb Rb].
    repeat split.
    + now rewrite to_uint8_id.
    + now rewrite to_uint8_id.
    + now rewrite to_uint8_id.
    + now rewrite (avg_comm lr rr), (avg_comm lg rg), (avg_comm lb rb).
    + rewrite !avg_same by assumption.
      now rewrite !to_uint8_id by assumption.
  - repeat split; try reflexivity; vm_compute; discriminate.
Qed.

Lemma rgb_add_is_componentwise_average_witness :
  wf_rgb (rgb3 200 200 200) /\ wf_rgb (rgb3 100 100 100)
  /\ r (rgb_add (rgb3 200 200 200) (rgb3 100 100 100)) = Z.quot (200 + 100) 2.
Proof.
  assert (H1 : wf_rgb (rgb3 200 200 200)) by (vm_compute; intuition discriminate).
  assert (H2 : wf_rgb (rgb3 100 100 100)) by (vm_compute; intuition discriminate).
  split; [exact H1 | split; [exact H2 |]].
  exact (proj1 (proj1 rgb_add_is_componentwise_average _ _ H1 H2)).
Defined.

End ColorFacts.

(* ------------------------------------------------------------------ *)
(** ** coord.h *)

Section CoordFacts.
Import Coord.

Lemma intersect_self (bx : coord_box) : intersect bx bx = bx.
Proof.
  destruct bx as [[tr tc] [br bc]]. unfold intersect. cbn [Top Bottom Row Col].
  repeat match goal with |- context [if ?c then _ else _] => destruct c end;
    reflexivity.
Qed.

Lemma normalize_default_fixes (bx : coord_box) :
  wf_box bx -> (normalize_default bx = bx <-> normalized bx).
Proof.
  destruct bx as [[tr tc] [br bc]].
  unfold wf_box, wf_coord, normalized, normalize_default, normalize, coord_normalize,
    short_range.
  cbn [Top Bottom Row Col]. intros ((Htr & Htc) & (Hbr & Hbc)).
  change (1 >? 0) with true. cbv iota.
  assert (Er : to_short ((if tr >? 0 then tr else 0) + 1 - 1) = if tr >? 0 then tr else 0).
  { rewrite to_short_id; [lia | unfold short_range; destruct (tr >? 0); lia]. }
  assert (Ec : to_short ((if tc >? 0 then tc else 0) + 1 - 1) = if tc >? 0 then tc else 0).
  { rewrite to_short_id; [lia | unfold short_range; destruct (tc >? 0); lia]. }
  rewrite Er, Ec. clear Er Ec.
  split.
  - intros H. injection H as H1 H2 H3 H4.
    destruct (tr >? 0) eqn:E1; destruct (tc >? 0) eqn:E2;
      destruct (br >? 0) eqn:E3; destruct (bc >? 0) eqn:E4;
      repeat match type of H3 with context [if ?c then _ else _] => destruct c eqn:? end;
      repeat match type of H4 with context [if ?c then _ else _] => destruct c eqn:? end;
      lia.
  - intros (H1 & H2 & H3 & H4).
    destruct (tr >? 0) eqn:E1; destruct (tc >? 0) eqn:E2;
      destruct (br >? 0) eqn:E3; destruct (bc >? 0) eqn:E4;
      repeat match goal with |- context [if ?c then _ else _] => destruct c eqn:? end;
      f_equal; f_equal; lia.
Qed.

(** C4, as the code has it. For every rectangle [R] of shorts,
    [R.intersect(R)] is [R] itself, and it equals [R.normalize()] exactly
    when [R] is already normalized (top not negative, bottom not before
    top); for every [A] and [B] with [A.disjoint(B)], [A.intersect(B)] has
    [num_cols <= 0] or [num_rows <= 0]. *)
Theorem intersect_self_and_disjoint :
  (forall R : coord_box, wf_box R ->
     intersect R R = R
     /\ (intersect R R = normalize_default R <-> normalized R))
  /\ (forall A B : coord_box, disjoint A B = true ->
        num_cols (intersect A B) <= 0 \/ num_rows (intersect A B) <= 0).
Proof.
  split.
  - intros R HR. split; [apply intersect_self|].
    rewrite intersect_self. rewrite <- (normalize_default_fixes R HR).
    split; intros H; symmetry; exact H.
  - intros [[atr atc] [abr abc]] [[btr btc] [bbr bbc]].
    unfold disjoint, intersect, num_cols, num_rows. cbn [Top Bottom Row Col].
    intros H.
    repeat match goal with |- context [if ?c then _ else _] => destruct c eqn:? end;
      apply orb_true_iff in H; destruct H as [H|H];
      try (apply orb_true_iff in H; destruct H as [H|H]);
      try (apply orb_true_iff in H; destruct H as [H|H]);
      lia.
Qed.

Lemma intersect_self_and_disjoint_witness :
  let R := mk_box (mk_coord 0 0) (mk_coord 9 19) in
  let A := mk_box (mk_coord 0 0) (mk_coord 4 4) in
  let B := mk_box (mk_coord 0 5) (mk_coord 4 9) in
  (intersect R R = R /\ (intersect R R = normalize_default R <-> normalized R))
  /\ (num_cols (intersect A B) <= 0 \/ num_rows (intersect A B) <= 0).
Proof.
  split.
  - apply (proj1 intersect_self_and_disjoint).
    unfold wf_box, wf_coord, short_range. cbn. lia.
  - apply (proj2 intersect_self_and_disjoint). reflexivity.
Defined.

(** C4, as the claim has it, fails: a rectangle whose top is at (-1,-1)
    intersects itself in itself, while [normalize] moves its top to (0,0). *)
Lemma intersect_self_is_not_normalize :
  intersect (mk_box (mk_coord (-1) (-1)) (mk_coord 2 2))
            (mk_box (mk_coord (-1) (-1)) (mk_coord 2 2))
  <> normalize_default (mk_box (mk_coord (-1) (-1)) (mk_coord 2 2)).
Proof. vm_compute. discriminate. Qed.

End CoordFacts.

(* ------------------------------------------------------------------ *)
(** ** cursor.h *)

Section CursorFacts.
Import Cursor.

Lemma same_attributes_state_value (d1 d2 : cursor_data) :
  same_attributes d1 d2 -> state_value d1 = state_value d2.
Proof.
  unfold same_attributes, state_value.
  intros (-> & -> & -> & -> & -> & ->). reflexivity.
Qed.

Lemma rgb_value_set (d : cursor_data) (c : Colors.rgb) :
  rgb_value (set d c) = Colors.value c.
Proof. reflexivity. Qed.

Lemma same_bytes_rgb_value (d1 d2 : cursor_data) :
  same_bytes d1 d2 -> rgb_value d1 = rgb_value d2.
Proof. unfold same_bytes, rgb_value. intros (-> & -> & ->). reflexivity. Qed.

(** The six attribute steps leave the color bytes of [F] and all of [B]
    alone, and leave every attribute equal to the target's. *)
Ltac step_case :=
  match goal with
  | |- context [Z.eqb ?a ?b] => destruct (Z.eqb_spec a b)
  | |- context [Bool.eqb ?a ?b] => destruct (Bool.eqb_spec a b)
  end.

Lemma steps_converge (Rhs : cursor) (st : cstate) :
  let st' := step_UNDER Rhs (step_BOLD Rhs (step_NEG Rhs (step_BLINK Rhs
               (step_SHOW Rhs (step_SHAPE Rhs st))))) in
  same_attributes (F (fst st')) (F Rhs)
  /\ same_bytes (F (fst st')) (F (fst st))
  /\ B (fst st') = B (fst st).
Proof.
  destruct st as [[[fr fg fb fshape fblink funder fshow fbold fneg] bd] Buff].
  destruct Rhs as [[xr xg xb xshape xblink xunder xshow xbold xneg] xbd].
  unfold step_UNDER, step_BOLD, step_NEG, step_BLINK, step_SHOW, step_SHAPE,
    same_attributes, same_bytes.
  cbn -[Z.eqb Bool.eqb].
  step_case; cbn -[Z.eqb Bool.eqb];
    (step_case; cbn -[Z.eqb Bool.eqb];
     (step_case; cbn -[Z.eqb Bool.eqb];
      (step_case; cbn -[Z.eqb Bool.eqb];
       (step_case; cbn -[Z.eqb Bool.eqb];
        (step_case; cbn -[Z.eqb Bool.eqb]; subst; repeat split; reflexivity))))).
Qed.

Lemma update_back_rgb_spec (st : cstate) (c : Colors.rgb) :
  B (fst (update_back_rgb st c)) = set (B (fst st)) c
  /\ F (fst (update_back_rgb st c)) = F (fst st)
  /\ (rgb_value (B (fst st)) = Colors.value c -> snd (update_back_rgb st c) = snd st).
Proof.
  destruct st as [cur Buff]. unfold update_back_rgb, update. cbn [fst snd].
  destruct (Z.eqb_spec (rgb_value (B cur)) (Colors.value c)); cbn [negb fst snd];
    repeat split; try reflexivity; intros; congruence.
Qed.

Lemma update_front_rgb_spec (st : cstate) (c : Colors.rgb) :
  F (fst (update_front_rgb st c)) = set (F (fst st)) c
  /\ B (fst (update_front_rgb st c)) = B (fst st)
  /\ (rgb_value (F (fst st)) = Colors.value c -> snd (update_front_rgb st c) = snd st).
Proof.
  destruct st as [cur Buff]. unfold update_front_rgb, update. cbn [fst snd].
  destruct (Z.eqb_spec (rgb_value (F cur)) (Colors.value c)); cbn [negb fst snd];
    repeat split; try reflexivity; intros; congruence.
Qed.

Lemma same_attributes_set (d : cursor_data) (c : Colors.rgb) :
  same_attributes (set d c) d.
Proof. unfold same_attributes. cbn. repeat split. Qed.

(** After [update_to] the tracked state has the target's colors and
    attributes. *)
Lemma update_to_converges (st : cstate) (Rhs : cursor) :
  rgb_value (B (fst (update_to st Rhs))) = Colors.value (rgb (B Rhs))
  /\ rgb_value (F (fst (update_to st Rhs))) = Colors.value (rgb (F Rhs))
  /\ state_value (F (fst (update_to st Rhs))) = state_value (F Rhs).
Proof.
  unfold update_to.
  set (st1 := update_back_rgb st (rgb (B Rhs))).
  set (st2 := update_front_rgb st1 (rgb (F Rhs))).
  destruct (update_back_rgb_spec st (rgb (B Rhs))) as (Hb1 & Hf1 & _).
  destruct (update_front_rgb_spec st1 (rgb (F Rhs))) as (Hf2 & Hb2 & _).
  fold st1 in Hb1, Hf1. fold st2 in Hf2, Hb2.
  assert (HB : rgb_value (B (fst st2)) = Colors.value (rgb (B Rhs))).
  { rewrite Hb2, Hb1. apply rgb_value_set. }
  assert (HF : rgb_value (F (fst st2)) = Colors.value (rgb (F Rhs))).
  { rewrite Hf2. apply rgb_value_set. }
  destruct (Z.eqb_spec (state_value (F (fst st2))) (state_value (F Rhs))) as [E|E];
    cbn [negb].
  - auto.
  - destruct (steps_converge Rhs st2) as (Ha & Hc & Hbd).
    cbv zeta in Ha, Hc, Hbd.
    rewrite Hbd. rewrite (same_bytes_rgb_value _ _ Hc).
    rewrite (same_attributes_state_value _ _ Ha). auto.
Qed.

(** A call of [update_to] on a state that already has the target's colors
    and attributes appends nothing. *)
Lemma update_to_converged_is_silent (st : cstate) (Rhs : cursor) :
  rgb_value (B (fst st)) = Colors.value (rgb (B Rhs)) ->
  rgb_value (F (fst st)) = Colors.value (rgb (F Rhs)) ->
  state_value (F (fst st)) = state_value (F Rhs) ->
  snd (update_to st Rhs) = snd st.
Proof.
  intros HB HF HS. unfold update_to.
  set (st1 := update_back_rgb st (rgb (B Rhs))).
  set (st2 := update_front_rgb st1 (rgb (F Rhs))).
  destruct (update_back_rgb_spec st (rgb (B Rhs))) as (Hb1 & Hf1 & Ho1).
  destruct (update_front_rgb_spec st1 (rgb (F Rhs))) as (Hf2 & Hb2 & Ho2).
  fold st1 in Hb1, Hf1, Ho1. fold st2 in Hf2, Hb2, Ho2.
  assert (E : state_value (F (fst st2)) = state_value (F Rhs)).
  { rewrite Hf2, Hf1, <- HS. apply same_attributes_state_value, same_attributes_set. }
  rewrite E, Z.eqb_refl. cbn [negb].
  rewrite Ho2, Ho1; auto. now rewrite Hf1.
Qed.

(** C5. For every cursor state [C], buffer and target [X]: after one
    [C.update_to(buffer, X)], a second [update_to(buffer, X)] leaves the
    buffer as the first call left it; it appends no character. *)
Theorem update_to_twice_appends_nothing :
  forall (C X : cursor) (buffer : wstring),
    snd (update_to (update_to (C, buffer) X) X) = snd (update_to (C, buffer) X).
Proof.
  intros C X buffer.
  destruct (update_to_converges (C, buffer) X) as (HB & HF & HS).
  now apply update_to_converged_is_silent.
Qed.

End CursorFacts.

(* ------------------------------------------------------------------ *)
(** ** WindowBox.h: the scroll bars *)

Section ScrollBarFacts.
Import WindowBox ConsoleCMD.

Lemma buf_h_cell (p : pen) : buf (h_cell p) = buf p ++ FSQUARE.
Proof. destruct p. reflexivity. Qed.

Lemma buf_v_cell (p : pen) : buf (v_cell p) = buf p ++ v_cell_text.
Proof.
  destruct p as [l s b]. unfold v_cell, with_loc, v_cell_text. cbn [Loc Seq buf].
  unfold Coord.move_left, Coord.move_down, Coord.push_back, MoveLeft, MoveDown.
  cbn [buf]. now rewrite <- !app_assoc.
Qed.

Lemma buf_times_cells (cell : pen -> pen) (text : wstring) (n : Z) (p : pen) :
  (forall q, buf (cell q) = buf q ++ text) ->
  buf (times n cell p) = buf p ++ List.concat (repeat text (Z.to_nat n)).
Proof.
  intros Hcell. unfold times.
  induction (Z.to_nat n) as [|k IH].
  - cbn. now rewrite app_nil_r.
  - rewrite Nat.iter_succ, Hcell, IH, <- app_assoc. f_equal.
    change (repeat text (Datatypes.S k)) with (text :: repeat text k).
    rewrite repeat_cons, concat_app. cbn [List.concat]. now rewrite app_nil_r.
Qed.

(** With [NumItems <= BarLength] the horizontal bar is one color, the left
    head, [BarLength] squares and the right head, whatever [FirstItem] and
    [NumItems] are. *)
Lemma h_draw_uniform (sb : BasicScrollBar) (bf : wstring) (FirstItem NumItems : Z) :
  NumItems <= BarLength sb ->
  h_draw sb bf FirstItem NumItems =
    Some (h_prologue sb bf
          ++ Colors.setFront (Colors.B (ScrollColors sb)) []
          ++ [LHEAD] ++ List.concat (repeat FSQUARE (Z.to_nat (BarLength sb))) ++ [RHEAD]
          ++ (if PostLength sb >? 0 then fill (PostLength sb) 32 else [])).
Proof.
  intros H. unfold h_draw, h_prologue.
  apply Z.leb_le in H. rewrite H. cbn [bind]. f_equal.
  destruct (PreLength sb >? 0); destruct (PostLength sb >? 0);
    unfold with_loc, with_buf; cbn [Loc Seq buf Coord.append_fill Coord.push_back];
    rewrite (buf_times_cells h_cell FSQUARE) by apply buf_h_cell;
    cbn [Loc Seq buf];
    unfold Colors.setFront, SetFrontColor;
    change (to_wchar LHEAD) with LHEAD; change (to_wchar RHEAD) with RHEAD;
    rewrite ?app_nil_r, <- ?app_assoc; reflexivity.
Qed.

Lemma buf_push_back_sym (L : wstring) (p : pen) :
  buf (with_loc (Coord.push_back_sym L) p) = buf p ++ L.
Proof. destruct p. reflexivity. Qed.

Lemma buf_move_left (p : pen) : buf (with_loc Coord.move_left p) = buf p ++ MoveLeft [].
Proof. destruct p. reflexivity. Qed.

Lemma buf_move_down (p : pen) : buf (with_loc Coord.move_down p) = buf p ++ MoveDown [].
Proof. destruct p. reflexivity. Qed.

Lemma buf_set_front_rgb (c : Colors.rgb) (p : pen) :
  buf (with_seq (fun st => Cursor.set_front_rgb st c) p) = buf p ++ Colors.setFront c [].
Proof. destruct p. reflexivity. Qed.

Lemma buf_set_back_rgb (c : Colors.rgb) (p : pen) :
  buf (with_seq (fun st => Cursor.set_back_rgb st c) p) = buf p ++ Colors.setBack c [].
Proof. destruct p. reflexivity. Qed.

Lemma buf_update_back_rgb (c : Colors.rgb) (p : pen) :
  buf (with_seq (fun st => Cursor.update_back_rgb st c) p) = buf p
  \/ buf (with_seq (fun st => Cursor.update_back_rgb st c) p) = buf p ++ Colors.setBack c [].
Proof.
  destruct p as [l s b]. unfold with_seq, Cursor.update_back_rgb, Cursor.update.
  cbn [Loc Seq buf].
  destruct (negb (Cursor.rgb_value (Cursor.B s) =? Colors.value c)); cbn [buf]; auto.
Qed.

(** With [NumItems < BarLength] the vertical bar is the up arrow in the
    inactive color, [BarLength - 2] cells on the inactive background and
    the down arrow. *)
Lemma v_draw_uniform (sb : BasicScrollBar) (bf : wstring) (FirstRow NumItems : Z) :
  NumItems < BarLength sb ->
  exists back : wstring,
    v_draw sb bf FirstRow NumItems =
      Some (v_prologue sb bf
            ++ Colors.setFront (Colors.B (ScrollColors sb)) []
            ++ TRIUP
            ++ Colors.setBack (Colors.B (ScrollColors sb)) []
            ++ List.concat (repeat v_cell_text (Z.to_nat (BarLength sb - 2)))
            ++ back ++ MoveDown (MoveLeft []) ++ TRIDOWN)
    /\ (back = [] \/ back = Colors.setBack (BackRGB sb) []).
Proof.
  intros H. unfold v_draw, v_prologue, v_draw_inactive.
  apply Z.ltb_lt in H. rewrite H. cbn [bind].
  rewrite buf_push_back_sym, buf_move_down, buf_move_left.
  match goal with
  | |- context [with_seq (fun st => Cursor.update_back_rgb st ?c) ?p] =>
      destruct (buf_update_back_rgb c p) as [E|E]; rewrite E; clear E
  end;
    [exists [] | exists (Colors.setBack (BackRGB sb) [])];
    (split; [|auto]); f_equal;
    rewrite (buf_times_cells v_cell v_cell_text) by apply buf_v_cell;
    rewrite buf_set_back_rgb, buf_push_back_sym, buf_set_front_rgb;
    unfold with_buf; cbn [Loc Seq buf];
    unfold MoveDown, MoveLeft; rewrite ?app_nil_r, <- ?app_assoc; reflexivity.
Qed.

Ltac thumb_cases :=
  repeat match goal with
         | |- context [if ?c then _ else _] => destruct c eqn:?; cbn [fst snd andb]
         end.

(** At the first item the thumb starts at 0, for both bars, whenever
    there is a thumb: [NumItems] is not 0. *)
Lemma h_thumb_starts_at_zero (BarLength NumItems : Z) :
  NumItems > BarLength -> NumItems <> 0 ->
  exists thumbEnd, h_thumb BarLength 0 NumItems = Some (0, thumbEnd).
Proof.
  intros H H0. unfold h_thumb. rewrite Z.add_0_l.
  replace (NumItems =? 0) with false by (symmetry; apply Z.eqb_neq; exact H0).
  generalize (Z.quot (BarLength * BarLength) NumItems). intros X.
  change (0 >? 0) with false.
  thumb_cases; bool_cases; try lia; eexists; f_equal; f_equal; lia.
Qed.

Lemma v_thumb_starts_at_zero (BarLength NumItems : Z) :
  NumItems <> 0 ->
  exists thumbEnd, v_thumb BarLength 0 NumItems = Some (0, thumbEnd).
Proof.
  intros H0. unfold v_thumb. rewrite Z.add_0_l.
  replace (NumItems =? 0) with false by (symmetry; apply Z.eqb_neq; exact H0).
  generalize (Z.quot (BarLength * (BarLength - 2)) NumItems). intros X.
  change (0 >? 0) with false.
  thumb_cases; bool_cases; try lia; eexists; f_equal; f_equal; lia.
Qed.

(** Without items and with a bar length below 0 (at most 0 for the
    vertical bar) the thumb branch is taken and divides by zero. *)
Lemma draw_without_items_divides_by_zero (sb : BasicScrollBar) (bf : wstring) (First : Z) :
  (BarLength sb < 0 -> h_draw sb bf First 0 = None)
  /\ (BarLength sb <= 0 -> v_draw sb bf First 0 = None).
Proof.
  split; intros H.
  - unfold h_draw.
    replace (0 <=? BarLength sb) with false by (symmetry; apply Z.leb_gt; lia).
    reflexivity.
  - unfold v_draw.
    replace (0 <? BarLength sb) with false by (symmetry; apply Z.ltb_ge; lia).
    reflexivity.
Qed.

(** A [draw] returns whenever its thumb branch has items to divide by. *)
Lemma h_draw_runs (sb : BasicScrollBar) (bf : wstring) (FirstItem NumItems : Z) :
  0 <= BarLength sb \/ NumItems <> 0 ->
  exists w, h_draw sb bf FirstItem NumItems = Some w.
Proof.
  intros H. unfold h_draw.
  destruct (Z.leb_spec NumItems (BarLength sb)) as [Hle|Hgt]; cbn [bind]; [eauto|].
  assert (H0 : NumItems <> 0) by lia.
  unfold h_thumb.
  replace (NumItems =? 0) with false by (symmetry; apply Z.eqb_neq; exact H0).
  cbv zeta.
  repeat match goal with
         | |- context [bind (let (_, _) := ?x in _) _] => destruct x
         | |- context [bind (if ?c then _ else _) _] => destruct c
         end; cbn [bind]; eauto.
Qed.

Lemma v_thumb_some (BarLength FirstRow NumItems : Z) :
  NumItems <> 0 -> exists a b, v_thumb BarLength FirstRow NumItems = Some (a, b).
Proof.
  intros H0. unfold v_thumb.
  replace (NumItems =? 0) with false by (symmetry; apply Z.eqb_neq; exact H0).
  cbv zeta.
  repeat match goal with
         | |- context [let (_, _) := ?x in _] => destruct x
         | |- context [if ?c then _ else _] => destruct c
         end; eauto.
Qed.

Lemma v_draw_runs (sb : BasicScrollBar) (bf : wstring) (FirstRow NumItems : Z) :
  NumItems <> 0 -> exists w, v_draw sb bf FirstRow NumItems = Some w.
Proof.
  intros H0. unfold v_draw.
  destruct (NumItems <? BarLength sb); cbn [bind]; [eauto|].
  unfold v_draw_thumb.
  destruct (v_thumb_some (BarLength sb) FirstRow NumItems H0) as (a & b & ->).
  cbn [bind]. destruct (b =? BarLength sb - 2); cbn [bind]; eauto.
Qed.

(** C6 fails for the vertical bar when the items exactly fill the view.
    A five-row bar of a list of five items (the list box's bar for five
    items in six rows, first drawn at row 0) takes the thumb branch: the
    thumb is cells 0 to 2, and all three track cells are drawn inverted in
    the active color, unlike the same bar for four items; the horizontal
    bar draws five items on five cells exactly as it draws four. *)
Theorem v_draw_full_view_draws_thumb :
  v_thumb 5 0 5 = Some (0, 3)
  /\ v_draw sample_bar [] 0 5 = Some (
       v_prologue sample_bar []
       ++ Cursor.apply (Cursor.set_front_rgb_mem Cursor.default_cursor
                          (Colors.B (ScrollColors sample_bar))) []
       ++ TRIUP
       ++ Colors.setFront (Colors.F (ScrollColors sample_bar)) []
       ++ Colors.setBack (Colors.B (ScrollColors sample_bar)) []
       ++ SetNegative [] ++ v_cell_text ++ v_cell_text ++ v_cell_text ++ ClrNegative []
       ++ Colors.setBack (BackRGB sample_bar) []
       ++ Colors.setFront (Colors.B (ScrollColors sample_bar)) []
       ++ MoveDown (MoveLeft []) ++ TRIDOWN)
  /\ v_draw sample_bar [] 0 4 = Some (
       v_prologue sample_bar []
       ++ Colors.setFront (Colors.B (ScrollColors sample_bar)) []
       ++ TRIUP
       ++ Colors.setBack (Colors.B (ScrollColors sample_bar)) []
       ++ v_cell_text ++ v_cell_text ++ v_cell_text
       ++ Colors.setBack (BackRGB sample_bar) []
       ++ MoveDown (MoveLeft []) ++ TRIDOWN)
  /\ v_draw sample_bar [] 0 5 <> v_draw sample_bar [] 0 4
  /\ exists w, h_draw sample_bar [] 0 5 = Some w /\ h_draw sample_bar [] 0 4 = Some w.
Proof.
  split; [vm_compute; reflexivity|].
  split; [vm_compute; reflexivity|].
  split; [vm_compute; reflexivity|].
  split; [vm_compute; discriminate|].
  eexists. split; vm_compute; reflexivity.
Qed.

End ScrollBarFacts.

(* ------------------------------------------------------------------ *)
(** ** InputControl.h *)

Section InputFacts.
Import InputControl ConsoleCMD.

Lemma wlen_wset_nat (T : wstring) (i : nat) (v : wchar) :
  List.length (wset_nat T i v) = List.length T.
Proof.
  revert i. induction T as [|h tl IH]; intros [|i]; cbn; auto.
Qed.

Lemma wlen_wset (T : wstring) (i : Z) (v : wchar) : wlen (wset T i v) = wlen T.
Proof.
  unfold wset, wlen. destruct (i <? 0); [reflexivity|]. now rewrite wlen_wset_nat.
Qed.

Lemma wlen_for_up (body : Z -> wstring -> wstring) (n : nat) (i : Z) (T : wstring) :
  (forall j U, wlen (body j U) = wlen U) -> wlen (for_up n i body T) = wlen T.
Proof.
  intros Hb. revert i T. induction n as [|n IH]; intros i T; cbn; [reflexivity|].
  now rewrite IH, Hb.
Qed.

Lemma wlen_for_down (body : Z -> wstring -> wstring) (n : nat) (i : Z) (T : wstring) :
  (forall j U, wlen (body j U) = wlen U) -> wlen (for_down n i body T) = wlen T.
Proof.
  intros Hb. revert i T. induction n as [|n IH]; intros i T; cbn; [reflexivity|].
  now rewrite IH, Hb.
Qed.

Lemma wlen_removelast (T : wstring) : 0 < wlen T -> wlen (removelast T) = wlen T - 1.
Proof.
  unfold wlen. intros H. destruct T as [|h tl]; [cbn in H; lia|].
  rewrite (app_removelast_last 0 (l := h :: tl)) at 2 by discriminate.
  rewrite length_app. cbn [List.length]. lia.
Qed.

Lemma wlen_erase_before (T : wstring) (p : Z) :
  0 < wlen T -> wlen (erase_before T p) = wlen T - 1.
Proof.
  intros H. unfold erase_before.
  rewrite wlen_removelast; rewrite wlen_for_up; auto; intros; apply wlen_wset.
Qed.

Lemma wlen_erase_at (T : wstring) (p : Z) :
  0 < wlen T -> wlen (erase_at T p) = wlen T - 1.
Proof.
  intros H. unfold erase_at.
  rewrite wlen_removelast; rewrite wlen_for_up; auto; intros; apply wlen_wset.
Qed.

Lemma wlen_insert_at (T : wstring) (p x : Z) : wlen (insert_at T p x) = wlen T + 1.
Proof.
  unfold insert_at. rewrite wlen_wset, wlen_for_down by (intros; apply wlen_wset).
  rewrite wlen_app. reflexivity.
Qed.

Lemma format_to_total (c : Colors.color) (d : wchar) (s : t) :
  printable s ->
  exists bf', format_to c d s = Some (set_bf s bf').
Proof.
  intros (Hc & Hi). unfold format_to.
  replace (Coord.num_cols (Area s) <? 0) with false by (symmetry; apply Z.ltb_ge; lia).
  destruct (negb (d =? 0)); cbn [bind]; [eauto|].
  unfold substr.
  replace (BeginIndex s <? 0) with false by (symmetry; apply Z.ltb_ge; lia).
  replace (wlen (Text s) <? BeginIndex s) with false by (symmetry; apply Z.ltb_ge; lia).
  cbn [orb bind]. eauto.
Qed.

Lemma print_and_display_cursor_total (s : t) :
  printable s ->
  exists s', print_and_display_cursor s = Some s'
             /\ Text s' = Text s /\ BeginIndex s' = BeginIndex s
             /\ BeginOffset s' = BeginOffset s /\ InsertOn s' = InsertOn s
             /\ MaxLength s' = MaxLength s /\ Area s' = Area s /\ wc s' = wc s.
Proof.
  intros H. unfold print_and_display_cursor, print.
  destruct (format_to_total (Color s) (wc s) s H) as (bf' & ->).
  cbn [bind]. eexists. split; [reflexivity|].
  unfold display_cursor.
  repeat match goal with |- context [if ?c then _ else _] => destruct c end;
    cbn; repeat split; reflexivity.
Qed.

Ltac printed :=
  match goal with
  | |- context [print_and_display_cursor ?X] =>
      let s1 := fresh "s" in
      let E := fresh "E" in
      let HT := fresh "HT" in
      destruct (print_and_display_cursor_total X) as (s1 & E & HT);
      [ unfold printable; cbn [Area Text BeginIndex BeginOffset set_Text set_BeginIndex
                                 set_BeginOffset set_bf set_InsertOn emit set_stdout
                                 write_shape write_bblock_shape write_bunder_shape]
      | rewrite E; cbn [bind] ]
  end.

(** Under the invariant no path of the key handling lets an exception
    escape: every state it prints is printable. *)
Lemma process_control_keys_total (x : Z) (s : t) :
  int_range (MaxLength s) -> text_edit_invariant s ->
  exists b s', process_control_keys x s = Some (b, s') /\ (b = false -> s' = s).
Proof.
  intros HM (H1 & H2 & H3 & H4).
  assert (EI : to_int (wlen (Text s)) = wlen (Text s)).
  { apply to_int_id. pose proof (wlen_nonneg (Text s)). unfold int_range in *. lia. }
  unfold process_control_keys. rewrite !EI.
  pose proof (wlen_nonneg (Text s)) as HL.
  repeat match goal with
         | |- context [if ?c then _ else _] => destruct c eqn:?
         end; bool_cases;
    try (eexists; eexists; split; [reflexivity | congruence]); try printed;
    try (eexists; eexists; split; [reflexivity | congruence]).
  all: cbn [Area Text BeginIndex BeginOffset MaxLength set_Text set_BeginIndex
              set_BeginOffset set_bf set_InsertOn emit set_stdout] in *.
  all: try rewrite wlen_erase_before by lia.
  all: try rewrite wlen_erase_at by lia.
  all: try lia.
  all: try (unfold box_length in *; repeat match goal with
         | H : context [if ?c then _ else _] |- _ => destruct c eqn:?
         | |- context [if ?c then _ else _] => destruct c eqn:?
         end; bool_cases; try lia).
Qed.

Lemma insert_character_total (x : Z) (s : t) :
  int_range (MaxLength s) -> text_edit_invariant s ->
  exists b s', insert_character x s = Some (b, s').
Proof.
  intros HM (H1 & H2 & H3 & H4).
  assert (EI : to_int (wlen (Text s)) = wlen (Text s)).
  { apply to_int_id. pose proof (wlen_nonneg (Text s)). unfold int_range in *. lia. }
  unfold insert_character. rewrite !EI.
  pose proof (wlen_nonneg (Text s)) as HL.
  assert (HB : 0 <= box_length s).
  { unfold box_length. destruct (Coord.num_cols (Area s) <=? MaxLength s); lia. }
  destruct (negb (IsDisplayCharacter x)); [eauto|].
  destruct ((MaxLength s <? 0) || (wlen (Text s) <? MaxLength s)) eqn:Hroom.
  - destruct (BeginIndex s + BeginOffset s =? wlen (Text s)) eqn:Hend; bool_cases.
    + cbn [BeginOffset set_Text].
      destruct (BeginOffset s <? box_length s) eqn:Hin; [eauto|].
      printed; [|eauto].
      rewrite wlen_app. change (wlen [to_wchar x]) with 1. lia.
    + destruct (InsertOn s) eqn:Hmode;
        cbn [BeginOffset BeginIndex set_Text set_BeginOffset set_BeginIndex];
        destruct (BeginOffset s + 1 >=? box_length s) eqn:Hedge; bool_cases;
        change (1 >? 0) with true; cbv iota;
        printed; try (eexists; eexists; reflexivity);
        rewrite ?wlen_wset, ?wlen_insert_at; lia.
  - destruct (InsertOn s && (BeginIndex s + BeginOffset s <? wlen (Text s))) eqn:Hover;
      [|cbn; eauto].
    bool_cases.
    cbn [BeginOffset BeginIndex MaxLength set_Text set_BeginOffset set_BeginIndex].
    if_cases; bool_cases; printed; try (eexists; eexists; reflexivity);
      rewrite ?wlen_wset; lia.
Qed.

(** C9. For every state that satisfies the text-edit invariant (with
    [MaxLength] an [int]) and every key code, [insert] does not throw
    [std::logic_error]; it returns, with some answer and some state. *)
Theorem insert_returns_under_invariant :
  forall (s : t) (x : Z),
    int_range (MaxLength s) -> text_edit_invariant s ->
    insert x s <> Throw_logic_error
    /\ exists accepted s', insert x s = Ok (accepted, s').
Proof.
  intros s x HM Hinv.
  assert (E : exists accepted s', insert x s = Ok (accepted, s')).
  { pose proof Hinv as (H1 & H2 & H3 & H4).
    assert (EI : to_int (wlen (Text s)) = wlen (Text s)).
    { apply to_int_id. pose proof (wlen_nonneg (Text s)). unfold int_range in *. lia. }
    unfold insert.
    assert (Hv : invalid_state s = false).
    { unfold invalid_state. rewrite EI.
      repeat (apply orb_false_iff; split);
        first [apply Z.ltb_ge | rewrite Z.gtb_ltb; apply Z.ltb_ge]; lia. }
    rewrite Hv.
    destruct (process_control_keys_total x s HM Hinv) as (b & s' & -> & Hs).
    destruct b; [eauto|].
    rewrite (Hs eq_refl).
    destruct (insert_character_total x s HM Hinv) as (b & s'' & ->).
    cbn [lift]. eauto. }
  split; [|exact E].
  destruct E as (b & s' & ->). discriminate.
Qed.

Lemma display_character_is_no_control_key (x : Z) (s : t) :
  IsDisplayCharacter x = true -> process_control_keys x s = Some (false, s).
Proof.
  intros Hx. unfold process_control_keys.
  repeat match goal with
         | |- context [if x =? ?k then _ else _] =>
             destruct (Z.eqb_spec x k) as [->|_]; [vm_compute in Hx; discriminate|]
         end.
  reflexivity.
Qed.

(** At maximum length, with the cursor inside the text: insert mode leaves
    every member as it was and still answers [true]; overwrite mode
    replaces the character under the cursor and answers [true]. *)
Lemma insert_when_full_insert_mode (s : t) (x : Z) :
  int_range (MaxLength s) -> text_edit_invariant s ->
  wlen (Text s) = MaxLength s ->
  BeginIndex s + BeginOffset s < wlen (Text s) ->
  InsertOn s = false ->
  IsDisplayCharacter x = true ->
  insert x s = Ok (true, s).
Proof.
  intros HM Hinv Hfull Hin Hmode Hx.
  pose proof Hinv as (H1 & H2 & H3 & H4).
  assert (EI : to_int (wlen (Text s)) = wlen (Text s)).
  { apply to_int_id. pose proof (wlen_nonneg (Text s)). unfold int_range in *. lia. }
  unfold insert.
  assert (Hv : invalid_state s = false).
  { unfold invalid_state. rewrite EI.
    repeat (apply orb_false_iff; split);
      first [apply Z.ltb_ge | rewrite Z.gtb_ltb; apply Z.ltb_ge]; lia. }
  rewrite Hv, (display_character_is_no_control_key x s Hx).
  unfold insert_character. rewrite Hx, Hmode. cbn [negb andb].
  pose proof (wlen_nonneg (Text s)).
  replace (MaxLength s <? 0) with false by (symmetry; apply Z.ltb_ge; lia).
  replace (wlen (Text s) <? MaxLength s) with false by (symmetry; apply Z.ltb_ge; lia).
  reflexivity.
Qed.

Lemma insert_when_full_overwrite_mode (s : t) (x : Z) :
  int_range (MaxLength s) -> text_edit_invariant s ->
  wlen (Text s) = MaxLength s ->
  BeginIndex s + BeginOffset s < wlen (Text s) ->
  InsertOn s = true ->
  IsDisplayCharacter x = true ->
  exists s', insert x s = Ok (true, s')
             /\ Text s' = wset (Text s) (BeginIndex s + BeginOffset s) (to_wchar x).
Proof.
  intros HM Hinv Hfull Hin Hmode Hx.
  pose proof Hinv as (H1 & H2 & H3 & H4).
  assert (EI : to_int (wlen (Text s)) = wlen (Text s)).
  { apply to_int_id. pose proof (wlen_nonneg (Text s)). unfold int_range in *. lia. }
  unfold insert.
  assert (Hv : invalid_state s = false).
  { unfold invalid_state. rewrite EI.
    repeat (apply orb_false_iff; split);
      first [apply Z.ltb_ge | rewrite Z.gtb_ltb; apply Z.ltb_ge]; lia. }
  rewrite Hv, (display_character_is_no_control_key x s Hx).
  unfold insert_character. rewrite Hx, Hmode, EI. cbn [negb andb].
  pose proof (wlen_nonneg (Text s)).
  replace (MaxLength s <? 0) with false by (symmetry; apply Z.ltb_ge; lia).
  replace (wlen (Text s) <? MaxLength s) with false by (symmetry; apply Z.ltb_ge; lia).
  replace (BeginIndex s + BeginOffset s <? wlen (Text s)) with true
    by (symmetry; apply Z.ltb_lt; lia).
  cbn [orb BeginOffset BeginIndex MaxLength set_Text set_BeginOffset set_BeginIndex].
  if_cases; bool_cases;
    (printed; [rewrite ?wlen_wset; lia|]);
    cbn [lift]; eexists; (split; [reflexivity|]);
    match goal with HT : Text _ = _ /\ _ |- _ => destruct HT as (-> & _) end;
    reflexivity.
Qed.

(** C1 fails on the answer. The field of width 5 and maximum length 10,
    holding ten characters with the cursor on the first one, in insert
    mode, is handed the printable character X: every member stays as it
    was, and [insert] answers [true], the answer it gives for an accepted
    character, where the claim has [false]. *)
Theorem insert_at_max_length_answers_true :
  exists s : t,
    full_field = Some s
    /\ Text s = wlit "ABCDEFGHIJ" /\ MaxLength s = 10
    /\ BeginIndex s = 0 /\ BeginOffset s = 0 /\ InsertOn s = false
    /\ IsDisplayCharacter 88 = true
    /\ insert 88 s = Ok (true, s).
Proof.
  eexists. split; [vm_compute; reflexivity|].
  repeat (split; [vm_compute; reflexivity|]). vm_compute. reflexivity.
Qed.

(** C7. A freshly constructed field of width 5 and maximum length 10 is
    empty, at index and offset 0, in insert mode; typing A to G is accepted
    seven times and leaves the text ABCDEFG, [BeginIndex] 2, and a buffer
    that is the escape-sequence header followed by exactly CDEFG. *)
Theorem typing_seven_characters_scrolls_by_two :
  exists s0 s : t,
    field 5 10 = Some s0
    /\ Text s0 = [] /\ BeginIndex s0 = 0 /\ BeginOffset s0 = 0 /\ InsertOn s0 = false
    /\ Coord.num_cols (Area s0) = 5 /\ MaxLength s0 = 10
    /\ type_keys (wlit "ABCDEFG") s0 = Ok (repeat true 7, s)
    /\ Text s = wlit "ABCDEFG"
    /\ BeginIndex s = 2
    /\ bf s = header (Color s) s ++ wlit "CDEFG"
    /\ visible_window s = wlit "CDEFG".
Proof.
  eexists. eexists. split; [vm_compute; reflexivity|].
  repeat (split; [vm_compute; reflexivity|]). vm_compute. reflexivity.
Qed.

Lemma insert_returns_under_invariant_witness :
  exists s : t,
    full_field = Some s
    /\ int_range (MaxLength s) /\ text_edit_invariant s
    /\ insert 88 s <> Throw_logic_error.
Proof.
  eexists. split; [vm_compute; reflexivity|].
  match goal with |- int_range (MaxLength ?s) /\ _ =>
    assert (HM : int_range (MaxLength s)) by (vm_compute; split; [discriminate | reflexivity]);
    assert (HI : text_edit_invariant s) by (vm_compute; intuition discriminate);
    exact (conj HM (conj HI (proj1 (insert_returns_under_invariant s 88 HM HI))))
  end.
Defined.
End InputFacts.

(* ------------------------------------------------------------------ *)
(** ** DirectoryDisplayBox.h *)

Section ListBoxFacts.
Import DirectoryDisplayBox ConsoleCMD.

(** A replacement of the width it replaces keeps the length of the buffer,
    reads back as written, and changes no character outside its span. *)
Lemma wreplace_same_width (s m : wstring) (pos : Z) :
  0 <= pos -> pos + wlen m <= wlen s ->
  exists s',
    wreplace s pos (wlen m) m = Some s'
    /\ wlen s' = wlen s
    /\ substr s' pos (wlen m) = Some m
    /\ forall k, ~ (pos <= k < pos + wlen m) -> wat s' k = wat s k.
Proof.
  intros Hpos Hfit. pose proof (wlen_nonneg m) as Hm.
  unfold wreplace.
  replace (pos <? 0) with false by (symmetry; apply Z.ltb_ge; lia).
  replace (wlen s <? pos) with false by (symmetry; apply Z.ltb_ge; lia).
  replace (wlen m <? 0) with false by (symmetry; apply Z.ltb_ge; lia).
  cbn [orb]. eexists. split; [reflexivity|].
  assert (Hlen1 : List.length (firstn (Z.to_nat pos) s) = Z.to_nat pos).
  { apply firstn_length_le. unfold wlen in *. lia. }
  assert (Hlen : wlen (firstn (Z.to_nat pos) s ++ m ++ skipn (Z.to_nat (pos + wlen m)) s)
                 = wlen s).
  { unfold wlen in *. rewrite !length_app, Hlen1, length_skipn. lia. }
  split; [exact Hlen|]. split.
  - unfold substr. rewrite Hlen.
    replace (pos <? 0) with false by (symmetry; apply Z.ltb_ge; lia).
    replace (wlen s <? pos) with false by (symmetry; apply Z.ltb_ge; lia).
    replace (wlen m <? 0) with false by (symmetry; apply Z.ltb_ge; lia).
    cbn [orb]. f_equal.
    rewrite <- Hlen1 at 1. rewrite skipn_app, skipn_all, Nat.sub_diag. cbn [skipn app].
    unfold wlen. rewrite Nat2Z.id.
    rewrite firstn_app, firstn_all, Nat.sub_diag. cbn [firstn]. apply app_nil_r.
  - intros k Hk. unfold wat. destruct (k <? 0) eqn:Hneg; [reflexivity|].
    apply Z.ltb_ge in Hneg.
    destruct (Z_lt_ge_dec k pos) as [Hlt|Hge].
    + rewrite nth_error_app1 by (rewrite Hlen1; lia).
      rewrite nth_error_firstn.
      replace (Z.to_nat k <? Z.to_nat pos)%nat with true
        by (symmetry; apply Nat.ltb_lt; lia).
      reflexivity.
    + rewrite nth_error_app2 by (rewrite Hlen1; lia).
      rewrite nth_error_app2 by (rewrite Hlen1; unfold wlen in *; lia).
      rewrite nth_error_skipn. f_equal. rewrite Hlen1. unfold wlen in *. lia.
Qed.

Lemma wlen_pad_to (w : wstring) (n : Z) : wlen w <= n -> wlen (pad_to w n) = n.
Proof.
  intros H. unfold pad_to. destruct (wlen w <? n) eqn:E.
  - rewrite wlen_app, wlen_fill; lia.
  - apply Z.ltb_ge in E. lia.
Qed.

(** Whatever the four colors are, their markers come out of
    [color_commands] with one length. *)
Lemma color_commands_same_length (c1 c2 c3 c4 : Colors.color) :
  forall i f sl b, color_commands c1 c2 c3 c4 = (i, f, sl, b) ->
    wlen f = wlen i /\ wlen sl = wlen i /\ wlen b = wlen i.
Proof.
  intros i f sl b. unfold color_commands. intros H.
  injection H as <- <- <- <-.
  rewrite !wlen_pad_to by lia. auto.
Qed.

Lemma all_below_spec (P : Z -> bool) (n : nat) (k : Z) :
  all_below n k P = true -> forall z, k <= z < k + Z.of_nat n -> P z = true.
Proof.
  revert k. induction n as [|n IH]; intros k H z Hz; [lia|].
  cbn [all_below] in H. apply andb_true_iff in H. destruct H as [Hk Hrest].
  destruct (Z.eq_dec z k) as [->|Hne]; [exact Hk|].
  apply (IH (k + 1) Hrest). lia.
Qed.

(** Numbers below 65536 print in at most five digits. *)
Lemma fmt_d_length_bound (n : Z) :
  0 <= n < 65536 -> (List.length (fmt_d n) <= 5)%nat.
Proof.
  intros H.
  assert (Hall : all_below (Z.to_nat 65536) 0
                   (fun k => Nat.leb (List.length (fmt_d k)) 5) = true)
    by (vm_compute; reflexivity).
  apply Nat.leb_le.
  apply (all_below_spec _ _ _ Hall). rewrite Z2Nat.id; lia.
Qed.

Lemma move_commands_length (Left Right : Z) :
  0 <= Left + Right + 2 < 65536 ->
  wlen (snd (move_commands Left Right)) = 12.
Proof.
  intros H. unfold move_commands. cbn [snd].
  set (ret := MoveDown (MoveLeftN [] (Left + Right + 2))).
  assert (Hret : 10 <= wlen ret <= 11).
  { unfold ret, MoveDown, MoveLeftN, fmt_pad0, wlen.
    pose proof (fmt_d_length_bound _ H) as Hd.
    change (wlit "[") with [91]. change (wlit "D") with [68].
    change (wlit "[B") with [91; 66]. cbn [app List.length].
    rewrite !length_app, repeat_length. cbn [List.length].
    unfold wchar in *. lia. }
  change (wlen (SetPos [] 1 1)) with 12.
  rewrite wlen_pad_to; lia.
Qed.

(** What [initialize] leaves: markers of one length, and a row length that
    is the sum of the parts of the template line. *)
Lemma initialize_layout (s s' : t) :
  Coord.wf_box (Area s) -> initialize s = Some s' ->
  wlen (CommFocus s') = wlen (CommInit s')
  /\ wlen (CommSelect s') = wlen (CommInit s')
  /\ wlen (CommBoth s') = wlen (CommInit s')
  /\ 0 <= LeftColumnSize s' /\ 0 <= RightColumnSize s'
  /\ TextLineLength s' =
       wlen (CommInit s') + LeftColumnSize s' + 1 + RightColumnSize s' + 1 + 12.
Proof.
  intros ((Htr & Htc) & (Hbr & Hbc)) H. unfold initialize in H.
  destruct (color_commands Colors.ListColors Colors.ListFocusColors
              Colors.ListSelectColors Colors.ListSelectFocusColors)
    as [[[ci cf] cs] cb] eqn:Ecol.
  destruct (color_commands_same_length _ _ _ _ _ _ _ _ Ecol) as (H1 & H2 & H3).
  assert (Hci : wlen ci = 38).
  { assert (E : fst (fst (fst (color_commands Colors.ListColors Colors.ListFocusColors
              Colors.ListSelectColors Colors.ListSelectFocusColors))) = ci) by now rewrite Ecol.
    rewrite <- E. vm_compute. reflexivity. }
  set (Right := Coord.num_cols (Area s) - LeftColumnSize s - 3) in *.
  destruct (move_commands (LeftColumnSize s) Right) as [tb cr] eqn:Emov.
  unfold line_template, append_n in H.
  destruct (LeftColumnSize s <? 0) eqn:EL; [discriminate|].
  cbn [bind] in H.
  destruct (Right <? 0) eqn:ER; [discriminate|].
  cbn [bind] in H. apply Z.ltb_ge in EL, ER.
  assert (Hcols : Coord.num_cols (Area s) <= 65536).
  { unfold Coord.num_cols, short_range in *. lia. }
  assert (Hcr : wlen cr = 12).
  { replace cr with (snd (move_commands (LeftColumnSize s) Right)) by now rewrite Emov.
    apply move_commands_length. unfold Right. lia. }
  injection H as <-. cbn [CommFocus CommInit CommSelect CommBoth LeftColumnSize
                          RightColumnSize TextLineLength].
  repeat split; try assumption.
  rewrite to_int_id.
  - rewrite !wlen_app, !wlen_fill by lia. rewrite Hcr.
    change (wlen LLQUOTE) with 1. change (wlen RRQUOTE) with 1. cbn [app]. lia.
  - unfold int_range. rewrite !wlen_app, !wlen_fill by lia. rewrite Hcr, Hci.
    change (wlen LLQUOTE) with 1. change (wlen RRQUOTE) with 1.
    change (wlen []) with 0. unfold Right. lia.
Qed.

(** C2. After [initialize] (on a box whose coordinates are shorts) the four
    markers have one length; and for every buffer that holds rows 0 to [i],
    putting any of the markers at offset [TextLineLength * i] succeeds,
    keeps the length of the buffer, reads back as the marker, and leaves
    byte [c] of row [j] as it was for every other row [j <> i] and for
    every byte [c] of row [i] behind the marker. *)
Theorem marker_patch_is_local :
  forall s s' : t,
    Coord.wf_box (Area s) -> initialize s = Some s' ->
    (wlen (CommFocus s') = wlen (CommInit s')
     /\ wlen (CommSelect s') = wlen (CommInit s')
     /\ wlen (CommBoth s') = wlen (CommInit s'))
    /\ forall (bf : wstring) (i : Z) (m : wstring),
         In m [CommInit s'; CommFocus s'; CommSelect s'; CommBoth s'] ->
         0 <= i -> TextLineLength s' * (i + 1) <= wlen bf ->
         exists bf',
           wreplace bf (TextLineLength s' * i) (wlen m) m = Some bf'
           /\ wlen bf' = wlen bf
           /\ substr bf' (TextLineLength s' * i) (wlen m) = Some m
           /\ forall j c : Z,
                0 <= j -> 0 <= c < TextLineLength s' -> j <> i \/ wlen m <= c ->
                wat bf' (TextLineLength s' * j + c) = wat bf (TextLineLength s' * j + c).
Proof.
  intros s s' Hwf Hinit.
  destruct (initialize_layout s s' Hwf Hinit) as (Hf & Hs & Hb & HL & HR & HT).
  split; [auto|].
  intros bf i m Hm Hi Hrows.
  pose proof (wlen_nonneg (CommInit s')) as Hnn.
  assert (Hlen : wlen m = wlen (CommInit s')).
  { cbn [In] in Hm. destruct Hm as [<-|[<-|[<-|[<-|[]]]]]; auto. }
  set (T := TextLineLength s') in *.
  assert (HTm : wlen m <= T) by lia.
  assert (HT0 : 0 <= T) by lia.
  destruct (wreplace_same_width bf m (T * i)) as (bf' & E & Elen & Eread & Eout);
    [nia | nia |].
  exists bf'. repeat split; try assumption.
  intros j c Hj Hc Hwhere. apply Eout.
  destruct (Z.eq_dec j i) as [->|Hne]; [lia|].
  destruct (Z_lt_ge_dec j i); nia.
Qed.

Lemma marker_patch_is_local_witness :
  exists s' : t,
    initialize (empty_list 11 40) = Some s'
    /\ Coord.wf_box (Area (empty_list 11 40))
    /\ wlen (CommFocus s') = wlen (CommInit s').
Proof.
  eexists. split; [vm_compute; reflexivity|].
  assert (Hwf : Coord.wf_box (Area (empty_list 11 40)))
    by (vm_compute; intuition discriminate).
  split; [exact Hwf|].
  match goal with
  | |- wlen (CommFocus ?x) = _ =>
      assert (Hinit : initialize (empty_list 11 40) = Some x) by (vm_compute; reflexivity);
      exact (proj1 (proj1 (marker_patch_is_local _ _ Hwf Hinit)))
  end.
Defined.

(** *** Navigation *)

Lemma unmark_focus_inv (s s' : t) :
  unmark_focus s = Some s' -> exists b, s' = set_bf s b.
Proof.
  unfold unmark_focus. intros H.
  match type of H with bind ?m _ = _ => destruct m as [b|]; [|discriminate] end.
  cbn [bind] in H. injection H as <-. eauto.
Qed.

Lemma mark_focus_inv (s s' : t) :
  mark_focus s = Some s' -> exists b, s' = set_bf s b.
Proof.
  unfold mark_focus. intros H.
  match type of H with bind ?m _ = _ => destruct m as [b|]; [|discriminate] end.
  cbn [bind] in H. injection H as <-. eauto.
Qed.

Lemma write_rows_inv (pos n : Z) (s s' : t) :
  write_rows pos n s = Some s' -> exists w, s' = emit w s.
Proof.
  unfold write_rows. intros H.
  destruct (substr (bf s) pos n) as [w|]; [|discriminate].
  cbn [bind] in H. injection H as <-. eauto.
Qed.

Lemma draw_v_inv (First Num : Z) (s s' : t) :
  draw_v First Num s = Some s' -> exists w, s' = set_TempBuffer s w.
Proof.
  unfold draw_v. intros H.
  destruct (WindowBox.v_draw _ _ _ _) as [w|]; [|discriminate].
  cbn [bind] in H. injection H as <-. eauto.
Qed.

Lemma draw_h_inv (i : Z) (s s' : t) :
  draw_h i s = Some s' -> exists w, s' = set_TempBuffer s w.
Proof.
  unfold draw_h. intros H.
  destruct (WindowBox.h_draw _ _ _ _) as [w|]; [|discriminate].
  cbn [bind] in H. injection H as <-. eauto.
Qed.

(** Reading a field of a state built by the setters and the drawing
    helpers. *)
Ltac nav_fields :=
  lazy beta iota zeta delta
       [bf Area Color NameContainer NameColumns LeftColumnSize RightColumnSize
        FocusColor SelectColor SelectFocusColor vScroll hScroll TopIndex
        FocusIndex offsetLeftSign offsetColumn2 offsetRightSign TextLineLength
        NumIndexes CommInit CommFocus CommSelect CommBoth CommReturn TempBuffer
        stdout column
        set_bf set_TempBuffer set_stdout set_TopIndex set_FocusIndex
        place write_temp emit visible_count fst snd] in *.

(** One step of an operation that returned: a branch taken, or a marker
    or a write that went through. *)
Ltac nav_step :=
  match goal with
  | H : context [if ?c then _ else _] |- _ =>
      match type of H with _ = Some _ => destruct c eqn:? end
  | H : bind (unmark_focus ?s) _ = Some _ |- _ =>
      let s1 := fresh "s" in let E := fresh "E" in let b := fresh "b" in
      destruct (unmark_focus s) as [s1|] eqn:E; [|discriminate H];
      apply unmark_focus_inv in E; destruct E as (b & ->); cbn [bind] in H
  | H : bind (mark_focus ?s) _ = Some _ |- _ =>
      let s1 := fresh "s" in let E := fresh "E" in let b := fresh "b" in
      destruct (mark_focus s) as [s1|] eqn:E; [|discriminate H];
      apply mark_focus_inv in E; destruct E as (b & ->); cbn [bind] in H
  | H : bind (write_rows ?p ?n ?s) _ = Some _ |- _ =>
      let s1 := fresh "s" in let E := fresh "E" in let w := fresh "w" in
      destruct (write_rows p n s) as [s1|] eqn:E; [|discriminate H];
      apply write_rows_inv in E; destruct E as (w & ->); cbn [bind] in H
  | H : context [draw_v ?a ?b ?s] |- _ =>
      let s1 := fresh "s" in let E := fresh "E" in let w := fresh "w" in
      destruct (draw_v a b s) as [s1|] eqn:E; [|discriminate H];
      apply draw_v_inv in E; destruct E as (w & ->); cbn [bind] in H
  | H : context [draw_h ?i ?s] |- _ =>
      let s1 := fresh "s" in let E := fresh "E" in let w := fresh "w" in
      destruct (draw_h i s) as [s1|] eqn:E; [|discriminate H];
      apply draw_h_inv in E; destruct E as (w & ->); cbn [bind] in H
  | H : bind (Some _) _ = Some _ |- _ => cbn [bind] in H
  | H : Some _ = Some _ |- _ => injection H as <- <-
  end.

(** What each operation does to the two indices, and what it returns. *)
Lemma navigate_indices (op : nav) (s s' : t) (r : Z) :
  navigate op s = Some (r, s') ->
  NumIndexes s' = NumIndexes s /\ Area s' = Area s
  /\ (NumIndexes s <> 0 -> r = FocusIndex s')
  /\ if match op with KeyDown => false | _ => NumIndexes s =? 0 end
     then FocusIndex s' = FocusIndex s /\ TopIndex s' = TopIndex s
     else
     match op with
     | KeyUp =>
         if FocusIndex s >? 0
         then FocusIndex s' = FocusIndex s - 1
              /\ TopIndex s' = Z.min (TopIndex s) (FocusIndex s - 1)
         else FocusIndex s' = FocusIndex s /\ TopIndex s' = TopIndex s
     | KeyDown =>
         if FocusIndex s + 1 <? NumIndexes s
         then FocusIndex s' = FocusIndex s + 1
              /\ TopIndex s' = (if FocusIndex s + 1 - TopIndex s >=? visible_count s
                                then TopIndex s + 1 else TopIndex s)
         else FocusIndex s' = FocusIndex s /\ TopIndex s' = TopIndex s
     | KeyPageUp =>
         if FocusIndex s >? TopIndex s
         then FocusIndex s' = TopIndex s /\ TopIndex s' = TopIndex s
         else if TopIndex s >? 0
         then FocusIndex s' = Z.max 0 (TopIndex s - visible_count s)
              /\ TopIndex s' = Z.max 0 (TopIndex s - visible_count s)
         else FocusIndex s' = FocusIndex s /\ TopIndex s' = TopIndex s
     | KeyPageDown =>
         let Bottom := Z.min (TopIndex s + visible_count s - 1) (NumIndexes s - 1) in
         let Next := Z.min (Bottom + (visible_count s - 1)) (NumIndexes s - 1) in
         if FocusIndex s <? Bottom
         then FocusIndex s' = Bottom /\ TopIndex s' = TopIndex s
         else if Bottom <? NumIndexes s - 1
         then FocusIndex s' = Next
              /\ TopIndex s' = Z.max 0 (Next - (visible_count s - 1))
         else FocusIndex s' = FocusIndex s /\ TopIndex s' = TopIndex s
     end.
Proof.
  intros H.
  destruct op; cbn [navigate] in H;
    unfold move_up, move_down, page_up, page_down in H;
    destruct s.
  all: repeat (nav_fields; nav_step).
  all: nav_fields.
  all: repeat match goal with H : _ || _ = _ |- _ => clear H end.
  all: repeat match goal with |- context [if ?c then _ else _] => destruct c eqn:? end.
  all: repeat split; intros; bool_cases; lia.
Qed.

(** The viewport invariant after an operation that returned. *)
Lemma navigate_keeps_viewport (op : nav) (s s' : t) (r : Z) :
  visible_count s >= 1 -> viewport_invariant s ->
  navigate op s = Some (r, s') ->
  viewport_invariant s' /\ NumIndexes s' = NumIndexes s
  /\ visible_count s' = visible_count s /\ r = FocusIndex s'.
Proof.
  intros HV (H0 & H1 & H2 & H3) H.
  apply navigate_indices in H. destruct H as (HN & HA & Hr & H).
  assert (HV' : visible_count s' = visible_count s)
    by (unfold visible_count; now rewrite HA).
  assert (HN0 : (NumIndexes s =? 0) = false) by (apply Z.eqb_neq; lia).
  rewrite HN0 in H.
  unfold viewport_invariant. rewrite HV', HN.
  destruct op; cbv zeta in H;
    repeat match type of H with
           | (if ?c then _ else _) => destruct c eqn:?
           | context [if ?c then _ else _] => destruct c eqn:?
           end;
    bool_cases; destruct H as [HF HT];
    (split; [|split; [reflexivity|split; [reflexivity|apply Hr; lia]]]);
    rewrite HF, HT; lia.
Qed.

(** [replace] inside the buffer does not throw, and never shortens it. *)
Lemma wreplace_runs (s m : wstring) (pos : Z) :
  0 <= pos <= wlen s ->
  exists s', wreplace s pos (wlen m) m = Some s' /\ wlen s <= wlen s'.
Proof.
  intros Hpos. pose proof (wlen_nonneg m) as Hm. unfold wreplace.
  replace (pos <? 0) with false by (symmetry; apply Z.ltb_ge; lia).
  replace (wlen s <? pos) with false by (symmetry; apply Z.ltb_ge; lia).
  replace (wlen m <? 0) with false by (symmetry; apply Z.ltb_ge; lia).
  cbn [orb]. eexists. split; [reflexivity|].
  unfold wlen, wchar in *. rewrite !length_app, length_firstn, length_skipn. lia.
Qed.

(** Marking and writing go through when the offset is inside the buffer. *)
Lemma unmark_focus_runs (s : t) :
  0 <= FocusIndex s * TextLineLength s <= wlen (bf s) ->
  exists b, unmark_focus s = Some (set_bf s b) /\ wlen (bf s) <= wlen b.
Proof.
  intros H. unfold unmark_focus.
  destruct (Selected (column s (FocusIndex s))).
  - destruct (wreplace_runs (bf s) (CommSelect s) _ H) as (b & -> & L). cbn [bind]. eauto.
  - destruct (wreplace_runs (bf s) (CommInit s) _ H) as (b & -> & L). cbn [bind]. eauto.
Qed.

Lemma mark_focus_runs (s : t) :
  0 <= FocusIndex s * TextLineLength s <= wlen (bf s) ->
  exists b, mark_focus s = Some (set_bf s b) /\ wlen (bf s) <= wlen b.
Proof.
  intros H. unfold mark_focus.
  destruct (Selected (column s (FocusIndex s))).
  - destruct (wreplace_runs (bf s) (CommBoth s) _ H) as (b & -> & L). cbn [bind]. eauto.
  - destruct (wreplace_runs (bf s) (CommFocus s) _ H) as (b & -> & L). cbn [bind]. eauto.
Qed.

Lemma write_rows_runs (pos n : Z) (s : t) :
  0 <= pos <= wlen (bf s) -> exists w, write_rows pos n s = Some (emit w s).
Proof.
  intros H. unfold write_rows, substr.
  replace (pos <? 0) with false by (symmetry; apply Z.ltb_ge; lia).
  replace (wlen (bf s) <? pos) with false by (symmetry; apply Z.ltb_ge; lia).
  cbn [orb bind]. eauto.
Qed.

Lemma draw_v_runs (First Num : Z) (s : t) :
  Num <> 0 -> exists w, draw_v First Num s = Some (set_TempBuffer s w).
Proof.
  intros H. unfold draw_v.
  destruct (v_draw_runs (vScroll s) (TempBuffer s) First Num H) as (w & ->).
  cbn [bind]. eauto.
Qed.

Lemma draw_h_runs (i : Z) (s : t) :
  0 <= WindowBox.BarLength (hScroll s) ->
  exists w, draw_h i s = Some (set_TempBuffer s w).
Proof.
  intros H. unfold draw_h.
  destruct (h_draw_runs (hScroll s) (TempBuffer s)
              (FirstIndex (column s i) - LeftColumnSize s) (size (column s i))
              (or_introl H)) as (w & ->).
  cbn [bind]. eauto.
Qed.

(** One step of running an operation forward. *)
Ltac nav_side :=
  nav_fields; bool_cases; try nia.

Ltac nav_run :=
  match goal with
  | |- context [if ?c then _ else _] => destruct c eqn:?
  | |- context [bind (unmark_focus ?s) _] =>
      let b := fresh "b" in let E := fresh "E" in let L := fresh "L" in
      destruct (unmark_focus_runs s) as (b & E & L);
      [nav_side | rewrite E; cbn [bind]]
  | |- context [bind (mark_focus ?s) _] =>
      let b := fresh "b" in let E := fresh "E" in let L := fresh "L" in
      destruct (mark_focus_runs s) as (b & E & L);
      [nav_side | rewrite E; cbn [bind]]
  | |- context [bind (write_rows ?p ?n ?s) _] =>
      let w := fresh "w" in let E := fresh "E" in
      destruct (write_rows_runs p n s) as (w & E);
      [nav_side | rewrite E; cbn [bind]]
  | |- context [draw_v ?a ?b ?s] =>
      let w := fresh "w" in let E := fresh "E" in
      destruct (draw_v_runs a b s) as (w & E);
      [nav_side | rewrite E; cbn [bind]]
  | |- context [draw_h ?i ?s] =>
      let w := fresh "w" in let E := fresh "E" in
      destruct (draw_h_runs i s) as (w & E);
      [nav_side | rewrite E; cbn [bind]]
  | |- context [bind (Some _) _] => cbn [bind]
  end.

(** Every operation returns on a list whose buffer holds a row for every
    item and whose horizontal bar has a length that is not negative, and
    leaves such a list, with the bar and the columns it had. *)
Lemma navigate_runs (op : nav) (s : t) :
  visible_count s >= 1 -> viewport_invariant s -> buffer_ok s ->
  0 <= WindowBox.BarLength (hScroll s) ->
  exists r s',
    navigate op s = Some (r, s') /\ buffer_ok s'
    /\ hScroll s' = hScroll s /\ NameColumns s' = NameColumns s.
Proof.
  intros HV (H0 & H1 & H2 & H3) (B1 & B2 & B3 & B4 & B5) HBar.
  pose proof (wlen_nonneg (CommInit s)) as B0.
  unfold buffer_ok.
  destruct op; cbn [navigate];
    unfold move_up, move_down, page_up, page_down;
    destruct s; nav_fields.
  all: repeat (nav_fields; nav_run).
  all: nav_fields; do 2 eexists; (split; [reflexivity|]); nav_fields;
    repeat split; try assumption; try reflexivity; bool_cases; nia.
Qed.

(** C3.  For a list box with [NumIndexes > 0] items (each with its
    column) and a visible count [V = Area.num_rows() - 1 >= 1], if
    [0 <= TopIndex <= FocusIndex < NumIndexes] and [FocusIndex - TopIndex
    < V] hold before [move_up], [move_down], [page_up] or [page_down],
    they hold after it.  The call returns whenever the buffer holds a row
    for every item and the horizontal bar has a length that is not
    negative, so the statement is not an empty one; with a negative bar
    length the bar's [draw] can divide by zero, and no state follows the
    call. *)
Theorem navigation_preserves_viewport (op : nav) (s : t) :
  NumIndexes s > 0 -> visible_count s >= 1 -> viewport_invariant s ->
  NumIndexes s <= Z.of_nat (List.length (NameColumns s)) ->
  (forall r s', navigate op s = Some (r, s') ->
                viewport_invariant s'
                /\ NumIndexes s' = NumIndexes s
                /\ visible_count s' = visible_count s)
  /\ (buffer_ok s -> 0 <= WindowBox.BarLength (hScroll s) ->
      exists r s', navigate op s = Some (r, s') /\ viewport_invariant s').
Proof.
  intros _ HV Hinv _. split.
  - intros r s' H.
    destruct (navigate_keeps_viewport op s s' r HV Hinv H) as (? & ? & ? & _).
    auto.
  - intros Hbuf HBar.
    destruct (navigate_runs op s HV Hinv Hbuf HBar) as (r & s' & H & _).
    exists r, s'. split; [exact H|].
    exact (proj1 (navigate_keeps_viewport op s s' r HV Hinv H)).
Qed.

Lemma navigation_preserves_viewport_witness :
  exists s : t,
    list_of 30 11 40 = Some s
    /\ viewport_invariant s
    /\ exists r s', navigate KeyPageDown s = Some (r, s') /\ viewport_invariant s'.
Proof.
  eexists. split; [vm_compute; reflexivity|].
  match goal with
  | |- viewport_invariant ?x /\ _ =>
      assert (Hinv : viewport_invariant x) by (vm_compute; intuition discriminate);
      assert (HN : NumIndexes x > 0) by (vm_compute; reflexivity);
      assert (HV : visible_count x >= 1) by (vm_compute; discriminate);
      assert (HC : NumIndexes x <= Z.of_nat (List.length (NameColumns x)))
        by (vm_compute; discriminate);
      assert (Hbuf : buffer_ok x) by (vm_compute; intuition discriminate);
      assert (HBar : 0 <= WindowBox.BarLength (hScroll x)) by (vm_compute; discriminate);
      split; [exact Hinv|];
      exact (proj2 (navigation_preserves_viewport KeyPageDown x HN HV Hinv HC) Hbuf HBar)
  end.
Defined.

(** C8.  A list of 30 items in a window of 10 item rows, with the top
    index 0 and the focus on item 5.  When the horizontal bar has a
    length that is not negative, the first [page_down] moves the focus to
    item 9, the bottom row of the window, and leaves the top index 0, and
    the second [page_down] scrolls: the top index becomes 9.  In a box as
    wide as the left column and three columns more the bar has length
    -1; for thirty names without hidden text the first [page_down] does
    the same, and the second never returns: the bar's [draw] divides by
    zero. *)
Theorem page_down_twice_from_five :
  (forall s : t,
     NumIndexes s = 30 -> visible_count s = 10 ->
     TopIndex s = 0 -> FocusIndex s = 5 -> buffer_ok s ->
     NumIndexes s <= Z.of_nat (List.length (NameColumns s)) ->
     0 <= WindowBox.BarLength (hScroll s) ->
     exists r1 s1 r2 s2,
       page_down s = Some (r1, s1)
       /\ r1 = 9 /\ FocusIndex s1 = 9 /\ TopIndex s1 = 0
       /\ page_down s1 = Some (r2, s2)
       /\ r2 = 18 /\ FocusIndex s2 = 18 /\ TopIndex s2 = 9)
  /\ (exists s0 s s1 : t,
        narrow_list = Some s0
        /\ navigate_all [KeyDown; KeyDown; KeyDown; KeyDown; KeyDown] s0 = Some s
        /\ NumIndexes s = 30 /\ visible_count s = 10
        /\ TopIndex s = 0 /\ FocusIndex s = 5 /\ buffer_ok s
        /\ NumIndexes s <= Z.of_nat (List.length (NameColumns s))
        /\ WindowBox.BarLength (hScroll s) = -1
        /\ page_down s = Some (9, s1)
        /\ FocusIndex s1 = 9 /\ TopIndex s1 = 0
        /\ page_down s1 = None).
Proof.
  split.
  - intros s HN HV HT HF Hbuf _ HBar.
    assert (Hinv : viewport_invariant s) by (unfold viewport_invariant; lia).
    assert (HV0 : visible_count s >= 1) by lia.
    destruct (navigate_runs KeyPageDown s HV0 Hinv Hbuf HBar)
      as (r1 & s1 & E1 & Hbuf1 & HBar1 & _).
    destruct (navigate_keeps_viewport _ _ _ _ HV0 Hinv E1) as (Hinv1 & HN1 & HV1 & Hr1).
    assert (HV2 : visible_count s1 >= 1) by lia.
    pose proof (navigate_indices _ _ _ _ E1) as (_ & _ & _ & I1).
    rewrite HN, HV, HT, HF in I1. lazy -[FocusIndex TopIndex] in I1.
    destruct I1 as [F1 T1].
    rewrite <- HBar1 in HBar.
    destruct (navigate_runs KeyPageDown s1 HV2 Hinv1 Hbuf1 HBar) as (r2 & s2 & E2 & _).
    destruct (navigate_keeps_viewport _ _ _ _ HV2 Hinv1 E2) as (_ & _ & _ & Hr2).
    pose proof (navigate_indices _ _ _ _ E2) as (_ & _ & _ & I2).
    rewrite HN1, HV1, HN, HV, T1, F1 in I2. lazy -[FocusIndex TopIndex] in I2.
    destruct I2 as [F2 T2].
    cbn [navigate] in E1, E2.
    exists r1, s1, r2, s2. repeat split; congruence.
  - eexists. eexists. eexists.
    split; [vm_compute; reflexivity|].
    split; [vm_compute; reflexivity|].
    split; [vm_compute; reflexivity|].
    split; [vm_compute; reflexivity|].
    split; [vm_compute; reflexivity|].
    split; [vm_compute; reflexivity|].
    split; [vm_compute; intuition discriminate|].
    split; [vm_compute; discriminate|].
    split; [vm_compute; reflexivity|].
    split; [vm_compute; reflexivity|].
    split; [vm_compute; reflexivity|].
    split; vm_compute; reflexivity.
Qed.

Lemma page_down_twice_from_five_witness :
  exists s0 s : t,
    list_of 30 11 40 = Some s0
    /\ navigate_all [KeyDown; KeyDown; KeyDown; KeyDown; KeyDown] s0 = Some s
    /\ exists r1 s1 r2 s2,
         page_down s = Some (r1, s1)
         /\ r1 = 9 /\ FocusIndex s1 = 9 /\ TopIndex s1 = 0
         /\ page_down s1 = Some (r2, s2)
         /\ r2 = 18 /\ FocusIndex s2 = 18 /\ TopIndex s2 = 9.
Proof.
  eexists. eexists. split; [vm_compute; reflexivity|].
  split; [vm_compute; reflexivity|].
  apply (proj1 page_down_twice_from_five);
    [vm_compute; reflexivity | vm_compute; reflexivity | vm_compute; reflexivity
    | vm_compute; reflexivity | vm_compute; intuition discriminate
    | vm_compute; discriminate | vm_compute; discriminate].
Defined.

End ListBoxFacts.

(* ================================================================== *)
(** * Further properties *)

(* ------------------------------------------------------------------ *)
(** ** colors.h: the packed value, negation, weighted averages *)

Section ColorAlgebra.
Import Colors.

Lemma lxor_ones_low (n x : Z) :
  0 <= n -> 0 <= x < 2 ^ n -> Z.lxor x (Z.ones n) = Z.ones n - x.
Proof.
  intros Hn Hx.
  assert (E : Z.ones n - x = Z.land (Z.lnot x) (Z.ones n)).
  { rewrite Z.land_ones by lia. unfold Z.lnot. rewrite Z.ones_equiv.
    apply Z.mod_unique with (q := -1); lia. }
  rewrite E. apply Z.bits_inj'. intros i Hi.
  rewrite Z.lxor_spec, Z.land_spec, Z.lnot_spec, Z.testbit_ones_nonneg by lia.
  destruct (Z.ltb_spec i n).
  - now rewrite xorb_true_r, andb_true_r.
  - rewrite <- (Z.mod_small x (2 ^ n)) by lia.
    rewrite Z.mod_pow2_bits_high by lia. reflexivity.
Qed.

Lemma bytes_of_value (x y z : Z) :
  uint8_range x -> uint8_range y -> uint8_range z ->
  rgb_of_int (x + 256 * y + 65536 * z) = mk_rgb x y z.
Proof.
  unfold uint8_range, rgb_of_int. intros Hx Hy Hz. cbv zeta.
  rewrite to_unsigned_id by lia.
  change 0xffffff with (Z.ones 24). change 0xff with (Z.ones 8).
  rewrite !Z.land_ones, !Z.shiftr_div_pow2 by lia.
  change (2 ^ 24) with 16777216. change (2 ^ 8) with 256. change (2 ^ 16) with 65536.
  rewrite (Z.mod_small (x + 256 * y + 65536 * z) 16777216) by lia.
  f_equal; Z.div_mod_to_equations; lia.
Qed.

(** X1. A color made of three bytes is recovered from its packed value,
    [rgb(c.value()) == c]; and for every integer [X] the value of [rgb(X)]
    is [X] modulo 2^24, its three components being bytes. *)
Theorem rgb_value_round_trip :
  (forall c : rgb, wf_rgb c -> rgb_of_int (value c) = c)
  /\ (forall X : Z, value (rgb_of_int X) = X mod 16777216 /\ wf_rgb (rgb_of_int X)).
Proof.
  split.
  - intros [x y z] (Hx & Hy & Hz). cbn [r g b] in *. unfold value. cbn [r g b].
    now apply bytes_of_value.
  - intros X. unfold value, rgb_of_int, wf_rgb, uint8_range, to_unsigned. cbn [r g b].
    change 0xffffff with (Z.ones 24). change 0xff with (Z.ones 8).
    rewrite !Z.land_ones, !Z.shiftr_div_pow2 by lia.
    change (2 ^ 24) with 16777216. change (2 ^ 8) with 256. change (2 ^ 16) with 65536.
    repeat split; Z.div_mod_to_equations; lia.
Qed.

Lemma rgb_value_round_trip_witness :
  wf_rgb (rgb3 18 52 86) /\ rgb_of_int (value (rgb3 18 52 86)) = rgb3 18 52 86.
Proof.
  assert (H : wf_rgb (rgb3 18 52 86)) by (vm_compute; intuition discriminate).
  split; [exact H|]. exact (proj1 rgb_value_round_trip _ H).
Defined.

(** X2. Negating a color complements every component, [255 - x], and
    negating twice gives the color back. *)
Theorem neg_complements_and_is_involutive (c : rgb) :
  wf_rgb c ->
  neg c = mk_rgb (255 - r c) (255 - g c) (255 - b c)
  /\ neg (neg c) = c.
Proof.
  destruct c as [x y z]. intros (Hx & Hy & Hz). cbn [r g b] in *.
  assert (E : forall u v w, uint8_range u -> uint8_range v -> uint8_range w ->
              neg (mk_rgb u v w) = mk_rgb (255 - u) (255 - v) (255 - w)).
  { intros u v w Hu Hv Hw. unfold neg, value, uint8_range in *. cbn [r g b].
    change 0xffffff with (Z.ones 24).
    rewrite lxor_ones_low by (change (2 ^ 24) with 16777216; lia).
    change (Z.ones 24) with 16777215.
    replace (16777215 - (u + 256 * v + 65536 * w))
      with ((255 - u) + 256 * (255 - v) + 65536 * (255 - w)) by lia.
    apply bytes_of_value; unfold uint8_range; lia. }
  split; [now apply E|].
  rewrite E by assumption.
  rewrite E by (unfold uint8_range in *; lia).
  f_equal; lia.
Qed.

Lemma neg_complements_and_is_involutive_witness :
  wf_rgb (rgb3 18 52 86) /\ neg (neg (rgb3 18 52 86)) = rgb3 18 52 86.
Proof.
  assert (H : wf_rgb (rgb3 18 52 86)) by (vm_compute; intuition discriminate).
  split; [exact H|]. exact (proj2 (neg_complements_and_is_involutive _ H)).
Defined.

Lemma weighted_between (l u w : Z) :
  uint8_range l -> uint8_range u -> 0 <= w <= 100 ->
  Z.min l u <= Z.quot (l * w + u * (100 - w)) 100 <= Z.max l u.
Proof.
  unfold uint8_range. intros Hl Hu Hw.
  rewrite Z.quot_div_nonneg by nia.
  split.
  - apply Z.div_le_lower_bound; [lia|]. destruct (Z.min_spec l u) as [[? ->]|[? ->]]; nia.
  - apply Z.div_le_upper_bound; [lia|]. destruct (Z.max_spec l u) as [[? ->]|[? ->]]; nia.
Qed.

Lemma clamp_percent (w : Z) :
  let w' := if w <? 0 then 0 else if w >? 100 then 100 else w in
  0 <= w' <= 100 /\ (100 <= w -> w' = 100) /\ (w <= 0 -> w' = 0).
Proof. cbv zeta. if_cases; bool_cases; lia. Qed.

(** X3. The weighted average of two colors: every component lies between
    the two components it averages (so it is a byte), a weight of 100 or
    more gives the first color and a weight of 0 or less the second. *)
Theorem Avg_stays_between (L R : rgb) (Weight : Z) :
  wf_rgb L -> wf_rgb R ->
  wf_rgb (Avg L R Weight)
  /\ Z.min (r L) (r R) <= r (Avg L R Weight) <= Z.max (r L) (r R)
  /\ Z.min (g L) (g R) <= g (Avg L R Weight) <= Z.max (g L) (g R)
  /\ Z.min (b L) (b R) <= b (Avg L R Weight) <= Z.max (b L) (b R)
  /\ (100 <= Weight -> Avg L R Weight = L)
  /\ (Weight <= 0 -> Avg L R Weight = R).
Proof.
  destruct L as [lr lg lb], R as [rr rg rb].
  intros (Hlr & Hlg & Hlb) (Hrr & Hrg & Hrb). cbn [r g b] in *.
  unfold Avg. cbn [r g b].
  destruct (clamp_percent Weight) as (Hw & Hhi & Hlo). cbv zeta in Hw, Hhi, Hlo.
  set (w := if Weight <? 0 then 0 else if Weight >? 100 then 100 else Weight) in *.
  pose proof (weighted_between lr rr w Hlr Hrr Hw) as Br.
  pose proof (weighted_between lg rg w Hlg Hrg Hw) as Bg.
  pose proof (weighted_between lb rb w Hlb Hrb Hw) as Bb.
  unfold rgb3. cbn [r g b].
  rewrite !(to_uint8_id (Z.quot _ 100)) by (unfold uint8_range in *; lia).
  unfold wf_rgb. cbn [r g b].
  repeat split; try (unfold uint8_range in *; lia).
  - intros H. rewrite (Hhi H).
    f_equal; rewrite Z.sub_diag, Z.mul_0_r, Z.add_0_r, Z.quot_mul by lia; reflexivity.
  - intros H. rewrite (Hlo H).
    f_equal; rewrite Z.mul_0_r, Z.add_0_l, Z.sub_0_r, Z.quot_mul by lia; reflexivity.
Qed.

Lemma Avg_stays_between_witness :
  wf_rgb BLUE /\ wf_rgb WHITE /\ wf_rgb (Avg BLUE WHITE 30).
Proof.
  assert (H1 : wf_rgb BLUE) by (vm_compute; intuition discriminate).
  assert (H2 : wf_rgb WHITE) by (vm_compute; intuition discriminate).
  split; [exact H1 | split; [exact H2 |]].
  exact (proj1 (Avg_stays_between BLUE WHITE 30 H1 H2)).
Defined.

(** X4. [blend(0)] is the color itself, [blend(100)] is its mirror, and
    blending the mirror is mirroring the blend. *)
Theorem blend_levels (c : color) :
  wf_color c ->
  blend c 0 = c
  /\ blend c 100 = mirror c
  /\ forall Level, blend (mirror c) Level = mirror (blend c Level).
Proof.
  destruct c as [f k]. intros (Hf & Hk). cbn [F B] in *.
  unfold blend, mirror. cbn [F B].
  destruct (Avg_stays_between k f 0 Hk Hf) as (_ & _ & _ & _ & _ & E0).
  destruct (Avg_stays_between f k 0 Hf Hk) as (_ & _ & _ & _ & _ & E1).
  destruct (Avg_stays_between k f 100 Hk Hf) as (_ & _ & _ & _ & E2 & _).
  destruct (Avg_stays_between f k 100 Hf Hk) as (_ & _ & _ & _ & E3 & _).
  rewrite E0, E1, E2, E3 by lia. auto.
Qed.

Lemma blend_levels_witness :
  wf_color ListColors /\ blend ListColors 100 = mirror ListColors.
Proof.
  assert (H : wf_color ListColors) by (vm_compute; intuition discriminate).
  split; [exact H|]. exact (proj1 (proj2 (blend_levels _ H))).
Defined.

(** X5. [darken] with a negative percentage is [brighten] with the
    positive one, for every color and percentage; on a color of three
    bytes [darken(100)] is black and [brighten(100)] is white, and for a
    percentage that is not negative no component grows under [darken] and
    none shrinks under [brighten]. *)
Theorem darken_and_brighten (c : rgb) :
  wf_rgb c ->
  (forall p, darken c (- p) = brighten c p)
  /\ darken c 100 = mk_rgb 0 0 0
  /\ brighten c 100 = mk_rgb 255 255 255
  /\ (forall p, 0 <= p ->
        r (darken c p) <= r c /\ g (darken c p) <= g c /\ b (darken c p) <= b c
        /\ r c <= r (brighten c p) /\ g c <= g (brighten c p) /\ b c <= b (brighten c p)).
Proof.
  intros Hc.
  assert (Hk : wf_rgb (mk_rgb 0 0 0)) by (vm_compute; intuition discriminate).
  assert (Hw : wf_rgb (rgb3 255 255 255)) by (vm_compute; intuition discriminate).
  assert (Zero : forall X, Avg X c 0 = Avg (mk_rgb 0 0 0) c 0).
  { intros X. unfold Avg. cbn [Z.ltb Z.gtb Z.compare r g b].
    now rewrite !Z.mul_0_r. }
  split; [|split; [|split]].
  - intros p. unfold darken, brighten.
    destruct (Z.gtb_spec p 0), (Z.gtb_spec (- p) 0); try lia.
    + now rewrite Z.opp_involutive.
    + reflexivity.
    + replace p with 0 by lia. cbn [Z.opp]. apply Zero.
  - unfold darken. cbn [Z.gtb Z.compare].
    now destruct (Avg_stays_between (mk_rgb 0 0 0) c 100 Hk Hc) as (_ & _ & _ & _ & -> & _).
  - unfold brighten. cbn [Z.gtb Z.compare].
    now destruct (Avg_stays_between (rgb3 255 255 255) c 100 Hw Hc)
      as (_ & _ & _ & _ & -> & _).
  - intros p Hp. unfold darken, brighten.
    destruct Hc as (Hr & Hg & Hb). unfold uint8_range in *.
    destruct (Z.gtb_spec p 0).
    + destruct (Avg_stays_between (mk_rgb 0 0 0) c p Hk (conj Hr (conj Hg Hb)))
        as (_ & Br & Bg & Bb & _).
      destruct (Avg_stays_between (rgb3 255 255 255) c p Hw (conj Hr (conj Hg Hb)))
        as (_ & Wr & Wg & Wb & _).
      change (rgb3 255 255 255) with (mk_rgb 255 255 255) in *.
      cbn [r g b] in Br, Bg, Bb, Wr, Wg, Wb. lia.
    + replace p with 0 by lia. cbn [Z.opp].
      destruct (Avg_stays_between (mk_rgb 0 0 0) c 0 Hk (conj Hr (conj Hg Hb)))
        as (_ & _ & _ & _ & _ & E).
      rewrite Zero, E by lia. lia.
Qed.

Lemma darken_and_brighten_witness :
  wf_rgb GRAY /\ darken GRAY 100 = mk_rgb 0 0 0.
Proof.
  assert (H : wf_rgb GRAY) by (vm_compute; intuition discriminate).
  split; [exact H|]. exact (proj1 (proj2 (darken_and_brighten _ H))).
Defined.

(** X6. Scaling a color by a percentage saturates: each component of
    [c * x] is [min(255, component * x / 100)] as long as the product fits
    an [unsigned]; [c * 100] is [c]; and a negative factor scales the
    negated color by the opposite factor. *)
Theorem rgb_mul_saturates (c : rgb) :
  wf_rgb c ->
  (forall x, 0 <= x <= 16843009 ->
     rgb_mul c x = mk_rgb (Z.min 255 (r c * x / 100)) (Z.min 255 (g c * x / 100))
                          (Z.min 255 (b c * x / 100)))
  /\ rgb_mul c 100 = c
  /\ (forall x, x < 0 -> rgb_mul c x = rgb_mul (neg c) (- x)).
Proof.
  destruct c as [x1 x2 x3]. intros (H1 & H2 & H3). cbn [r g b] in *.
  assert (M : forall l x, uint8_range l -> 0 <= x <= 16843009 ->
              to_uint8 (mul l x) = Z.min 255 (l * x / 100)).
  { intros l x Hl Hx. unfold mul, uint8_range in *.
    rewrite to_unsigned_id by nia. cbv zeta.
    destruct (Z.gtb_spec (l * x) 25500).
    - assert (255 <= l * x / 100) by (apply Z.div_le_lower_bound; lia).
      rewrite Z.min_l by lia. reflexivity.
    - assert (l * x / 100 <= 255) by (apply Z.div_le_upper_bound; lia).
      assert (0 <= l * x / 100) by (apply Z.div_pos; nia).
      rewrite Z.min_r by lia. apply to_uint8_id. unfold uint8_range. lia. }
  assert (E : forall x, 0 <= x <= 16843009 ->
              rgb_mul (mk_rgb x1 x2 x3) x
              = mk_rgb (Z.min 255 (x1 * x / 100)) (Z.min 255 (x2 * x / 100))
                       (Z.min 255 (x3 * x / 100))).
  { intros x Hx. unfold rgb_mul.
    replace (x >=? 0) with true by (symmetry; apply Z.geb_le; lia).
    unfold rgb3. cbn [r g b]. now rewrite !M. }
  split; [exact E|]. split.
  - rewrite E by lia. unfold uint8_range in *.
    rewrite !Z.div_mul by lia. f_equal; lia.
  - intros x Hx. unfold rgb_mul.
    replace (x >=? 0) with false by (symmetry; rewrite Z.geb_leb; apply Z.leb_gt; lia).
    replace (- x >=? 0) with true by (symmetry; apply Z.geb_le; lia).
    reflexivity.
Qed.

Lemma rgb_mul_saturates_witness :
  wf_rgb WHITE /\ rgb_mul WHITE 100 = WHITE.
Proof.
  assert (H : wf_rgb WHITE) by (vm_compute; intuition discriminate).
  split; [exact H|]. exact (proj1 (proj2 (rgb_mul_saturates _ H))).
Defined.

(** X7. The difference of two colors is the average of the first with the
    complement of the second, [(l + 255 - r) / 2] in every component; so
    [c - c] is the middle gray 127 and never black. *)
Theorem rgb_sub_averages_with_complement (L R : rgb) :
  wf_rgb L -> wf_rgb R ->
  rgb_sub L R = mk_rgb ((r L + 255 - r R) / 2) ((g L + 255 - g R) / 2)
                       ((b L + 255 - b R) / 2)
  /\ rgb_sub L L = mk_rgb 127 127 127.
Proof.
  assert (S : forall l u, uint8_range l -> uint8_range u ->
              to_uint8 (sub l u) = (l + 255 - u) / 2).
  { intros l u Hl Hu. unfold sub, avg, uint8_range in *.
    change 0xff with (Z.ones 8).
    rewrite lxor_ones_low by (change (2 ^ 8) with 256; lia).
    change (Z.ones 8) with 255.
    rewrite to_unsigned_id by lia.
    replace (l + (255 - u)) with (l + 255 - u) by lia.
    apply to_uint8_id. unfold uint8_range.
    split; [apply Z.div_pos; lia | apply Z.div_lt_upper_bound; lia]. }
  assert (E : forall X Y, wf_rgb X -> wf_rgb Y ->
              rgb_sub X Y = mk_rgb ((r X + 255 - r Y) / 2) ((g X + 255 - g Y) / 2)
                                   ((b X + 255 - b Y) / 2)).
  { intros X Y (? & ? & ?) (? & ? & ?). unfold rgb_sub, rgb3. now rewrite !S. }
  intros HL HR. split; [now apply E|].
  rewrite E by assumption.
  f_equal; match goal with |- (?x + 255 - ?x) / 2 = _ =>
             replace (x + 255 - x) with 255 by lia; reflexivity end.
Qed.

Lemma rgb_sub_averages_with_complement_witness :
  wf_rgb WHITE /\ rgb_sub WHITE WHITE = mk_rgb 127 127 127.
Proof.
  assert (H : wf_rgb WHITE) by (vm_compute; intuition discriminate).
  split; [exact H|]. exact (proj2 (rgb_sub_averages_with_complement _ _ H H)).
Defined.

End ColorAlgebra.

(* ------------------------------------------------------------------ *)
(** ** ConsoleCMD.h / ConsoleCMD.cpp: sequences, character classes, parsing *)

Section ConsoleFacts.
Import ConsoleCMD.

Lemma wlen_cons (c : wchar) (w : wstring) : wlen (c :: w) = 1 + wlen w.
Proof. unfold wlen. cbn [List.length]. lia. Qed.

Lemma fmt_pad0_byte (n : Z) : uint8_range n -> wlen (fmt_pad0 3 n) = 3.
Proof.
  intros Hn.
  assert (A : all_below 256 0 (fun k => wlen (fmt_pad0 3 k) =? 3) = true)
    by (vm_compute; reflexivity).
  pose proof (all_below_spec _ _ _ A n) as H. cbv beta in H.
  apply Z.eqb_eq, H. unfold uint8_range in Hn. lia.
Qed.

(** X8. A color sequence has a fixed width: for three bytes
    [SetBackColor] and [SetFrontColor] append 19 characters each, so
    [color::apply] and [apply_mirror] append 38 for every color, whatever
    its components. *)
Theorem color_sequences_have_fixed_width :
  (forall (Buf : wstring) (R G B : Z),
     uint8_range R -> uint8_range G -> uint8_range B ->
     wlen (SetBackColor Buf R G B) = wlen Buf + 19
     /\ wlen (SetFrontColor Buf R G B) = wlen Buf + 19)
  /\ (forall (c : Colors.color) (Buffer : wstring),
        Colors.wf_color c ->
        wlen (Colors.apply c Buffer) = wlen Buffer + 38
        /\ wlen (Colors.apply_mirror c Buffer) = wlen Buffer + 38).
Proof.
  assert (W : forall Buf R G B, uint8_range R -> uint8_range G -> uint8_range B ->
              wlen (SetBackColor Buf R G B) = wlen Buf + 19
              /\ wlen (SetFrontColor Buf R G B) = wlen Buf + 19).
  { intros Buf R G B HR HG HB. unfold SetBackColor, SetFrontColor.
    rewrite !wlen_app, !wlen_cons, !wlen_app, !fmt_pad0_byte by assumption.
    change (wlen (wlit "[48;2;")) with 6. change (wlen (wlit "[38;2;")) with 6.
    change (wlen (wlit ";")) with 1. change (wlen (wlit "m")) with 1. lia. }
  split; [exact W|].
  intros [f k] Buffer ((F1 & F2 & F3) & (K1 & K2 & K3)).
  unfold Colors.apply, Colors.apply_mirror, Colors.setBack, Colors.setFront.
  cbn [Colors.F Colors.B] in *.
  split.
  - rewrite (proj1 (W _ _ _ _ K1 K2 K3)), (proj2 (W _ _ _ _ F1 F2 F3)). lia.
  - rewrite (proj2 (W _ _ _ _ K1 K2 K3)), (proj1 (W _ _ _ _ F1 F2 F3)). lia.
Qed.

Lemma color_sequences_have_fixed_width_witness :
  Colors.wf_color Colors.ListFocusColors
  /\ wlen (Colors.apply Colors.ListFocusColors []) = 38.
Proof.
  assert (H : Colors.wf_color Colors.ListFocusColors)
    by (vm_compute; intuition discriminate).
  split; [exact H|].
  exact (proj1 (proj2 color_sequences_have_fixed_width Colors.ListFocusColors [] H)).
Defined.

Lemma IsDisplayCharacter_range (c : Z) : IsDisplayCharacter c = true -> 32 <= c <= 126.
Proof.
  intros H.
  destruct (Z_le_gt_dec 32 c) as [Hlo|Hlo], (Z_le_gt_dec c 126) as [Hhi|Hhi];
    [lia | exfalso .. ];
    revert H;
    unfold IsDisplayCharacter, IsFilenameCharacter, IsAlphaNumeric, IsLowerCase,
      IsUpperCase, IsDigitCharacter, one_of;
    repeat match goal with
           | |- context [wlit ?s] =>
               let l := eval vm_compute in (wlit s) in change (wlit s) with l
           end;
    cbn [existsb];
    repeat match goal with
           | |- context [Z.eqb c ?k] => destruct (Z.eqb_spec c k); [lia|]
           | |- context [Z.leb ?a ?b] => destruct (Z.leb_spec a b)
           end;
    cbn [andb orb]; try discriminate; lia.
Qed.

(** X9. The characters an input field accepts are the printable ASCII
    characters 32 to 126 without the two square brackets and the two
    braces (91, 93, 123, 125); every filename character is among them, and
    the display characters that are no filename characters are exactly
    the nine codes 34, 42, 47, 58, 60, 62, 63, 92, 124 (double quote,
    asterisk, slash, colon, less-than, greater-than, question mark,
    backslash, vertical bar). *)
Theorem display_characters_are_ascii_without_brackets (c : Z) :
  (IsDisplayCharacter c = true <->
   32 <= c <= 126 /\ c <> 91 /\ c <> 93 /\ c <> 123 /\ c <> 125)
  /\ (IsFilenameCharacter c = true -> IsDisplayCharacter c = true)
  /\ (IsDisplayCharacter c = true /\ IsFilenameCharacter c = false <->
      In c [34; 42; 47; 58; 60; 62; 63; 92; 124]).
Proof.
  assert (A : all_below 127 0
                (fun k => Bool.eqb (IsDisplayCharacter k)
                            ((32 <=? k) && (k <=? 126) && negb (k =? 91) && negb (k =? 93)
                             && negb (k =? 123) && negb (k =? 125))
                          && (IsFilenameCharacter k || negb (IsDisplayCharacter k)
                              || existsb (Z.eqb k) [34; 42; 47; 58; 60; 62; 63; 92; 124]))
              = true) by (vm_compute; reflexivity).
  pose proof (all_below_spec _ _ _ A c) as HA. cbv beta in HA.
  split; [|split].
  - split.
    + intros H. pose proof (IsDisplayCharacter_range c H) as R.
      specialize (HA ltac:(lia)). apply andb_true_iff in HA. destruct HA as [HA _].
      apply Bool.eqb_prop in HA. rewrite H in HA. symmetry in HA.
      repeat (apply andb_true_iff in HA; destruct HA as [HA ?]).
      repeat match goal with
             | X : negb _ = true |- _ => apply negb_true_iff, Z.eqb_neq in X
             end.
      auto.
    + intros (R & N1 & N2 & N3 & N4).
      specialize (HA ltac:(lia)). apply andb_true_iff in HA. destruct HA as [HA _].
      apply Bool.eqb_prop in HA. rewrite HA.
      replace (32 <=? c) with true by (symmetry; apply Z.leb_le; lia).
      replace (c <=? 126) with true by (symmetry; apply Z.leb_le; lia).
      replace (c =? 91) with false by (symmetry; apply Z.eqb_neq; lia).
      replace (c =? 93) with false by (symmetry; apply Z.eqb_neq; lia).
      replace (c =? 123) with false by (symmetry; apply Z.eqb_neq; lia).
      replace (c =? 125) with false by (symmetry; apply Z.eqb_neq; lia).
      reflexivity.
  - unfold IsDisplayCharacter. now intros ->.
  - split.
    + intros (H & HF). pose proof (IsDisplayCharacter_range c H) as R.
      specialize (HA ltac:(lia)). apply andb_true_iff in HA. destruct HA as [_ HA].
      rewrite H, HF in HA. cbn [negb orb] in HA.
      apply existsb_exists in HA. destruct HA as (k & Hk & E).
      apply Z.eqb_eq in E. now subst k.
    + cbn [In].
      intros [<-|[<-|[<-|[<-|[<-|[<-|[<-|[<-|[<-|[]]]]]]]]]];
        split; vm_compute; reflexivity.
Qed.

Lemma count_zero_iff (P : wchar -> bool) (l : wstring) :
  (Z.of_nat (List.length (filter P l)) =? 0) = negb (existsb P l).
Proof.
  induction l as [|a l IH]; [reflexivity|]. cbn [filter existsb].
  destruct (P a); cbn [orb negb List.length]; [|exact IH].
  apply Z.eqb_neq. lia.
Qed.

Lemma tuple4_eq {A B C D : Type} (a a' : A) (b b' : B) (c c' : C) (d d' : D) :
  a = a' -> b = b' -> c = c' -> d = d' -> (a, b, c, d) = (a', b', c', d').
Proof. now intros -> -> -> ->. Qed.

Lemma username_step_counts (nL nU nD E : Z) (w : wchar) :
  username_step (nL, nU, nD, E) w
  = (nL + (if IsLowerCase w then 1 else 0),
     nU + (if IsUpperCase w then 1 else 0),
     nD + (if IsDigitCharacter w then 1 else 0),
     if IsAlphaNumeric w then E else Z.lor E 16).
Proof.
  unfold username_step, IsAlphaNumeric, IsLowerCase, IsUpperCase, IsDigitCharacter.
  destruct (Z.leb_spec 48 w), (Z.leb_spec w 57), (Z.leb_spec 97 w), (Z.leb_spec w 122),
    (Z.leb_spec 65 w), (Z.leb_spec w 90); cbn [andb orb]; try lia;
    apply tuple4_eq; lia.
Qed.

Lemma count_cons (P : wchar -> bool) (w : wchar) (l : wstring) :
  Z.of_nat (List.length (filter P (w :: l)))
  = (if P w then 1 else 0) + Z.of_nat (List.length (filter P l)).
Proof. cbn [filter]. destruct (P w); cbn [List.length]; lia. Qed.

Lemma username_loop (Text : wstring) (nL nU nD E : Z) :
  fold_left username_step Text (nL, nU, nD, E)
  = (nL + Z.of_nat (List.length (filter IsLowerCase Text)),
     nU + Z.of_nat (List.length (filter IsUpperCase Text)),
     nD + Z.of_nat (List.length (filter IsDigitCharacter Text)),
     if forallb IsAlphaNumeric Text then E else Z.lor E 16).
Proof.
  revert nL nU nD E. induction Text as [|w Text IH]; intros nL nU nD E.
  - cbn. apply tuple4_eq; lia.
  - cbn [fold_left]. rewrite username_step_counts, IH, !count_cons.
    cbn [forallb].
    apply tuple4_eq; try (unfold wchar in *; lia).
    destruct (IsAlphaNumeric w); cbn [andb]; [reflexivity|].
    destruct (forallb IsAlphaNumeric Text); [reflexivity|].
    now rewrite <- Z.lor_assoc, Z.lor_diag.
Qed.

(** X10. [username_error] answers with a bitmap: 1 for a length outside
    [MinLen .. MaxLen], 2, 4 and 8 for a missing digit, lowercase and
    uppercase letter, 16 for a character that is none of these.  So it
    answers 0 exactly for a text of an allowed length made of letters and
    digits with at least one of each kind. *)
Theorem username_error_is_a_bitmap (Text : wstring) (MinLen MaxLen : Z) :
  0 <= MinLen < 9223372036854775808 -> 0 <= MaxLen < 9223372036854775808 ->
  username_error Text MinLen MaxLen
  = (if (wlen Text <? MinLen) || (wlen Text >? MaxLen) then 1 else 0)
    + (if existsb IsDigitCharacter Text then 0 else 2)
    + (if existsb IsLowerCase Text then 0 else 4)
    + (if existsb IsUpperCase Text then 0 else 8)
    + (if forallb IsAlphaNumeric Text then 0 else 16)
  /\ (username_error Text MinLen MaxLen = 0 <->
      MinLen <= wlen Text <= MaxLen
      /\ forallb IsAlphaNumeric Text = true
      /\ existsb IsDigitCharacter Text = true
      /\ existsb IsLowerCase Text = true
      /\ existsb IsUpperCase Text = true).
Proof.
  intros Hmin Hmax.
  assert (E : username_error Text MinLen MaxLen
              = (if (wlen Text <? MinLen) || (wlen Text >? MaxLen) then 1 else 0)
                + (if existsb IsDigitCharacter Text then 0 else 2)
                + (if existsb IsLowerCase Text then 0 else 4)
                + (if existsb IsUpperCase Text then 0 else 8)
                + (if forallb IsAlphaNumeric Text then 0 else 16)).
  { unfold username_error, to_size_t.
    rewrite !Z.mod_small by lia. cbv zeta.
    rewrite username_loop. rewrite !Z.add_0_l, !count_zero_iff.
    unfold wchar, wstring in *.
    destruct (wlen Text <? MinLen), (wlen Text >? MaxLen),
      (existsb IsDigitCharacter Text), (existsb IsLowerCase Text),
      (existsb IsUpperCase Text), (forallb IsAlphaNumeric Text); reflexivity. }
  split; [exact E|].
  rewrite E. split.
  - intros H.
    destruct (wlen Text <? MinLen) eqn:A, (wlen Text >? MaxLen) eqn:B,
      (existsb IsDigitCharacter Text), (existsb IsLowerCase Text),
      (existsb IsUpperCase Text), (forallb IsAlphaNumeric Text);
      cbn [orb] in H; try discriminate H.
    bool_cases. repeat split; lia.
  - intros (R & -> & -> & -> & ->).
    replace (wlen Text <? MinLen) with false by (symmetry; apply Z.ltb_ge; lia).
    replace (wlen Text >? MaxLen) with false
      by (symmetry; rewrite Z.gtb_ltb; apply Z.ltb_ge; lia).
    reflexivity.
Qed.

Lemma username_error_is_a_bitmap_witness :
  username_error (wlit "Abc1") 3 10 = 0 /\ username_error (wlit "ab c") 5 10 = 27.
Proof.
  destruct (username_error_is_a_bitmap (wlit "Abc1") 3 10 ltac:(lia) ltac:(lia)) as [E1 _].
  destruct (username_error_is_a_bitmap (wlit "ab c") 5 10 ltac:(lia) ltac:(lia)) as [E2 _].
  split; [rewrite E1 | rewrite E2]; vm_compute; reflexivity.
Defined.

End ConsoleFacts.

(* ------------------------------------------------------------------ *)
(** ** ConsoleCMD.cpp: reading numbers back *)

From Stdlib Require DecimalFacts DecimalPos DecimalZ.

Section ParseFacts.
Import ConsoleCMD.

Lemma wlit_String (a : ascii) (s : string) :
  wlit (String a s) = Z.of_N (N_of_ascii a) :: wlit s.
Proof. reflexivity. Qed.

(** The value of a digit string, one digit at a time. *)
Lemma of_uint_head (d : Decimal.uint) :
  d <> Decimal.Nil ->
  Pos.of_uint d
  = (Pos.of_uint (DecimalPos.Unsigned.tl d)
     + DecimalPos.Unsigned.hd d * 10 ^ DecimalPos.Unsigned.usize (DecimalPos.Unsigned.tl d))%N.
Proof.
  intros Hd. rewrite !DecimalPos.Unsigned.of_uint_alt.
  destruct d; [congruence | ..]; unfold Decimal.rev; cbn [Decimal.revapp];
    rewrite DecimalPos.Unsigned.of_lu_revapp;
    cbn [DecimalPos.Unsigned.tl DecimalPos.Unsigned.hd DecimalPos.Unsigned.of_lu];
    rewrite ?N.mul_0_r, ?N.add_0_r; reflexivity.
Qed.

Lemma string_of_uint_head (d : Decimal.uint) :
  d <> Decimal.Nil ->
  wlit (NilEmpty.string_of_uint d)
  = (48 + Z.of_N (DecimalPos.Unsigned.hd d))
      :: wlit (NilEmpty.string_of_uint (DecimalPos.Unsigned.tl d))
  /\ (DecimalPos.Unsigned.hd d <= 9)%N
  /\ DecimalPos.Unsigned.usize d = N.succ (DecimalPos.Unsigned.usize (DecimalPos.Unsigned.tl d)).
Proof.
  intros Hd. destruct d; [congruence | ..];
    cbn [NilEmpty.string_of_uint DecimalPos.Unsigned.hd DecimalPos.Unsigned.tl
         DecimalPos.Unsigned.usize];
    rewrite wlit_String; (split; [reflexivity | split; [lia | reflexivity]]).
Qed.

Lemma usize_tl_lt (d : Decimal.uint) :
  d <> Decimal.Nil ->
  (DecimalPos.Unsigned.usize (DecimalPos.Unsigned.tl d) < DecimalPos.Unsigned.usize d)%N.
Proof.
  intros Hd. rewrite (proj2 (proj2 (string_of_uint_head d Hd))). lia.
Qed.

Lemma parse_digits (d : Decimal.uint) :
  forall n acc : Z,
    0 <= n -> n + Z.of_N (DecimalPos.Unsigned.usize d) < 18 ->
    string_to_unsigned_loop (wlit (NilEmpty.string_of_uint d)) n acc
    = acc * 10 ^ Z.of_N (DecimalPos.Unsigned.usize d) + Z.of_N (Pos.of_uint d).
Proof.
  induction d as [d IH] using (well_founded_induction
    (Wf_nat.well_founded_ltof _ (fun d => N.to_nat (DecimalPos.Unsigned.usize d)))).
  intros n acc Hn Hfit.
  destruct (Decimal.uint_eq_dec d Decimal.Nil) as [->|Hd].
  - cbn. lia.
  - destruct (string_of_uint_head d Hd) as (-> & H9 & Hs).
    pose proof (usize_tl_lt d Hd) as Hlt.
    rewrite (of_uint_head d Hd), Hs.
    cbn [string_to_unsigned_loop].
    replace (n + 1 <? 18) with true by (symmetry; apply Z.ltb_lt; lia).
    replace (48 <=? 48 + Z.of_N (DecimalPos.Unsigned.hd d)) with true
      by (symmetry; apply Z.leb_le; lia).
    replace (48 + Z.of_N (DecimalPos.Unsigned.hd d) <=? 57) with true
      by (symmetry; apply Z.leb_le; lia).
    cbn [andb].
    rewrite IH by (unfold ltof; lia || lia).
    rewrite N2Z.inj_add, N2Z.inj_mul, N2Z.inj_pow, N2Z.inj_succ, Z.pow_succ_r by lia.
    change (Z.of_N 10) with 10. ring.
Qed.

Lemma of_uint_lower (d : Decimal.uint) :
  d <> Decimal.Nil -> (1 <= DecimalPos.Unsigned.hd d)%N ->
  10 ^ (Z.of_N (DecimalPos.Unsigned.usize d) - 1) <= Z.of_N (Pos.of_uint d).
Proof.
  intros Hd H1. rewrite (of_uint_head d Hd).
  rewrite (proj2 (proj2 (string_of_uint_head d Hd))).
  rewrite N2Z.inj_add, N2Z.inj_mul, N2Z.inj_pow, N2Z.inj_succ.
  replace (Z.succ (Z.of_N (DecimalPos.Unsigned.usize (DecimalPos.Unsigned.tl d))) - 1)
    with (Z.of_N (DecimalPos.Unsigned.usize (DecimalPos.Unsigned.tl d))) by lia.
  change (Z.of_N 10) with 10.
  assert (0 < 10 ^ Z.of_N (DecimalPos.Unsigned.usize (DecimalPos.Unsigned.tl d)))
    by (apply Z.pow_pos_nonneg; lia).
  nia.
Qed.

Lemma to_uint_head (p : positive) :
  Pos.to_uint p <> Decimal.Nil /\ (1 <= DecimalPos.Unsigned.hd (Pos.to_uint p))%N.
Proof.
  pose proof (DecimalPos.Unsigned.to_uint_nonnil p) as Hnil.
  split; [exact Hnil|].
  pose proof (DecimalPos.Unsigned.to_of (Pos.to_uint p)) as Hn.
  rewrite DecimalPos.Unsigned.of_to in Hn. cbn [N.to_uint] in Hn.
  pose proof (DecimalPos.Unsigned.to_uint_nonzero p) as Hz.
  destruct (Pos.to_uint p) as [|u|u|u|u|u|u|u|u|u|u] eqn:E;
    cbn [DecimalPos.Unsigned.hd]; try lia; try congruence.
  exfalso. rewrite DecimalFacts.unorm_D0 in Hn. unfold Decimal.unorm in Hn.
  destruct (Decimal.nzhead u) eqn:Eu; try discriminate Hn.
  - injection Hn as ->. apply Hz. reflexivity.
  - exact (DecimalFacts.nzhead_nonzero _ _ Eu).
Qed.

Lemma to_uint_short (p : positive) :
  Z.pos p < 100000000000000000 ->
  Z.of_N (DecimalPos.Unsigned.usize (Pos.to_uint p)) <= 17.
Proof.
  intros Hp. destruct (to_uint_head p) as [Hd H1].
  pose proof (of_uint_lower _ Hd H1) as L.
  rewrite DecimalPos.Unsigned.of_to in L. cbn [Z.of_N] in L.
  destruct (Z_le_gt_dec (Z.of_N (DecimalPos.Unsigned.usize (Pos.to_uint p))) 17) as [|G];
    [assumption|exfalso].
  assert (10 ^ 17 <= 10 ^ (Z.of_N (DecimalPos.Unsigned.usize (Pos.to_uint p)) - 1))
    by (apply Z.pow_le_mono_r; lia).
  change (10 ^ 17) with 100000000000000000 in *. lia.
Qed.

Lemma fmt_d_pos (p : positive) :
  fmt_d (Z.pos p) = wlit (NilEmpty.string_of_uint (Pos.to_uint p)).
Proof.
  unfold fmt_d. cbn [Z.to_int NilZero.string_of_int]. unfold NilZero.string_of_uint.
  pose proof (DecimalPos.Unsigned.to_uint_nonnil p).
  destruct (Pos.to_uint p); [congruence | reflexivity ..].
Qed.

Lemma fmt_d_neg (p : positive) :
  fmt_d (Z.neg p) = 45 :: wlit (NilEmpty.string_of_uint (Pos.to_uint p)).
Proof.
  unfold fmt_d. cbn [Z.to_int NilZero.string_of_int]. rewrite wlit_String.
  unfold NilZero.string_of_uint.
  pose proof (DecimalPos.Unsigned.to_uint_nonnil p).
  destruct (Pos.to_uint p); [congruence | reflexivity ..].
Qed.

Lemma string_to_unsigned_pos (p : positive) :
  Z.pos p < 100000000000000000 ->
  string_to_unsigned (wlit (NilEmpty.string_of_uint (Pos.to_uint p))) = Z.pos p
  /\ exists k rest, wlit (NilEmpty.string_of_uint (Pos.to_uint p)) = k :: rest /\ 48 <= k.
Proof.
  intros Hp. destruct (to_uint_head p) as [Hd H1].
  pose proof (to_uint_short p Hp) as Hs.
  pose proof (parse_digits (Pos.to_uint p) 0 0 ltac:(lia) ltac:(lia)) as P.
  rewrite DecimalPos.Unsigned.of_to in P. cbn [Z.of_N] in P.
  destruct (string_of_uint_head _ Hd) as (E & _ & _).
  rewrite E in *. split.
  - unfold string_to_unsigned. rewrite P. lia.
  - eexists _, _. split; [reflexivity|lia].
Qed.

Lemma loop_rejects_long (sv : wstring) :
  forall n acc, 0 <= n < 18 -> 18 <= n + wlen sv ->
                string_to_unsigned_loop sv n acc = LLONG_MIN.
Proof.
  induction sv as [|c sv IH]; intros n acc Hn Hlen.
  - cbn in Hlen. lia.
  - cbn [string_to_unsigned_loop]. rewrite wlen_cons in Hlen.
    destruct (Z.ltb_spec (n + 1) 18); cbn [andb]; [|reflexivity].
    destruct ((48 <=? c) && (c <=? 57)); [|reflexivity].
    apply IH; lia.
Qed.

Lemma loop_rejects_other (sv : wstring) :
  forall n acc, forallb IsDigitCharacter sv = false ->
                string_to_unsigned_loop sv n acc = LLONG_MIN.
Proof.
  induction sv as [|c sv IH]; intros n acc H; [discriminate H|].
  cbn [string_to_unsigned_loop forallb] in *. unfold IsDigitCharacter in H at 1.
  destruct (n + 1 <? 18); cbn [andb]; [|reflexivity].
  destruct ((48 <=? c) && (c <=? 57)); cbn [andb] in *; [|reflexivity].
  now apply IH.
Qed.

(** X11. Reading back what [std::format] writes: [string_to_unsigned]
    recovers every [n] from 0 to 10^17 - 1 from its decimal form, and
    [string_to_signed] every [n] between -10^17 and 10^17; an empty string,
    a string of more than 17 characters and a string with a character that
    is no digit are answered with [LLONG_MIN]. *)
Theorem numbers_are_read_back :
  (forall n, 0 <= n < 100000000000000000 -> string_to_unsigned (fmt_d n) = n)
  /\ (forall n, - 100000000000000000 < n < 100000000000000000 ->
        string_to_signed (fmt_d n) = n)
  /\ (forall sv, sv = [] \/ 17 < wlen sv \/ forallb IsDigitCharacter sv = false ->
        string_to_unsigned sv = LLONG_MIN).
Proof.
  split; [|split].
  - intros [|p|p] Hn; [reflexivity | | lia].
    rewrite fmt_d_pos. apply string_to_unsigned_pos. lia.
  - intros [|p|p] Hn; [reflexivity | | ].
    + rewrite fmt_d_pos.
      destruct (string_to_unsigned_pos p ltac:(lia)) as (E & k & rest & Ek & Hk).
      unfold string_to_signed. rewrite Ek in *.
      replace (k =? 45) with false by (symmetry; apply Z.eqb_neq; lia).
      rewrite E. cbn. f_equal. lia.
    + rewrite fmt_d_neg.
      destruct (string_to_unsigned_pos p ltac:(lia)) as (E & _).
      unfold string_to_signed. cbn [Z.eqb Pos.eqb]. rewrite E. cbn. f_equal. lia.
  - intros sv [->|[H|H]]; [reflexivity | |].
    + unfold string_to_unsigned. destruct sv; [reflexivity|].
      apply loop_rejects_long; lia.
    + unfold string_to_unsigned. destruct sv; [reflexivity|].
      now apply loop_rejects_other.
Qed.

Lemma numbers_are_read_back_witness :
  string_to_unsigned (fmt_d 2026) = 2026 /\ string_to_signed (fmt_d (- 40)) = - 40.
Proof.
  split.
  - apply (proj1 numbers_are_read_back). lia.
  - apply (proj1 (proj2 numbers_are_read_back)). lia.
Defined.

End ParseFacts.

(* ------------------------------------------------------------------ *)
(** ** coord.h: positions and boxes *)

Section BoxFacts.
Import Coord ConsoleCMD.

Ltac short_arith :=
  unfold to_short, short_range in *; Z.div_mod_to_equations; lia.

Lemma to_short_range (z : Z) : short_range (to_short z).
Proof. short_arith. Qed.

Lemma to_short_twice (z : Z) : to_short (to_short z) = to_short z.
Proof. apply to_short_id, to_short_range. Qed.

Lemma coord_eq (c d : coord) : Row c = Row d -> Col c = Col d -> c = d.
Proof. destruct c, d. cbn. now intros -> ->. Qed.

(** X12. Adding and subtracting positions wrap around like the [short]s
    they are made of, so they undo each other on every pair of positions,
    also where the sum overflows; and [+] is commutative. *)
Theorem coord_add_and_sub_are_inverse (L R : coord) :
  wf_coord L -> wf_coord R ->
  coord_sub (coord_add L R) R = L
  /\ coord_add (coord_sub L R) R = L
  /\ coord_add L R = coord_add R L
  /\ wf_coord (coord_add L R) /\ wf_coord (coord_sub L R).
Proof.
  destruct L as [lr lc], R as [rr rc]. intros [H1 H2] [H3 H4]. cbn [Row Col] in *.
  unfold coord_sub, coord_add, coord_of, wf_coord. cbn [Row Col].
  repeat split; try apply to_short_range; try (apply coord_eq; cbn [Row Col]);
    try (f_equal; f_equal; lia); short_arith.
Qed.

Lemma coord_add_and_sub_are_inverse_witness :
  wf_coord (mk_coord 32767 5) /\ wf_coord (mk_coord 1 7)
  /\ coord_add (mk_coord 32767 5) (mk_coord 1 7) = mk_coord (-32768) 12
  /\ coord_sub (coord_add (mk_coord 32767 5) (mk_coord 1 7)) (mk_coord 1 7)
     = mk_coord 32767 5.
Proof.
  assert (H1 : wf_coord (mk_coord 32767 5)) by (vm_compute; intuition discriminate).
  assert (H2 : wf_coord (mk_coord 1 7)) by (vm_compute; intuition discriminate).
  split; [exact H1 | split; [exact H2 | split; [reflexivity|]]].
  exact (proj1 (coord_add_and_sub_are_inverse _ _ H1 H2)).
Defined.

Ltac no_if t :=
  lazymatch t with
  | context [if _ then _ else _] => fail
  | _ => idtac
  end.

Ltac cmp_cases :=
  rewrite ?Z.gtb_ltb, ?Z.geb_leb;
  repeat match goal with
         | |- context [if Z.ltb ?a ?b then _ else _] =>
             no_if a; no_if b; destruct (Z.ltb_spec a b); cbv iota
         | |- context [if Z.leb ?a ?b then _ else _] =>
             no_if a; no_if b; destruct (Z.leb_spec a b); cbv iota
         | |- context [if Z.eqb ?a ?b then _ else _] =>
             no_if a; no_if b; destruct (Z.eqb_spec a b); cbv iota
         end;
  repeat match goal with
         | |- context [Z.ltb ?a ?b] => destruct (Z.ltb_spec a b); cbv iota
         | |- context [Z.leb ?a ?b] => destruct (Z.leb_spec a b); cbv iota
         | |- context [Z.eqb ?a ?b] => destruct (Z.eqb_spec a b); cbv iota
         end.

(** X13. The comparison operators of positions order them by row, then
    by column: of [L < R], [L == R] and [L > R] exactly one holds; [<=],
    [>=] and [!=] are what these three give; [<] is transitive; and [==]
    holds of equal positions only. *)
Theorem coord_order_is_lexicographic (L R M : coord) :
  (coord_ltb L R = true <-> Row L < Row R \/ (Row L = Row R /\ Col L < Col R))
  /\ ((coord_ltb L R = true /\ coord_eqb L R = false /\ coord_gtb L R = false)
      \/ (coord_ltb L R = false /\ coord_eqb L R = true /\ coord_gtb L R = false)
      \/ (coord_ltb L R = false /\ coord_eqb L R = false /\ coord_gtb L R = true))
  /\ coord_leb L R = coord_ltb L R || coord_eqb L R
  /\ coord_geb L R = negb (coord_ltb L R)
  /\ coord_neb L R = negb (coord_eqb L R)
  /\ (coord_ltb L M = true -> coord_ltb M R = true -> coord_ltb L R = true)
  /\ (coord_eqb L R = true <-> L = R).
Proof.
  destruct L as [lr lc], R as [rr rc], M as [mr mc].
  unfold coord_gtb, coord_geb. unfold coord_ltb, coord_leb, coord_eqb, coord_neb.
  cbn [Row Col].
  repeat split.
  - cmp_cases; cbn [andb orb]; intros; try discriminate; lia.
  - intros H. cmp_cases; cbn [andb orb]; try reflexivity; lia.
  - cmp_cases; cbn [andb orb]; try lia; intuition congruence.
  - cmp_cases; cbn [andb orb negb]; try reflexivity; lia.
  - cmp_cases; cbn [andb orb negb]; try reflexivity; lia.
  - cmp_cases; cbn [andb orb negb]; try reflexivity; lia.
  - cmp_cases; cbn [andb orb]; intros; try discriminate; try reflexivity; lia.
  - cmp_cases; cbn [andb orb]; intros; try discriminate; f_equal; lia.
  - intros E. injection E as -> ->. now rewrite !Z.eqb_refl.
Qed.

Ltac move_cases :=
  repeat match goal with
         | |- context [if ?c then _ else _] => destruct c eqn:?; cbn [fst snd Row Col]
         end.

(** X14. [update_to] brings the tracked position to its target from
    every position, also where the difference wraps; it appends nothing
    when the position is the target already; and a target further down in
    the same column, by a difference that is a [short], costs one
    [MoveDown] by that difference. *)
Theorem coord_update_to_reaches_target (c C : coord) (Buff : wstring) :
  wf_coord c -> wf_coord C ->
  fst (update_to C (c, Buff)) = C
  /\ (c = C -> snd (update_to C (c, Buff)) = Buff)
  /\ (Row c < Row C -> Row C - Row c <= 32767 -> Col c = Col C ->
      snd (update_to C (c, Buff)) = MoveDownN Buff (Row C - Row c)).
Proof.
  destruct c as [r0 c0], C as [r1 c1]. intros [H1 H2] [H3 H4]. cbn [Row Col] in *.
  unfold update_to, move_by, move_col_by, move_row_by, move_up_n, move_down_n,
    move_left_n, move_right_n, coord_sub, coord_of.
  cbn [fst snd Row Col]. rewrite !to_short_twice.
  split; [|split].
  - move_cases; bool_cases; apply coord_eq; cbn [Row Col]; short_arith.
  - intros E. injection E as -> ->. rewrite !Z.sub_diag.
    change (to_short 0) with 0. reflexivity.
  - intros Hr Hd ->. rewrite Z.sub_diag. change (to_short 0) with 0.
    rewrite (to_short_id (r1 - r0)) by (unfold short_range in *; lia).
    cbn [Z.ltb Z.gtb Z.compare].
    replace (r1 - r0 <? 0) with false by (symmetry; apply Z.ltb_ge; lia).
    replace (r1 - r0 >? 0) with true by (symmetry; apply Z.gtb_lt; lia).
    reflexivity.
Qed.

Lemma coord_update_to_reaches_target_witness :
  wf_coord (mk_coord 3 4) /\ wf_coord (mk_coord 10 2)
  /\ fst (update_to (mk_coord 10 2) (mk_coord 3 4, [])) = mk_coord 10 2.
Proof.
  assert (H1 : wf_coord (mk_coord 3 4)) by (vm_compute; intuition discriminate).
  assert (H2 : wf_coord (mk_coord 10 2)) by (vm_compute; intuition discriminate).
  split; [exact H1 | split; [exact H2 |]].
  exact (proj1 (coord_update_to_reaches_target _ _ [] H1 H2)).
Defined.

(** X15. A box given a size has that size: after [set_size(NumRows,
    NumCols)] the top is where it was and [num_rows()] and [num_cols()]
    answer the two numbers, as long as the bottom the size asks for is a
    position ([short]s); [set_rows] and [set_cols] do the same for one
    direction each. *)
Theorem set_size_then_num_rows (bx : coord_box) (NumRows NumCols : Z) :
  wf_coord (Top bx) ->
  short_range (Row (Top bx) + NumRows - 1) -> short_range (Col (Top bx) + NumCols - 1) ->
  Top (set_size bx NumRows NumCols) = Top bx
  /\ num_rows (set_size bx NumRows NumCols) = NumRows
  /\ num_cols (set_size bx NumRows NumCols) = NumCols
  /\ num_rows (set_rows bx NumRows) = NumRows
  /\ num_cols (set_rows bx NumRows) = num_cols bx
  /\ num_cols (set_cols bx NumCols) = NumCols
  /\ num_rows (set_cols bx NumCols) = num_rows bx.
Proof.
  destruct bx as [[tr tc] [br bc]]. intros [H1 H2] H3 H4. cbn [Top Bottom Row Col] in *.
  unfold set_size, set_rows, set_cols, num_rows, num_cols, coord_sub, coord_add, coord_of.
  cbn [Top Bottom Row Col].
  repeat split; try reflexivity; try lia; short_arith.
Qed.

Lemma set_size_then_num_rows_witness :
  wf_coord (Top default_box)
  /\ num_rows (set_size default_box 1 40) = 1 /\ num_cols (set_size default_box 1 40) = 40.
Proof.
  assert (H1 : wf_coord (Top default_box)) by (vm_compute; intuition discriminate).
  assert (H2 : short_range (Row (Top default_box) + 1 - 1))
    by (vm_compute; intuition discriminate).
  assert (H3 : short_range (Col (Top default_box) + 40 - 1))
    by (vm_compute; intuition discriminate).
  destruct (set_size_then_num_rows default_box 1 40 H1 H2 H3) as (_ & E1 & E2 & _).
  exact (conj H1 (conj E1 E2)).
Defined.

Lemma inside_intersect (A B : coord_box) (p : coord) :
  inside (intersect A B) p <-> inside A p /\ inside B p.
Proof.
  unfold inside, intersect. cbn [Top Bottom Row Col].
  cmp_cases; lia.
Qed.

Lemma contains_intersect_l (A B : coord_box) : contains A (intersect A B) = true.
Proof.
  unfold contains, intersect. cbn [Top Bottom Row Col].
  cmp_cases; cbn [andb]; try reflexivity; lia.
Qed.

(** X16. [intersect] is the largest box inside both: a cell lies in
    [A.intersect(B)] exactly when it lies in [A] and in [B]; both contain
    the intersection, and it contains every box that both contain; it is
    commutative; and the sections [top_rows], [bottom_rows],
    [left_columns], [right_columns], [pad_rows] and [pad_cols] never reach
    outside the box they are cut from, whatever their arguments. *)
Theorem intersect_is_the_largest_common_box (A B : coord_box) :
  (forall p, inside (intersect A B) p <-> inside A p /\ inside B p)
  /\ contains A (intersect A B) = true
  /\ contains B (intersect A B) = true
  /\ (forall C, contains A C = true -> contains B C = true ->
                contains (intersect A B) C = true)
  /\ intersect A B = intersect B A
  /\ (forall n l r,
        contains A (top_rows A n l r) = true /\ contains A (bottom_rows A n l r) = true
        /\ contains A (left_columns A n l r) = true
        /\ contains A (right_columns A n l r) = true)
  /\ (forall l r, contains A (pad_rows A l r) = true /\ contains A (pad_cols A l r) = true).
Proof.
  split; [intros p; apply inside_intersect|].
  split; [apply contains_intersect_l|].
  split.
  { unfold contains, intersect. cbn [Top Bottom Row Col].
    cmp_cases; cbn [andb]; try reflexivity; lia. }
  split.
  { intros C. unfold contains, intersect. cbn [Top Bottom Row Col].
    cmp_cases; cbn [andb]; intros; try discriminate; try reflexivity; lia. }
  split.
  { unfold intersect. f_equal; f_equal; cmp_cases; lia. }
  split; intros; repeat split; apply contains_intersect_l.
Qed.

(** X17. Two boxes with at least one cell each are [disjoint] exactly
    when no cell lies in both, that is when their intersection has no
    row or no column; [disjoint] is symmetric; a box that [contains]
    another holds every cell of it, and is not disjoint from it. *)
Theorem disjoint_means_no_common_cell (A B : coord_box) :
  nonempty A -> nonempty B ->
  (disjoint A B = true <-> ~ exists p, inside A p /\ inside B p)
  /\ (disjoint A B = true <-> ~ nonempty (intersect A B))
  /\ disjoint A B = disjoint B A
  /\ (contains A B = true -> (forall p, inside B p -> inside A p) /\ disjoint A B = false)
  /\ partially_intersects A B = partially_intersects B A.
Proof.
  destruct A as [[atr atc] [abr abc]], B as [[btr btc] [bbr bbc]].
  unfold nonempty, num_rows, num_cols. cbn [Top Bottom Row Col].
  intros [HA1 HA2] [HB1 HB2].
  assert (Sym : forall X Y, disjoint X Y = disjoint Y X).
  { intros X Y. unfold disjoint. cmp_cases; cbn [orb]; try reflexivity; lia. }
  split; [|split; [|split; [|split]]].
  - unfold disjoint, inside. cbn [Top Bottom Row Col]. split.
    + intros H (p & HpA & HpB). revert H.
      cmp_cases; cbn [orb]; intros; try discriminate; lia.
    + intros H. cmp_cases; cbn [orb]; try reflexivity.
      exfalso. apply H. exists (mk_coord (Z.max atr btr) (Z.max atc btc)).
      cbn [Row Col]. lia.
  - unfold disjoint, nonempty, num_rows, num_cols, intersect. cbn [Top Bottom Row Col].
    split.
    + cmp_cases; cbn [orb]; intros; try discriminate; lia.
    + cmp_cases; cbn [orb]; intros Hne; try reflexivity; exfalso; apply Hne; lia.
  - apply Sym.
  - unfold contains, disjoint, inside. cbn [Top Bottom Row Col].
    cmp_cases; cbn [andb orb]; intros; try discriminate; (split; [intros; lia|]);
      try reflexivity; lia.
  - unfold partially_intersects. rewrite (Sym _ _).
    destruct (disjoint _ _), (contains _ _), (contains _ _); reflexivity.
Qed.

Lemma disjoint_means_no_common_cell_witness :
  let A := mk_box (mk_coord 0 0) (mk_coord 4 4) in
  let B := mk_box (mk_coord 0 5) (mk_coord 4 9) in
  nonempty A /\ nonempty B /\ disjoint A B = disjoint B A.
Proof.
  cbv zeta.
  assert (HA : nonempty (mk_box (mk_coord 0 0) (mk_coord 4 4)))
    by (vm_compute; intuition discriminate).
  assert (HB : nonempty (mk_box (mk_coord 0 5) (mk_coord 4 9)))
    by (vm_compute; intuition discriminate).
  split; [exact HA | split; [exact HB |]].
  exact (proj1 (proj2 (proj2 (disjoint_means_no_common_cell _ _ HA HB)))).
Defined.

(** X18. [normalize] is idempotent; it leaves no negative coordinate;
    and the box it gives has at least the rows and columns asked for, as
    long as that many fit below and right of the top. *)
Theorem normalize_is_idempotent (MinNumRows MinNumCols : Z) (bx : coord_box) :
  wf_box bx ->
  normalize MinNumRows MinNumCols (normalize MinNumRows MinNumCols bx)
  = normalize MinNumRows MinNumCols bx
  /\ 0 <= Row (Top (normalize MinNumRows MinNumCols bx))
  /\ 0 <= Col (Top (normalize MinNumRows MinNumCols bx))
  /\ 0 <= Row (Bottom (normalize MinNumRows MinNumCols bx))
  /\ 0 <= Col (Bottom (normalize MinNumRows MinNumCols bx))
  /\ (Row (Top (normalize MinNumRows MinNumCols bx)) + MinNumRows - 1 <= 32767 ->
      MinNumRows <= num_rows (normalize MinNumRows MinNumCols bx))
  /\ (Col (Top (normalize MinNumRows MinNumCols bx)) + MinNumCols - 1 <= 32767 ->
      MinNumCols <= num_cols (normalize MinNumRows MinNumCols bx)).
Proof.
  destruct bx as [[tr tc] [br bc]]. intros [[H1 H2] [H3 H4]]. cbn [Top Bottom Row Col] in *.
  unfold normalize, coord_normalize, num_rows, num_cols. cbn [Top Bottom Row Col].
  repeat split.
  - f_equal; [f_equal|f_equal]; cmp_cases; try lia; short_arith.
  - cmp_cases; lia.
  - cmp_cases; lia.
  - cmp_cases; try lia; short_arith.
  - cmp_cases; try lia; short_arith.
  - cmp_cases; intros; try lia; short_arith.
  - cmp_cases; intros; try lia; short_arith.
Qed.

Lemma normalize_is_idempotent_witness :
  let bx := mk_box (mk_coord (-1) (-1)) (mk_coord 2 2) in
  wf_box bx /\ normalize 5 1 (normalize 5 1 bx) = normalize 5 1 bx.
Proof.
  cbv zeta.
  assert (H : wf_box (mk_box (mk_coord (-1) (-1)) (mk_coord 2 2)))
    by (vm_compute; intuition discriminate).
  split; [exact H|]. exact (proj1 (normalize_is_idempotent 5 1 _ H)).
Defined.

(** X19. Moving a box keeps its size: [shift] and [move_top_to] leave
    [get_size()] as it was, [move_top_to] puts the top where it is told,
    shifting by a displacement and then by its opposite gives the box
    back, and moving the top to where it is changes nothing. *)
Theorem moving_a_box_keeps_its_size (bx : coord_box) (D NewTop : coord) :
  wf_box bx -> wf_coord D -> wf_coord NewTop ->
  get_size (shift bx D) = get_size bx
  /\ get_size (move_top_to bx NewTop) = get_size bx
  /\ Top (move_top_to bx NewTop) = NewTop
  /\ shift (shift bx D) (coord_sub (mk_coord 0 0) D) = bx
  /\ move_top_to bx (Top bx) = bx.
Proof.
  destruct bx as [[tr tc] [br bc]], D as [dr dc], NewTop as [nr nc].
  intros [[H1 H2] [H3 H4]] [H5 H6] [H7 H8]. cbn [Top Bottom Row Col] in *.
  unfold get_size, shift, move_top_to, coord_add_assign, coord_add, coord_sub, coord_of.
  cbn [Top Bottom Row Col]. rewrite !to_short_twice.
  repeat split.
  - apply coord_eq; cbn [Row Col]; short_arith.
  - apply coord_eq; cbn [Row Col]; short_arith.
  - f_equal; apply coord_eq; cbn [Row Col]; short_arith.
  - f_equal; apply coord_eq; cbn [Row Col]; short_arith.
Qed.

Lemma moving_a_box_keeps_its_size_witness :
  let bx := mk_box (mk_coord 2 3) (mk_coord 11 42) in
  wf_box bx /\ wf_coord (mk_coord 5 5)
  /\ get_size (shift bx (mk_coord 5 5)) = get_size bx.
Proof.
  cbv zeta.
  assert (H : wf_box (mk_box (mk_coord 2 3) (mk_coord 11 42)))
    by (vm_compute; intuition discriminate).
  assert (HD : wf_coord (mk_coord 5 5)) by (vm_compute; intuition discriminate).
  split; [exact H | split; [exact HD |]].
  exact (proj1 (moving_a_box_keeps_its_size _ _ _ H HD HD)).
Defined.

(** X20. [center_box] centres: for a size that fits, the child has the
    rows and columns asked for, lies inside the box, and the margin below
    it (right of it) is the margin above it (left of it) or one more. *)
Theorem center_box_is_centred (bx : coord_box) (NumRows NumColumns : Z) :
  wf_box bx ->
  1 <= NumRows <= num_rows bx -> 1 <= NumColumns <= num_cols bx ->
  let child := center_box bx NumRows NumColumns in
  num_rows child = NumRows /\ num_cols child = NumColumns
  /\ contains bx child = true
  /\ 0 <= (Row (Bottom bx) - Row (Bottom child)) - (Row (Top child) - Row (Top bx)) <= 1
  /\ 0 <= (Col (Bottom bx) - Col (Bottom child)) - (Col (Top child) - Col (Top bx)) <= 1.
Proof.
  destruct bx as [[tr tc] [br bc]].
  unfold wf_box, wf_coord, num_rows, num_cols. cbn [Top Bottom Row Col].
  intros [[H1 H2] [H3 H4]] HR HC. cbv zeta.
  unfold center_box, contains, num_rows, num_cols, coord_add, coord_of.
  cbn [Top Bottom Row Col]. rewrite !to_short_twice.
  rewrite !Z.quot_div_nonneg by lia.
  assert (Qr : 0 <= (br - tr - NumRows + 1) / 2 <= br - tr - NumRows + 1)
    by (split; [apply Z.div_pos; lia | apply Z.div_le_upper_bound; lia]).
  assert (Qc : 0 <= (bc - tc - NumColumns + 1) / 2 <= bc - tc - NumColumns + 1)
    by (split; [apply Z.div_pos; lia | apply Z.div_le_upper_bound; lia]).
  assert (Er : to_short (tr + (br - tr - NumRows + 1) / 2) = tr + (br - tr - NumRows + 1) / 2)
    by (apply to_short_id; unfold short_range in *; lia).
  assert (Ec : to_short (tc + (bc - tc - NumColumns + 1) / 2)
               = tc + (bc - tc - NumColumns + 1) / 2)
    by (apply to_short_id; unfold short_range in *; lia).
  rewrite Er, Ec.
  pose proof (Z.div_mod (br - tr - NumRows + 1) 2 ltac:(lia)) as Dr.
  pose proof (Z.mod_pos_bound (br - tr - NumRows + 1) 2 ltac:(lia)) as Mr.
  pose proof (Z.div_mod (bc - tc - NumColumns + 1) 2 ltac:(lia)) as Dc.
  pose proof (Z.mod_pos_bound (bc - tc - NumColumns + 1) 2 ltac:(lia)) as Mc.
  set (qr := (br - tr - NumRows + 1) / 2) in *.
  set (qc := (bc - tc - NumColumns + 1) / 2) in *.
  set (mr := (br - tr - NumRows + 1) mod 2) in *.
  set (mc := (bc - tc - NumColumns + 1) mod 2) in *.
  assert (Br : to_short (tr + qr + to_short (NumRows - 1)) = tr + qr + NumRows - 1)
    by short_arith.
  assert (Bc : to_short (tc + qc + to_short (NumColumns - 1)) = tc + qc + NumColumns - 1)
    by short_arith.
  rewrite Br, Bc.
  repeat split; lia.
Qed.

Lemma center_box_is_centred_witness :
  let bx := mk_box (mk_coord 0 0) (mk_coord 23 79) in
  wf_box bx /\ num_rows (center_box bx 10 50) = 10 /\ num_cols (center_box bx 10 50) = 50.
Proof.
  cbv zeta.
  assert (H : wf_box (mk_box (mk_coord 0 0) (mk_coord 23 79)))
    by (vm_compute; intuition discriminate).
  assert (HR : 1 <= 10 <= num_rows (mk_box (mk_coord 0 0) (mk_coord 23 79)))
    by (vm_compute; intuition discriminate).
  assert (HC : 1 <= 50 <= num_cols (mk_box (mk_coord 0 0) (mk_coord 23 79)))
    by (vm_compute; intuition discriminate).
  destruct (center_box_is_centred _ 10 50 H HR HC) as (E1 & E2 & _).
  exact (conj H (conj E1 E2)).
Defined.

End BoxFacts.

(* ------------------------------------------------------------------ *)
(** ** InputControl.h: the loops that shift the text *)

Section SpliceFacts.
Import InputControl ConsoleCMD.

Lemma nth_wset_nat (T : wstring) (i : nat) (v : wchar) (j : nat) :
  nth j (wset_nat T i v) 0
  = if (Nat.eqb j i && Nat.ltb i (List.length T))%bool then v else nth j T 0.
Proof.
  revert i j. induction T as [|h T IH]; intros [|i] [|j]; cbn [wset_nat nth List.length];
    try reflexivity.
  - rewrite Nat.eqb_sym. cbn. now destruct (Nat.eqb _ _).
  - rewrite IH. cbn [Nat.eqb]. change (Nat.ltb (S i) (S (List.length T))) with (Nat.ltb i (List.length T)).
    reflexivity.
Qed.

Lemma wget_wset (T : wstring) (i : Z) (v : wchar) (j : Z) :
  0 <= i < wlen T -> 0 <= j ->
  wget (wset T i v) j = if j =? i then v else wget T j.
Proof.
  unfold wlen, wget, wset. intros Hi Hj.
  replace (i <? 0) with false by (symmetry; apply Z.ltb_ge; lia).
  rewrite nth_wset_nat.
  replace (Nat.ltb (Z.to_nat i) (List.length T)) with true
    by (symmetry; apply Nat.ltb_lt; lia).
  rewrite andb_true_r.
  destruct (Z.eqb_spec j i) as [->|Hne].
  - now rewrite Nat.eqb_refl.
  - replace (Nat.eqb (Z.to_nat j) (Z.to_nat i)) with false
      by (symmetry; apply Nat.eqb_neq; lia).
    reflexivity.
Qed.

(** The loop that moves a range of characters one place left. *)
Lemma for_up_moves_left (d : Z) (n : nat) :
  forall (i : Z) (T : wstring),
    0 <= i + d -> i + d + Z.of_nat n < wlen T ->
    forall j, 0 <= j ->
      wget (for_up n i (fun i U => wset U (i + d) (wget U (i + d + 1))) T) j
      = if (i + d <=? j) && (j <? i + d + Z.of_nat n) then wget T (j + 1) else wget T j.
Proof.
  induction n as [|n IH]; intros i T H0 Hn j Hj.
  - cbn [for_up]. destruct (Z.leb_spec (i + d) j), (Z.ltb_spec j (i + d + Z.of_nat 0));
      cbn [andb]; try reflexivity; lia.
  - cbn [for_up]. rewrite IH by (rewrite ?wlen_wset; lia).
    rewrite !wget_wset by lia.
    destruct (Z.leb_spec (i + 1 + d) j), (Z.ltb_spec j (i + 1 + d + Z.of_nat n)),
      (Z.leb_spec (i + d) j), (Z.ltb_spec j (i + d + Z.of_nat (S n)));
      cbn [andb]; try lia;
      repeat match goal with
             | |- context [Z.eqb ?a ?b] => destruct (Z.eqb_spec a b)
             end; try lia; try reflexivity; f_equal; lia.
Qed.

(** The loop that moves a range of characters one place right. *)
Lemma for_down_moves_right (n : nat) :
  forall (i : Z) (T : wstring),
    0 <= i - Z.of_nat n -> i < wlen T ->
    forall j, 0 <= j ->
      wget (for_down n i (fun i U => wset U i (wget U (i - 1))) T) j
      = if (i - Z.of_nat n <? j) && (j <=? i) then wget T (j - 1) else wget T j.
Proof.
  induction n as [|n IH]; intros i T H0 Hn j Hj.
  - cbn [for_down]. destruct (Z.ltb_spec (i - Z.of_nat 0) j), (Z.leb_spec j i);
      cbn [andb]; try reflexivity; lia.
  - cbn [for_down]. rewrite IH by (rewrite ?wlen_wset; lia).
    destruct (Z.ltb_spec (i - 1 - Z.of_nat n) j), (Z.leb_spec j (i - 1)),
      (Z.ltb_spec (i - Z.of_nat (S n)) j), (Z.leb_spec j i);
      cbn [andb]; try lia; rewrite !wget_wset by lia;
      repeat match goal with
             | |- context [Z.eqb ?a ?b] => destruct (Z.eqb_spec a b)
             end; try lia; try reflexivity; f_equal; lia.
Qed.

Lemma wstring_ext (A B : wstring) :
  wlen A = wlen B -> (forall j, 0 <= j < wlen A -> wget A j = wget B j) -> A = B.
Proof.
  unfold wlen, wget. intros HL H. apply (nth_ext A B 0 0); [lia|].
  intros n Hn. specialize (H (Z.of_nat n) ltac:(lia)). now rewrite Nat2Z.id in H.
Qed.

Lemma wget_app (A B : wstring) (j : Z) :
  0 <= j -> wget (A ++ B) j = if j <? wlen A then wget A j else wget B (j - wlen A).
Proof.
  unfold wget, wlen. intros Hj.
  destruct (Z.ltb_spec j (Z.of_nat (List.length A))).
  - apply app_nth1. lia.
  - rewrite app_nth2 by lia. f_equal. lia.
Qed.

Lemma wget_firstn (T : wstring) (k j : Z) :
  0 <= j < k -> wget (firstn (Z.to_nat k) T) j = wget T j.
Proof.
  unfold wget. intros Hj. rewrite nth_firstn.
  replace (Nat.ltb (Z.to_nat j) (Z.to_nat k)) with true by (symmetry; apply Nat.ltb_lt; lia).
  reflexivity.
Qed.

Lemma wget_skipn (T : wstring) (k j : Z) :
  0 <= k -> 0 <= j -> wget (skipn (Z.to_nat k) T) j = wget T (k + j).
Proof.
  unfold wget. intros Hk Hj. rewrite nth_skipn. f_equal. lia.
Qed.

Lemma wlen_firstn (T : wstring) (k : Z) :
  0 <= k <= wlen T -> wlen (firstn (Z.to_nat k) T) = k.
Proof. unfold wlen. intros H. rewrite length_firstn. lia. Qed.

Lemma wlen_skipn (T : wstring) (k : Z) :
  0 <= k <= wlen T -> wlen (skipn (Z.to_nat k) T) = wlen T - k.
Proof. unfold wlen. intros H. rewrite length_skipn. lia. Qed.

Lemma removelast_firstn_wlen (T : wstring) :
  removelast T = firstn (Z.to_nat (wlen T - 1)) T.
Proof.
  unfold wlen. destruct T as [|h T]; [reflexivity|].
  rewrite removelast_firstn_len. f_equal. cbn [List.length]. lia.
Qed.

Lemma for_up_ext {S : Type} (f g : Z -> S -> S) (n : nat) (i : Z) (s : S) :
  (forall j u, f j u = g j u) -> for_up n i f s = for_up n i g s.
Proof.
  intros H. revert i s. induction n as [|n IH]; intros i s; cbn [for_up]; [reflexivity|].
  now rewrite H, IH.
Qed.

Lemma erase_before_splice (T : wstring) (p : Z) :
  1 <= p <= wlen T ->
  erase_before T p = firstn (Z.to_nat (p - 1)) T ++ skipn (Z.to_nat p) T.
Proof.
  intros Hp. unfold erase_before.
  rewrite (for_up_ext _ (fun i U => wset U (i + -1) (wget U (i + -1 + 1))))
    by (intros k u; replace (k + -1 + 1) with k by lia;
        now replace (k + -1) with (k - 1) by lia).
  set (U := for_up _ _ _ T).
  assert (HU : wlen U = wlen T) by (apply wlen_for_up; intros; apply wlen_wset).
  rewrite removelast_firstn_wlen. rewrite HU.
  apply wstring_ext.
  - rewrite wlen_app, !wlen_firstn, wlen_skipn by lia. lia.
  - rewrite wlen_firstn by lia. intros j Hj.
    rewrite wget_firstn by lia. unfold U.
    rewrite for_up_moves_left by lia.
    rewrite wget_app, wlen_firstn by lia.
    destruct (Z.leb_spec (p + -1) j), (Z.ltb_spec j (p + -1 + Z.of_nat (Z.to_nat (wlen T - p)))),
      (Z.ltb_spec j (p - 1)); cbn [andb]; try lia.
    + rewrite wget_skipn by lia. f_equal. lia.
    + now rewrite wget_firstn by lia.
Qed.

Lemma erase_at_splice (T : wstring) (p : Z) :
  0 <= p < wlen T ->
  erase_at T p = firstn (Z.to_nat p) T ++ skipn (Z.to_nat (p + 1)) T.
Proof.
  intros Hp. unfold erase_at.
  rewrite (for_up_ext _ (fun i U => wset U (i + 0) (wget U (i + 0 + 1))))
    by (intros k u; now rewrite Z.add_0_r).
  set (U := for_up _ _ _ T).
  assert (HU : wlen U = wlen T) by (apply wlen_for_up; intros; apply wlen_wset).
  rewrite removelast_firstn_wlen. rewrite HU.
  apply wstring_ext.
  - rewrite wlen_app, !wlen_firstn, wlen_skipn by lia. lia.
  - rewrite wlen_firstn by lia. intros j Hj.
    rewrite wget_firstn by lia. unfold U.
    rewrite for_up_moves_left by lia.
    rewrite wget_app, wlen_firstn by lia.
    destruct (Z.leb_spec (p + 0) j),
      (Z.ltb_spec j (p + 0 + Z.of_nat (Z.to_nat (wlen T - 1 - p)))),
      (Z.ltb_spec j p); cbn [andb]; try lia.
    + rewrite wget_skipn by lia. f_equal. lia.
    + now rewrite wget_firstn by lia.
Qed.

Lemma insert_at_splice (T : wstring) (p x : Z) :
  0 <= p < wlen T ->
  insert_at T p x = firstn (Z.to_nat p) T ++ [to_wchar x] ++ skipn (Z.to_nat p) T.
Proof.
  intros Hp. unfold insert_at. cbv zeta.
  set (T1 := T ++ [last T 0]).
  assert (H1 : wlen T1 = wlen T + 1) by (unfold T1; now rewrite wlen_app).
  match goal with |- context [for_down ?n ?i ?b T1] => set (U := for_down n i b T1) end.
  assert (HU : wlen U = wlen T1) by (apply wlen_for_down; intros; apply wlen_wset).
  apply wstring_ext.
  - rewrite wlen_wset, HU, H1, !wlen_app, wlen_firstn, wlen_skipn by lia.
    change (wlen [to_wchar x]) with 1. lia.
  - rewrite wlen_wset, HU, H1. intros j Hj.
    rewrite wget_wset by lia.
    rewrite !wget_app, wlen_firstn by lia. change (wlen [to_wchar x]) with 1.
    destruct (Z.eqb_spec j p) as [->|Hne].
    + replace (p <? p) with false by (symmetry; apply Z.ltb_ge; lia).
      rewrite Z.sub_diag. reflexivity.
    + unfold U. rewrite for_down_moves_right by lia.
      rewrite H1.
      destruct (Z.ltb_spec (wlen T + 1 - 1 - Z.of_nat (Z.to_nat (wlen T + 1 - 1 - p))) j),
        (Z.leb_spec j (wlen T + 1 - 1)), (Z.ltb_spec j p);
        cbn [andb]; try lia.
      * rewrite wget_app by lia. change (wlen [to_wchar x]) with 1.
        replace (j - p <? 1) with false by (symmetry; apply Z.ltb_ge; lia).
        rewrite wget_skipn by lia. unfold T1. rewrite wget_app by lia.
        replace (j - 1 <? wlen T) with true by (symmetry; apply Z.ltb_lt; lia).
        f_equal. lia.
      * rewrite wget_firstn by lia. unfold T1. rewrite wget_app by lia.
        replace (j <? wlen T) with true by (symmetry; apply Z.ltb_lt; lia).
        reflexivity.
Qed.

End SpliceFacts.

(* ------------------------------------------------------------------ *)
(** ** InputControl.h: the edit state under every key *)

Section EditFacts.
Import InputControl ConsoleCMD.

(** The fields a key handler reads, through the writers to the terminal. *)
Ltac edit_fields :=
  cbn [Area Text BeginIndex BeginOffset MaxLength InsertOn wc Color
       set_Text set_BeginIndex set_BeginOffset set_bf set_InsertOn emit set_stdout
       write_shape write_bblock_shape write_bunder_shape write_bbar_shape
       write_right_bbar write_right_bbar_n write_left write_left_and_shape] in *.

Ltac printed_as s1 HT :=
  match goal with
  | |- context [print_and_display_cursor ?X] =>
      let E := fresh "E" in
      destruct (print_and_display_cursor_total X) as (s1 & E & HT);
      [ unfold printable; edit_fields | rewrite E; cbn [bind] ]
  end.

Ltac use_printed :=
  repeat match goal with
         | HT : Text _ = _ /\ _ |- _ =>
             let a := fresh "P" in let b := fresh "P" in let c := fresh "P" in
             let d := fresh "P" in let e := fresh "P" in let f := fresh "P" in
             let g := fresh "P" in
             destruct HT as (a & b & c & d & e & f & g);
             rewrite ?a, ?b, ?c, ?d, ?e, ?f, ?g
         end.

Ltac split_ifs :=
  repeat match goal with
         | |- context [if ?c then _ else _] => destruct c eqn:?
         end.

Lemma box_length_cases (s : t) :
  box_length s = Z.min (Coord.num_cols (Area s)) (MaxLength s).
Proof. unfold box_length. destruct (Z.leb_spec (Coord.num_cols (Area s)) (MaxLength s)); lia. Qed.

Lemma process_control_keys_keeps (x : Z) (s : t) :
  int_range (MaxLength s) -> text_edit_invariant s -> 0 < box_length s ->
  exists b s',
    process_control_keys x s = Some (b, s')
    /\ (b = false -> s' = s)
    /\ text_edit_invariant s' /\ MaxLength s' = MaxLength s /\ Area s' = Area s.
Proof.
  intros HM (H1 & H2 & H3 & H4) HB.
  assert (EI : to_int (wlen (Text s)) = wlen (Text s)).
  { apply to_int_id. pose proof (wlen_nonneg (Text s)). unfold int_range in *. lia. }
  pose proof (wlen_nonneg (Text s)) as HL.
  pose proof (box_length_cases s) as EB.
  unfold process_control_keys. rewrite !EI.
  set (BL := box_length s) in *.
  split_ifs; bool_cases; edit_fields.
  all: try (let s1 := fresh "s" in let HT := fresh "HT" in printed_as s1 HT).
  all: try (rewrite ?wlen_erase_before, ?wlen_erase_at by lia; lia).
  all: eexists; eexists; (split; [reflexivity|]); (split; [congruence|]).
  all: unfold text_edit_invariant; use_printed; edit_fields.
  all: rewrite ?wlen_erase_before, ?wlen_erase_at by lia.
  all: unfold write_shape, write_left_and_shape; split_ifs; edit_fields.
  all: repeat split; try reflexivity; lia.
Qed.

Lemma insert_character_keeps (x : Z) (s : t) :
  int_range (MaxLength s) -> text_edit_invariant s -> 0 < box_length s ->
  exists b s',
    insert_character x s = Some (b, s')
    /\ text_edit_invariant s' /\ MaxLength s' = MaxLength s /\ Area s' = Area s.
Proof.
  intros HM (H1 & H2 & H3 & H4) HB.
  assert (EI : to_int (wlen (Text s)) = wlen (Text s)).
  { apply to_int_id. pose proof (wlen_nonneg (Text s)). unfold int_range in *. lia. }
  pose proof (wlen_nonneg (Text s)) as HL.
  pose proof (box_length_cases s) as EB.
  unfold insert_character. rewrite !EI.
  set (BL := box_length s) in *.
  split_ifs; bool_cases; edit_fields.
  all: try (let s1 := fresh "s" in let HT := fresh "HT" in printed_as s1 HT).
  all: try (rewrite ?wlen_wset, ?wlen_insert_at, ?wlen_app; change (wlen [to_wchar x]) with 1;
            lia).
  all: eexists; eexists; (split; [reflexivity|]).
  all: unfold text_edit_invariant; use_printed; edit_fields.
  all: rewrite ?wlen_wset, ?wlen_insert_at, ?wlen_app; change (wlen [to_wchar x]) with 1.
  all: repeat split; try reflexivity; lia.
Qed.

Lemma invariant_is_valid (s : t) :
  int_range (MaxLength s) -> text_edit_invariant s -> invalid_state s = false.
Proof.
  intros HM (H1 & H2 & H3 & H4).
  assert (EI : to_int (wlen (Text s)) = wlen (Text s)).
  { apply to_int_id. pose proof (wlen_nonneg (Text s)). unfold int_range in *. lia. }
  unfold invalid_state. rewrite EI.
  repeat (apply orb_false_iff; split);
    first [apply Z.ltb_ge | rewrite Z.gtb_ltb; apply Z.ltb_ge]; lia.
Qed.

Lemma insert_keeps (x : Z) (s : t) :
  int_range (MaxLength s) -> text_edit_invariant s -> 0 < box_length s ->
  exists b s',
    insert x s = Ok (b, s')
    /\ text_edit_invariant s' /\ MaxLength s' = MaxLength s /\ Area s' = Area s.
Proof.
  intros HM Hinv HB. unfold insert. rewrite (invariant_is_valid s HM Hinv).
  destruct (process_control_keys_keeps x s HM Hinv HB) as (b & s' & -> & Hs & Hk).
  destruct b; [eauto|].
  rewrite (Hs eq_refl).
  destruct (insert_character_keeps x s HM Hinv HB) as (b & s'' & -> & Hc).
  cbn [lift]. eauto.
Qed.

(** X21. No sequence of keys breaks a field that has room for a
    character: from a state that satisfies the text-edit invariant, with
    a box length of at least 1, every key of every sequence is answered
    ([insert] neither throws nor lets an exception escape), and the state
    after the last key satisfies the invariant again, with the area and
    the maximum length it had. *)
Theorem keys_never_break_the_field (keys : list Z) (s : t) :
  int_range (MaxLength s) -> text_edit_invariant s -> 0 < box_length s ->
  exists answers s',
    type_keys keys s = Ok (answers, s')
    /\ List.length answers = List.length keys
    /\ text_edit_invariant s' /\ MaxLength s' = MaxLength s /\ Area s' = Area s.
Proof.
  revert s. induction keys as [|x keys IH]; intros s HM Hinv HB.
  - exists [], s. cbn. auto.
  - destruct (insert_keeps x s HM Hinv HB) as (b & s1 & E1 & Hinv1 & HM1 & HA1).
    assert (HB1 : 0 < box_length s1) by (unfold box_length in *; now rewrite HM1, HA1).
    assert (HM' : int_range (MaxLength s1)) by now rewrite HM1.
    destruct (IH s1 HM' Hinv1 HB1) as (bs & s2 & E2 & HL & Hinv2 & HM2 & HA2).
    exists (b :: bs), s2. cbn [type_keys]. rewrite E1, E2. cbn [List.length].
    split; [reflexivity|]. split; [congruence|]. split; [exact Hinv2|].
    split; congruence.
Qed.

Lemma keys_never_break_the_field_witness :
  exists s : t,
    field 5 10 = Some s
    /\ text_edit_invariant s
    /\ exists answers s',
         type_keys [65; LEFTKEY; BACKSPACEKEY; 66; HOMEKEY; DELETEKEY; ENDKEY; 91] s
         = Ok (answers, s')
         /\ text_edit_invariant s'.
Proof.
  eexists. split; [vm_compute; reflexivity|].
  match goal with
  | |- text_edit_invariant ?x /\ _ =>
      assert (Hinv : text_edit_invariant x) by (vm_compute; intuition discriminate);
      assert (HM : int_range (MaxLength x)) by (vm_compute; intuition discriminate);
      assert (HB : 0 < box_length x) by (vm_compute; reflexivity);
      split; [exact Hinv|];
      destruct (keys_never_break_the_field
                  [65; LEFTKEY; BACKSPACEKEY; 66; HOMEKEY; DELETEKEY; ENDKEY; 91]
                  x HM Hinv HB) as (answers & s' & E & _ & Hinv' & _);
      exists answers, s'; split; [exact E | exact Hinv']
  end.
Defined.

(** X22. A field whose box length is 0 (that of an [InputControl] as
    constructed, before [set_size]) is broken by one key: LEFT is
    answered [true] and leaves [BeginOffset] at -1, and every call of
    [insert] after it throws [std::logic_error]. *)
Theorem left_key_breaks_a_field_without_room (s : t) :
  int_range (MaxLength s) -> text_edit_invariant s -> box_length s = 0 ->
  exists s',
    insert LEFTKEY s = Ok (true, s')
    /\ BeginOffset s' = -1
    /\ (forall x, insert x s' = Throw_logic_error)
    /\ (forall x, type_keys [LEFTKEY; x] s = Throw_logic_error).
Proof.
  intros HM Hinv HB. pose proof Hinv as (H1 & H2 & H3 & H4).
  pose proof (wlen_nonneg (Text s)) as HL.
  pose proof (box_length_cases s) as EB.
  assert (H0 : BeginOffset s = 0) by lia.
  assert (E : insert LEFTKEY s
              = Ok (true, write_left_and_shape (set_BeginOffset s (BeginOffset s - 1)))).
  { unfold insert. rewrite (invariant_is_valid s HM Hinv).
    unfold process_control_keys.
    cbn [Z.eqb LEFTKEY BACKSPACEKEY HOMEKEY Z.lor Z.shiftl Pos.eqb Z.shiftl Pos.iter
         Pos.lor Pos.shiftl].
    change (LEFTKEY =? BACKSPACEKEY) with false. change (LEFTKEY =? HOMEKEY) with false.
    change (LEFTKEY =? LEFTKEY) with true. cbv iota.
    rewrite HB, H0. cbn [Z.eqb]. reflexivity. }
  eexists. split; [exact E|].
  assert (Off : BeginOffset (write_left_and_shape (set_BeginOffset s (BeginOffset s - 1)))
                = -1).
  { unfold write_left_and_shape. destruct (InsertOn _); edit_fields; lia. }
  assert (T : forall x, insert x (write_left_and_shape
                                    (set_BeginOffset s (BeginOffset s - 1)))
                        = Throw_logic_error).
  { intros x. unfold insert, invalid_state. rewrite Off.
    cbn [Z.ltb Z.compare]. rewrite orb_true_r. reflexivity. }
  split; [exact Off|]. split; [exact T|].
  intros x. cbn [type_keys]. rewrite E, T. reflexivity.
Qed.

Lemma left_key_breaks_a_field_without_room_witness :
  exists s : t,
    create = Some s /\ box_length s = 0
    /\ type_keys [LEFTKEY; 65] s = Throw_logic_error.
Proof.
  eexists. split; [vm_compute; reflexivity|].
  match goal with
  | |- box_length ?x = 0 /\ _ =>
      assert (Hinv : text_edit_invariant x) by (vm_compute; intuition discriminate);
      assert (HM : int_range (MaxLength x)) by (vm_compute; intuition discriminate);
      assert (HB : box_length x = 0) by (vm_compute; reflexivity);
      split; [exact HB|];
      destruct (left_key_breaks_a_field_without_room x HM Hinv HB) as (s' & _ & _ & _ & T);
      exact (T 65)
  end.
Defined.

Ltac is_key k :=
  match k with
  | BACKSPACEKEY => idtac | HOMEKEY => idtac | ENDKEY => idtac | LEFTKEY => idtac
  | RIGHTKEY => idtac | INSERTKEY => idtac | DELETEKEY => idtac
  end.

Ltac other_key :=
  match goal with
  | H : ?a = ?b |- _ => is_key a; is_key b; vm_compute in H; discriminate H
  | H : ?a <> ?a |- _ => now elim H
  end.

Lemma key_values :
  BACKSPACEKEY = 8 /\ HOMEKEY = 4653280 /\ ENDKEY = 5177568 /\ LEFTKEY = 4915424
  /\ RIGHTKEY = 5046496 /\ INSERTKEY = 5374176 /\ DELETEKEY = 5439712.
Proof. repeat split; reflexivity. Qed.

Lemma splice_nothing_before (T : wstring) :
  firstn (Z.to_nat (0 - 1)) T ++ skipn (Z.to_nat 0) T = T.
Proof. reflexivity. Qed.

Lemma splice_nothing_after (T : wstring) :
  firstn (Z.to_nat (wlen T)) T ++ skipn (Z.to_nat (wlen T + 1)) T = T.
Proof.
  unfold wlen. rewrite Nat2Z.id, firstn_all, skipn_all2, app_nil_r by lia. reflexivity.
Qed.

Lemma control_keys_move_the_cursor (x : Z) (s : t) :
  int_range (MaxLength s) -> text_edit_invariant s -> 0 < box_length s ->
  exists b s',
    process_control_keys x s = Some (b, s')
    /\ InsertOn s' = (if x =? INSERTKEY then negb (InsertOn s) else InsertOn s)
    /\ (32 <= x <= 126 -> b = false /\ s' = s)
    /\ (x = LEFTKEY ->
        b = true /\ Text s' = Text s
        /\ BeginIndex s' + BeginOffset s' = Z.max 0 (BeginIndex s + BeginOffset s - 1))
    /\ (x = RIGHTKEY ->
        b = true /\ Text s' = Text s
        /\ BeginIndex s' + BeginOffset s'
           = Z.min (wlen (Text s)) (BeginIndex s + BeginOffset s + 1))
    /\ (x = HOMEKEY ->
        b = true /\ Text s' = Text s /\ BeginIndex s' = 0 /\ BeginOffset s' = 0)
    /\ (x = ENDKEY ->
        b = true /\ Text s' = Text s
        /\ BeginIndex s' + BeginOffset s' = wlen (Text s))
    /\ (x = INSERTKEY ->
        b = true /\ Text s' = Text s
        /\ BeginIndex s' = BeginIndex s /\ BeginOffset s' = BeginOffset s)
    /\ (x = BACKSPACEKEY ->
        b = true
        /\ Text s' = firstn (Z.to_nat (BeginIndex s + BeginOffset s - 1)) (Text s)
                     ++ skipn (Z.to_nat (BeginIndex s + BeginOffset s)) (Text s)
        /\ BeginIndex s' + BeginOffset s' = Z.max 0 (BeginIndex s + BeginOffset s - 1))
    /\ (x = DELETEKEY ->
        b = true
        /\ Text s' = firstn (Z.to_nat (BeginIndex s + BeginOffset s)) (Text s)
                     ++ skipn (Z.to_nat (BeginIndex s + BeginOffset s + 1)) (Text s)
        /\ BeginIndex s' + BeginOffset s' = BeginIndex s + BeginOffset s).
Proof.
  intros HM (H1 & H2 & H3 & H4) HB.
  assert (EI : to_int (wlen (Text s)) = wlen (Text s)).
  { apply to_int_id. pose proof (wlen_nonneg (Text s)). unfold int_range in *. lia. }
  pose proof (wlen_nonneg (Text s)) as HL.
  pose proof (box_length_cases s) as EB.
  destruct key_values as (K1 & K2 & K3 & K4 & K5 & K6 & K7).
  unfold process_control_keys. rewrite !EI.
  set (BL := box_length s) in *.
  split_ifs; bool_cases; edit_fields.
  all: try (let s1 := fresh "s" in let HT := fresh "HT" in printed_as s1 HT).
  all: try (rewrite ?wlen_erase_before, ?wlen_erase_at by lia; lia).
  all: eexists; eexists; (split; [reflexivity|]).
  all: use_printed; edit_fields.
  all: unfold write_shape, write_left_and_shape; split_ifs; edit_fields.
  all: repeat split; intros; try reflexivity; try lia.
  all: try (rewrite erase_before_splice by lia; reflexivity).
  all: try (rewrite erase_at_splice by lia; reflexivity).
  all: try (replace (BeginIndex s + BeginOffset s) with 0 by lia;
            symmetry; apply splice_nothing_before).
  all: try (replace (BeginIndex s + BeginOffset s) with (wlen (Text s)) by lia;
            symmetry; apply splice_nothing_after).
Qed.

Lemma wset_splice (T : wstring) (p : Z) (v : wchar) :
  0 <= p < wlen T ->
  wset T p v = firstn (Z.to_nat p) T ++ [v] ++ skipn (Z.to_nat (p + 1)) T.
Proof.
  intros Hp. apply wstring_ext.
  - rewrite wlen_wset, !wlen_app, wlen_firstn, wlen_skipn by lia.
    change (wlen [v]) with 1. lia.
  - rewrite wlen_wset. intros j Hj. rewrite wget_wset by lia.
    rewrite wget_app, wlen_firstn by lia.
    destruct (Z.eqb_spec j p) as [Heq|Hne], (Z.ltb_spec j p); try lia.
    + subst j. rewrite wget_app by lia. change (wlen [v]) with 1.
      rewrite Z.sub_diag. reflexivity.
    + now rewrite wget_firstn by lia.
    + rewrite wget_app by lia. change (wlen [v]) with 1.
      replace (j - p <? 1) with false by (symmetry; apply Z.ltb_ge; lia).
      rewrite wget_skipn by lia. f_equal. lia.
Qed.

Lemma splice_at_end (T : wstring) (v : wchar) :
  T ++ [v] = firstn (Z.to_nat (wlen T)) T ++ [v] ++ skipn (Z.to_nat (wlen T)) T.
Proof.
  unfold wlen. rewrite Nat2Z.id, firstn_all, skipn_all. reflexivity.
Qed.

Lemma characters_enter_the_text (x : Z) (s : t) :
  int_range (MaxLength s) -> text_edit_invariant s -> 0 < box_length s ->
  IsDisplayCharacter x = true ->
  exists b s',
    insert_character x s = Some (b, s')
    /\ InsertOn s' = InsertOn s
    /\ (wlen (Text s) < MaxLength s ->
        (InsertOn s = false \/ BeginIndex s + BeginOffset s = wlen (Text s)) ->
        b = true
        /\ Text s' = firstn (Z.to_nat (BeginIndex s + BeginOffset s)) (Text s)
                     ++ [x] ++ skipn (Z.to_nat (BeginIndex s + BeginOffset s)) (Text s)
        /\ BeginIndex s' + BeginOffset s' = BeginIndex s + BeginOffset s + 1)
    /\ (InsertOn s = true -> BeginIndex s + BeginOffset s < wlen (Text s) ->
        b = true
        /\ Text s' = firstn (Z.to_nat (BeginIndex s + BeginOffset s)) (Text s)
                     ++ [x] ++ skipn (Z.to_nat (BeginIndex s + BeginOffset s + 1)) (Text s)
        /\ BeginIndex s' + BeginOffset s' = BeginIndex s + BeginOffset s + 1).
Proof.
  intros HM (H1 & H2 & H3 & H4) HB HD.
  assert (EI : to_int (wlen (Text s)) = wlen (Text s)).
  { apply to_int_id. pose proof (wlen_nonneg (Text s)). unfold int_range in *. lia. }
  assert (EX : to_wchar x = x).
  { apply IsDisplayCharacter_range in HD. unfold to_wchar. apply Z.mod_small. lia. }
  pose proof (wlen_nonneg (Text s)) as HL.
  pose proof (box_length_cases s) as EB.
  unfold insert_character. rewrite !EI, HD, !EX. cbn [negb].
  set (BL := box_length s) in *.
  split_ifs; bool_cases; edit_fields.
  all: try (let s1 := fresh "s" in let HT := fresh "HT" in printed_as s1 HT).
  all: try (rewrite ?wlen_wset, ?wlen_insert_at, ?wlen_app; change (wlen [x]) with 1;
            lia).
  all: eexists; eexists; (split; [reflexivity|]).
  all: use_printed; edit_fields.
  all: repeat split; intros; try reflexivity; try lia.
  all: try (rewrite wset_splice by lia; reflexivity).
  all: try (match goal with
            | H : BeginIndex ?a + BeginOffset ?a = wlen (Text ?a) |- _ =>
                rewrite H; apply splice_at_end
            end).
  all: try (rewrite insert_at_splice, ?EX by lia; reflexivity).
  all: try congruence.
  all: exfalso;
    match goal with
    | H : InsertOn ?a = true, H' : InsertOn ?a && _ = false |- _ =>
        rewrite H in H'; cbn [andb] in H'; lia
    end.
Qed.

Lemma insert_display_character (x : Z) (s : t) :
  int_range (MaxLength s) -> text_edit_invariant s -> 0 < box_length s ->
  IsDisplayCharacter x = true ->
  insert x s = lift (insert_character x s).
Proof.
  intros HM Hinv HB HD. unfold insert. rewrite (invariant_is_valid s HM Hinv).
  destruct (control_keys_move_the_cursor x s HM Hinv HB) as (b & s' & -> & _ & Hc & _).
  destruct (Hc (IsDisplayCharacter_range x HD)) as (-> & ->). reflexivity.
Qed.

(** X23. The editing keys change the text at the cursor, the cursor
    being at index BeginIndex + BeginOffset of the text.  In a field
    that satisfies the invariant and has room for a character, BACKSPACE
    removes the character before the cursor and moves the cursor one
    place back (nothing at the start of the text), DELETE removes the
    character at the cursor and leaves the cursor (nothing at the end), a
    display character typed in insert mode, or at the end of the text, in
    a text shorter than the maximum, is put in at the cursor, and one
    typed in overwrite mode inside the text replaces the character at the
    cursor; both move the cursor one place on. *)
Theorem editing_keys_change_the_text_at_the_cursor (s : t) :
  int_range (MaxLength s) -> text_edit_invariant s -> 0 < box_length s ->
  let p := BeginIndex s + BeginOffset s in
  (exists s',
     insert BACKSPACEKEY s = Ok (true, s')
     /\ Text s' = firstn (Z.to_nat (p - 1)) (Text s) ++ skipn (Z.to_nat p) (Text s)
     /\ BeginIndex s' + BeginOffset s' = Z.max 0 (p - 1))
  /\ (exists s',
        insert DELETEKEY s = Ok (true, s')
        /\ Text s' = firstn (Z.to_nat p) (Text s) ++ skipn (Z.to_nat (p + 1)) (Text s)
        /\ BeginIndex s' + BeginOffset s' = p)
  /\ (forall x,
        IsDisplayCharacter x = true -> wlen (Text s) < MaxLength s ->
        InsertOn s = false \/ p = wlen (Text s) ->
        exists s',
          insert x s = Ok (true, s')
          /\ Text s' = firstn (Z.to_nat p) (Text s) ++ [x] ++ skipn (Z.to_nat p) (Text s)
          /\ BeginIndex s' + BeginOffset s' = p + 1)
  /\ (forall x,
        IsDisplayCharacter x = true -> InsertOn s = true -> p < wlen (Text s) ->
        exists s',
          insert x s = Ok (true, s')
          /\ Text s' = firstn (Z.to_nat p) (Text s) ++ [x]
                       ++ skipn (Z.to_nat (p + 1)) (Text s)
          /\ BeginIndex s' + BeginOffset s' = p + 1).
Proof.
  intros HM Hinv HB p. subst p.
  pose proof (invariant_is_valid s HM Hinv) as HV.
  split; [|split; [|split]].
  - destruct (control_keys_move_the_cursor BACKSPACEKEY s HM Hinv HB)
      as (b & s' & E & _ & _ & _ & _ & _ & _ & _ & Hk & _).
    destruct (Hk eq_refl) as (-> & HT & HP).
    exists s'. unfold insert. rewrite HV, E. auto.
  - destruct (control_keys_move_the_cursor DELETEKEY s HM Hinv HB)
      as (b & s' & E & _ & _ & _ & _ & _ & _ & _ & _ & Hk).
    destruct (Hk eq_refl) as (-> & HT & HP).
    exists s'. unfold insert. rewrite HV, E. auto.
  - intros x HD Hroom Hmode.
    rewrite (insert_display_character x s HM Hinv HB HD).
    destruct (characters_enter_the_text x s HM Hinv HB HD) as (b & s' & E & _ & Hk & _).
    destruct (Hk Hroom Hmode) as (-> & HT & HP).
    exists s'. rewrite E. auto.
  - intros x HD Hmode Hin.
    rewrite (insert_display_character x s HM Hinv HB HD).
    destruct (characters_enter_the_text x s HM Hinv HB HD) as (b & s' & E & _ & _ & Hk).
    destruct (Hk Hmode Hin) as (-> & HT & HP).
    exists s'. rewrite E. auto.
Qed.

Lemma editing_keys_change_the_text_at_the_cursor_witness :
  exists s : t,
    full_field = Some s
    /\ exists s',
         insert BACKSPACEKEY s = Ok (true, s')
         /\ Text s' = firstn (Z.to_nat (BeginIndex s + BeginOffset s - 1)) (Text s)
                      ++ skipn (Z.to_nat (BeginIndex s + BeginOffset s)) (Text s).
Proof.
  eexists. split; [vm_compute; reflexivity|].
  match goal with
  | |- exists s', insert _ ?x = _ /\ _ =>
      assert (Hinv : text_edit_invariant x) by (vm_compute; intuition discriminate);
      assert (HM : int_range (MaxLength x)) by (vm_compute; intuition discriminate);
      assert (HB : 0 < box_length x) by (vm_compute; reflexivity);
      destruct (editing_keys_change_the_text_at_the_cursor x HM Hinv HB)
        as ((s' & E & HT & _) & _);
      exists s'; split; [exact E | exact HT]
  end.
Defined.

(** X24. The navigation keys move the cursor and leave the text alone.
    In a field that satisfies the invariant and has room for a
    character, LEFT and RIGHT move the cursor (BeginIndex + BeginOffset)
    one place, stopping at the start and at the end of the text, HOME
    puts it at the start with the view at the start, END puts it at the
    end of the text; the four keep the insert mode.  INSERT switches
    the mode and moves nothing. *)
Theorem navigation_keys_move_the_cursor (s : t) :
  int_range (MaxLength s) -> text_edit_invariant s -> 0 < box_length s ->
  let p := BeginIndex s + BeginOffset s in
  (exists s',
     insert LEFTKEY s = Ok (true, s') /\ Text s' = Text s /\ InsertOn s' = InsertOn s
     /\ BeginIndex s' + BeginOffset s' = Z.max 0 (p - 1))
  /\ (exists s',
        insert RIGHTKEY s = Ok (true, s') /\ Text s' = Text s /\ InsertOn s' = InsertOn s
        /\ BeginIndex s' + BeginOffset s' = Z.min (wlen (Text s)) (p + 1))
  /\ (exists s',
        insert HOMEKEY s = Ok (true, s') /\ Text s' = Text s /\ InsertOn s' = InsertOn s
        /\ BeginIndex s' = 0 /\ BeginOffset s' = 0)
  /\ (exists s',
        insert ENDKEY s = Ok (true, s') /\ Text s' = Text s /\ InsertOn s' = InsertOn s
        /\ BeginIndex s' + BeginOffset s' = wlen (Text s))
  /\ (exists s',
        insert INSERTKEY s = Ok (true, s') /\ Text s' = Text s
        /\ InsertOn s' = negb (InsertOn s)
        /\ BeginIndex s' = BeginIndex s /\ BeginOffset s' = BeginOffset s).
Proof.
  intros HM Hinv HB p. subst p.
  pose proof (invariant_is_valid s HM Hinv) as HV.
  split; [|split; [|split; [|split]]].
  - destruct (control_keys_move_the_cursor LEFTKEY s HM Hinv HB)
      as (b & s' & E & HI & _ & Hk & _).
    destruct (Hk eq_refl) as (-> & HT & HP).
    exists s'. unfold insert. rewrite HV, E. auto.
  - destruct (control_keys_move_the_cursor RIGHTKEY s HM Hinv HB)
      as (b & s' & E & HI & _ & _ & Hk & _).
    destruct (Hk eq_refl) as (-> & HT & HP).
    exists s'. unfold insert. rewrite HV, E. auto.
  - destruct (control_keys_move_the_cursor HOMEKEY s HM Hinv HB)
      as (b & s' & E & HI & _ & _ & _ & Hk & _).
    destruct (Hk eq_refl) as (-> & HT & HP).
    exists s'. unfold insert. rewrite HV, E. auto.
  - destruct (control_keys_move_the_cursor ENDKEY s HM Hinv HB)
      as (b & s' & E & HI & _ & _ & _ & _ & Hk & _).
    destruct (Hk eq_refl) as (-> & HT & HP).
    exists s'. unfold insert. rewrite HV, E. auto.
  - destruct (control_keys_move_the_cursor INSERTKEY s HM Hinv HB)
      as (b & s' & E & HI & _ & _ & _ & _ & _ & Hk & _).
    destruct (Hk eq_refl) as (-> & HT & HP).
    exists s'. unfold insert. rewrite HV, E. auto.
Qed.

Lemma navigation_keys_move_the_cursor_witness :
  exists s : t,
    full_field = Some s
    /\ exists s',
         insert ENDKEY s = Ok (true, s')
         /\ BeginIndex s' + BeginOffset s' = wlen (Text s).
Proof.
  eexists. split; [vm_compute; reflexivity|].
  match goal with
  | |- exists s', insert _ ?x = _ /\ _ =>
      assert (Hinv : text_edit_invariant x) by (vm_compute; intuition discriminate);
      assert (HM : int_range (MaxLength x)) by (vm_compute; intuition discriminate);
      assert (HB : 0 < box_length x) by (vm_compute; reflexivity);
      destruct (navigation_keys_move_the_cursor x HM Hinv HB)
        as (_ & _ & _ & (s' & E & _ & _ & HP) & _);
      exists s'; split; [exact E | exact HP]
  end.
Defined.

Lemma insert_puts_in (x : Z) (s : t) :
  int_range (MaxLength s) -> text_edit_invariant s -> 0 < box_length s ->
  IsDisplayCharacter x = true -> wlen (Text s) < MaxLength s ->
  InsertOn s = false \/ BeginIndex s + BeginOffset s = wlen (Text s) ->
  exists s',
    insert x s = Ok (true, s')
    /\ Text s' = firstn (Z.to_nat (BeginIndex s + BeginOffset s)) (Text s)
                 ++ [x] ++ skipn (Z.to_nat (BeginIndex s + BeginOffset s)) (Text s)
    /\ BeginIndex s' + BeginOffset s' = BeginIndex s + BeginOffset s + 1
    /\ InsertOn s' = InsertOn s
    /\ text_edit_invariant s' /\ MaxLength s' = MaxLength s /\ Area s' = Area s.
Proof.
  intros HM Hinv HB HD Hroom Hmode.
  destruct (insert_keeps x s HM Hinv HB) as (b & s1 & E1 & Hinv1 & HM1 & HA1).
  rewrite (insert_display_character x s HM Hinv HB HD) in E1.
  destruct (characters_enter_the_text x s HM Hinv HB HD) as (b' & s' & E & HI & Hk & _).
  destruct (Hk Hroom Hmode) as (-> & HT & HP).
  rewrite E in E1. cbn [lift] in E1. injection E1 as <- <-.
  exists s'. rewrite (insert_display_character x s HM Hinv HB HD), E. cbn [lift].
  repeat split; try assumption; apply Hinv1.
Qed.

Lemma backspace_takes_out (s : t) :
  int_range (MaxLength s) -> text_edit_invariant s -> 0 < box_length s ->
  exists s',
    insert BACKSPACEKEY s = Ok (true, s')
    /\ Text s' = firstn (Z.to_nat (BeginIndex s + BeginOffset s - 1)) (Text s)
                 ++ skipn (Z.to_nat (BeginIndex s + BeginOffset s)) (Text s)
    /\ BeginIndex s' + BeginOffset s' = Z.max 0 (BeginIndex s + BeginOffset s - 1)
    /\ InsertOn s' = InsertOn s.
Proof.
  intros HM Hinv HB.
  destruct (control_keys_move_the_cursor BACKSPACEKEY s HM Hinv HB)
    as (b & s' & E & HI & _ & _ & _ & _ & _ & _ & Hk & _).
  destruct (Hk eq_refl) as (-> & HT & HP).
  exists s'. unfold insert. rewrite (invariant_is_valid s HM Hinv), E. auto.
Qed.

Lemma splice_undone (T : wstring) (p x : Z) :
  0 <= p <= wlen T ->
  let T1 := firstn (Z.to_nat p) T ++ [x] ++ skipn (Z.to_nat p) T in
  firstn (Z.to_nat (p + 1 - 1)) T1 ++ skipn (Z.to_nat (p + 1)) T1 = T.
Proof.
  intros Hp T1. subst T1.
  assert (HL : List.length (firstn (Z.to_nat p) T) = Z.to_nat p).
  { rewrite length_firstn. unfold wlen in Hp. lia. }
  replace (p + 1 - 1) with p by lia.
  rewrite firstn_app, HL, Nat.sub_diag, firstn_O, app_nil_r.
  rewrite firstn_firstn, Nat.min_id.
  rewrite skipn_app, HL.
  replace (Z.to_nat (p + 1)) with (S (Z.to_nat p)) by lia.
  rewrite skipn_all2 by (rewrite HL; lia).
  replace (S (Z.to_nat p) - Z.to_nat p)%nat with 1%nat by lia.
  cbn [app skipn]. apply firstn_skipn.
Qed.

(** X25. What is typed arrives, and BACKSPACE takes the last character
    back.  With the cursor at the end of the text, a word of display
    characters that fits under the maximum length is appended to the
    text, every key answered true, and the cursor is at the end again.
    In insert mode, a display character typed anywhere in a text
    shorter than the maximum and then BACKSPACE leave the text and the
    cursor as they were. *)
Theorem typed_text_arrives_and_backspace_undoes (s : t) :
  int_range (MaxLength s) -> text_edit_invariant s -> 0 < box_length s ->
  (forall w : list Z,
     Forall (fun x => IsDisplayCharacter x = true) w ->
     BeginIndex s + BeginOffset s = wlen (Text s) ->
     wlen (Text s) + wlen w <= MaxLength s ->
     exists s',
       type_keys w s = Ok (map (fun _ => true) w, s')
       /\ Text s' = Text s ++ w
       /\ BeginIndex s' + BeginOffset s' = wlen (Text s'))
  /\ (forall x,
        IsDisplayCharacter x = true -> InsertOn s = false ->
        wlen (Text s) < MaxLength s ->
        exists s',
          type_keys [x; BACKSPACEKEY] s = Ok ([true; true], s')
          /\ Text s' = Text s
          /\ BeginIndex s' + BeginOffset s' = BeginIndex s + BeginOffset s).
Proof.
  intros HM Hinv HB. split.
  - intros w. revert s HM Hinv HB.
    induction w as [|x w IH]; intros s HM Hinv HB HD Hend Hroom.
    + exists s. cbn [type_keys map]. rewrite app_nil_r. auto.
    + inversion HD as [|? ? Hx Hw]; subst.
      rewrite wlen_cons in Hroom. pose proof (wlen_nonneg w) as Hw0.
      destruct (insert_puts_in x s HM Hinv HB Hx ltac:(lia) (or_intror Hend))
        as (s1 & E1 & HT1 & HP1 & _ & Hinv1 & HM1 & HA1).
      rewrite Hend in HT1. rewrite <- splice_at_end in HT1.
      assert (HL1 : wlen (Text s1) = wlen (Text s) + 1).
      { rewrite HT1, wlen_app. reflexivity. }
      assert (HB1 : 0 < box_length s1) by (unfold box_length in *; now rewrite HM1, HA1).
      assert (HM' : int_range (MaxLength s1)) by now rewrite HM1.
      destruct (IH s1 HM' Hinv1 HB1 Hw ltac:(lia) ltac:(lia)) as (s2 & E2 & HT2 & HP2).
      exists s2. cbn [type_keys map]. rewrite E1, E2.
      split; [reflexivity|]. split; [|exact HP2].
      rewrite HT2, HT1, <- app_assoc. reflexivity.
  - intros x Hx Hmode Hroom.
    destruct (insert_puts_in x s HM Hinv HB Hx Hroom (or_introl Hmode))
      as (s1 & E1 & HT1 & HP1 & _ & Hinv1 & HM1 & HA1).
    assert (HB1 : 0 < box_length s1) by (unfold box_length in *; now rewrite HM1, HA1).
    assert (HM' : int_range (MaxLength s1)) by now rewrite HM1.
    destruct (backspace_takes_out s1 HM' Hinv1 HB1) as (s2 & E2 & HT2 & HP2 & _).
    exists s2. cbn [type_keys]. rewrite E1, E2.
    destruct Hinv as (H1 & H2 & H3 & H4).
    split; [reflexivity|]. split.
    + rewrite HT2, HP1, HT1. apply splice_undone. lia.
    + rewrite HP2, HP1. lia.
Qed.

Lemma typed_text_arrives_and_backspace_undoes_witness :
  exists s : t,
    field 5 10 = Some s
    /\ exists s',
         type_keys [72; 101; 108; 108; 111; 33; 33] s
         = Ok ([true; true; true; true; true; true; true], s')
         /\ Text s' = Text s ++ [72; 101; 108; 108; 111; 33; 33].
Proof.
  eexists. split; [vm_compute; reflexivity|].
  match goal with
  | |- exists s', type_keys ?w ?x = _ /\ _ =>
      assert (Hinv : text_edit_invariant x) by (vm_compute; intuition discriminate);
      assert (HM : int_range (MaxLength x)) by (vm_compute; intuition discriminate);
      assert (HB : 0 < box_length x) by (vm_compute; reflexivity);
      assert (HD : Forall (fun c => IsDisplayCharacter c = true) w)
        by (repeat constructor);
      assert (Hend : BeginIndex x + BeginOffset x = wlen (Text x)) by reflexivity;
      assert (Hroom : wlen (Text x) + wlen w <= MaxLength x)
        by (vm_compute; discriminate);
      destruct (typed_text_arrives_and_backspace_undoes x HM Hinv HB) as (Ht & _);
      destruct (Ht w HD Hend Hroom) as (s' & E & HT & _);
      exists s'; split; [exact E | exact HT]
  end.
Defined.

End EditFacts.

(* ------------------------------------------------------------------ *)
(** ** DirectoryDisplayBox.h: building the list *)

Section ListFacts.
Import DirectoryDisplayBox ConsoleCMD.

Ltac list_fields :=
  cbn [bf Area Color NameContainer NameColumns LeftColumnSize RightColumnSize
       FocusColor SelectColor SelectFocusColor vScroll hScroll TopIndex FocusIndex
       offsetLeftSign offsetColumn2 offsetRightSign TextLineLength NumIndexes
       CommInit CommFocus CommSelect CommBoth CommReturn TempBuffer stdout
       set_bf set_NameContainer set_NameColumns set_TopIndex set_FocusIndex
       set_NumIndexes set_TempBuffer set_stdout emit] in *.

Lemma initialize_succeeds (s : t) :
  Coord.wf_box (Area s) ->
  0 <= LeftColumnSize s -> LeftColumnSize s + 3 <= Coord.num_cols (Area s) ->
  exists s',
    initialize s = Some s'
    /\ layout_ok s'
    /\ bf s' = [] /\ NameContainer s' = []
    /\ NumIndexes s' = NumIndexes s /\ NameColumns s' = NameColumns s
    /\ Area s' = Area s /\ LeftColumnSize s' = LeftColumnSize s.
Proof.
  intros Hwf HL HR.
  assert (E : exists s', initialize s = Some s'
                         /\ bf s' = [] /\ NameContainer s' = []
                         /\ NumIndexes s' = NumIndexes s /\ NameColumns s' = NameColumns s
                         /\ Area s' = Area s /\ LeftColumnSize s' = LeftColumnSize s
                         /\ CommReturn s'
                            = snd (move_commands (LeftColumnSize s)
                                     (Coord.num_cols (Area s) - LeftColumnSize s - 3))).
  { unfold initialize.
    destruct (color_commands Colors.ListColors Colors.ListFocusColors
                Colors.ListSelectColors Colors.ListSelectFocusColors)
      as [[[ci cf] cs] cb].
    destruct (move_commands (LeftColumnSize s)
                (Coord.num_cols (Area s) - LeftColumnSize s - 3)) as [tb cr].
    unfold line_template, append_n.
    replace (LeftColumnSize s <? 0) with false by (symmetry; apply Z.ltb_ge; lia).
    cbn [bind].
    replace (Coord.num_cols (Area s) - LeftColumnSize s - 3 <? 0) with false
      by (symmetry; apply Z.ltb_ge; lia).
    cbn [bind]. eexists. split; [reflexivity|]. list_fields. cbn [snd].
    repeat split; reflexivity. }
  destruct E as (s' & E & Hbf & Hnc & Hn & Hcols & HA & HLs & Hcr).
  destruct (initialize_layout s s' Hwf E) as (Hf & Hs & Hb & HL' & HR' & HT).
  assert (Hcr12 : wlen (CommReturn s') = 12).
  { rewrite Hcr. apply move_commands_length.
    destruct Hwf as ((? & ?) & (? & ?)).
    unfold Coord.num_cols, short_range in *. lia. }
  exists s'. split; [exact E|]. split.
  - unfold layout_ok. rewrite Hcr12. repeat split; try assumption; lia.
  - repeat split; assumption.
Qed.

Lemma wlen_take (w : wstring) (pos n : Z) :
  0 <= pos -> 0 <= n -> pos + n <= wlen w ->
  wlen (firstn (Z.to_nat n) (skipn (Z.to_nat pos) w)) = n.
Proof.
  intros Hp Hn Hw. rewrite wlen_firstn; [reflexivity|].
  rewrite wlen_skipn by lia. lia.
Qed.

Lemma add_item_adds_a_row (sv : wstring) (s : t) :
  layout_ok s -> LeftColumnSize s <= wlen sv ->
  exists s',
    add_item sv s = Some s'
    /\ same_layout s s'
    /\ NumIndexes s' = NumIndexes s + 1
    /\ (exists row, bf s' = bf s ++ row /\ wlen row = TextLineLength s)
    /\ List.length (NameColumns s') = S (List.length (NameColumns s))
    /\ TopIndex s' = TopIndex s /\ FocusIndex s' = FocusIndex s
    /\ NameContainer s'
       = (if wlen sv <=? LeftColumnSize s + RightColumnSize s then NameContainer s
          else NameContainer s ++ skipn (Z.to_nat (LeftColumnSize s)) sv)
    /\ NameColumns s'
       = NameColumns s
         ++ [mk_col (LeftColumnSize s) (to_int (wlen (NameContainer s)))
                    (to_int (wlen (NameContainer s'))) false].
Proof.
  intros (HL & HR & Hcr & Hf & Hs & Hb & HT) Hsv.
  pose proof (wlen_nonneg sv) as Hsv0.
  unfold add_item.
  replace (wlen (CommReturn s) =? 0) with false by (symmetry; apply Z.eqb_neq; lia).
  list_fields. unfold substr.
  replace ((0 <? 0) || (wlen sv <? 0)) with false by (symmetry; lia).
  replace (LeftColumnSize s <? 0) with false by (symmetry; lia).
  replace (wlen sv <? LeftColumnSize s) with false by (symmetry; lia).
  cbn [bind orb].
  replace (LeftColumnSize s + RightColumnSize s <? 0) with false by (symmetry; lia).
  replace (RightColumnSize s <? 0) with false by (symmetry; lia).
  replace (wlen sv - LeftColumnSize s <? 0) with false by (symmetry; lia).
  cbn [orb]. change (Z.to_nat 0) with O. cbn [skipn].
  assert (Hrest : firstn (Z.to_nat (wlen sv - LeftColumnSize s))
                         (skipn (Z.to_nat (LeftColumnSize s)) sv)
                  = skipn (Z.to_nat (LeftColumnSize s)) sv).
  { apply firstn_all2. rewrite length_skipn. unfold wlen. lia. }
  destruct (Z.leb_spec (wlen sv) (LeftColumnSize s + RightColumnSize s)) as [Hfit|Hlong];
    cbn [bind]; list_fields.
  - destruct (Z.ltb_spec (wlen sv) (LeftColumnSize s + RightColumnSize s)) as [Hlt|Hge];
      cbn [bind]; list_fields;
      (eexists; split; [reflexivity|]); list_fields;
      (split; [unfold same_layout; list_fields; repeat split; reflexivity|]);
      (split; [reflexivity|]);
      (split; [|split; [rewrite length_app; cbn [List.length]; lia
                       |repeat split; reflexivity]]);
      rewrite Hrest, <- !app_assoc; (eexists; split; [reflexivity|]);
      rewrite !wlen_app, ?wlen_fill, wlen_firstn, wlen_skipn by lia;
      change (wlen [32]) with 1; lia.
  - eexists. split; [reflexivity|]. list_fields.
    split; [unfold same_layout; list_fields; repeat split; reflexivity|].
    split; [reflexivity|]. split.
    + rewrite <- !app_assoc. eexists. split; [reflexivity|].
      rewrite !wlen_app, wlen_firstn, wlen_take by lia.
      change (wlen [32]) with 1. change (wlen RRQUOTE) with 1. lia.
    + split; [rewrite length_app; cbn [List.length]; lia|].
      rewrite Hrest. repeat split; reflexivity.
Qed.

Lemma layout_ok_same (s s' : t) : same_layout s s' -> layout_ok s -> layout_ok s'.
Proof.
  unfold same_layout, layout_ok.
  intros (HA & HL & HR & HT & Hi & Hf & Hs & Hb & Hr). now rewrite HL, HR, HT, Hi, Hf, Hs, Hb, Hr.
Qed.

Lemma same_layout_trans (s s' s'' : t) :
  same_layout s s' -> same_layout s' s'' -> same_layout s s''.
Proof.
  unfold same_layout.
  intros (HA & HL & HR & HT & Hi & Hf & Hs & Hb & Hr)
         (HA' & HL' & HR' & HT' & Hi' & Hf' & Hs' & Hb' & Hr').
  repeat split; congruence.
Qed.

Lemma same_layout_refl (s : t) : same_layout s s.
Proof. unfold same_layout. repeat split; reflexivity. Qed.

Lemma add_all_adds_rows (names : list wstring) :
  forall s : t,
    layout_ok s ->
    Forall (fun sv => LeftColumnSize s <= wlen sv) names ->
    exists s',
      add_all names s = Some s'
      /\ same_layout s s'
      /\ NumIndexes s' = NumIndexes s + Z.of_nat (List.length names)
      /\ wlen (bf s') = wlen (bf s) + TextLineLength s * Z.of_nat (List.length names)
      /\ List.length (NameColumns s')
         = (List.length (NameColumns s) + List.length names)%nat.
Proof.
  induction names as [|sv names IH]; intros s Hok Hall.
  - exists s. cbn [add_all List.length].
    split; [reflexivity|]. split; [apply same_layout_refl|].
    repeat split; lia.
  - inversion Hall as [|? ? Hsv Hrest]; subst.
    destruct (add_item_adds_a_row sv s Hok Hsv)
      as (s1 & E1 & Hsame1 & Hn1 & (row & Hrow & Hrowlen) & Hc1 & _).
    assert (Hbf1 : wlen (bf s1) = wlen (bf s) + TextLineLength s)
      by (rewrite Hrow, wlen_app; lia).
    pose proof (layout_ok_same s s1 Hsame1 Hok) as Hok1.
    pose proof Hsame1 as (HA & HL & HR & HT & _).
    rewrite <- HL in Hrest.
    destruct (IH s1 Hok1 Hrest) as (s2 & E2 & Hsame2 & Hn2 & Hbf2 & Hc2).
    exists s2. cbn [add_all]. rewrite E1. cbn [bind]. rewrite E2.
    split; [reflexivity|]. split; [eapply same_layout_trans; eassumption|].
    cbn [List.length].
    repeat split; try lia; rewrite Hbf2, Hbf1, HT; lia.
Qed.

Lemma empty_row_adds_a_row (s : t) :
  layout_ok s ->
  exists s',
    empty_row s = Some s'
    /\ same_layout s s'
    /\ NumIndexes s' = NumIndexes s
    /\ wlen (bf s') = wlen (bf s) + TextLineLength s
    /\ List.length (NameColumns s') = S (List.length (NameColumns s))
    /\ TopIndex s' = TopIndex s /\ FocusIndex s' = FocusIndex s.
Proof.
  intros (HL & HR & Hcr & Hf & Hs & Hb & HT).
  unfold empty_row, append_n. list_fields.
  replace (LeftColumnSize s + RightColumnSize s + 2 <? 0) with false by (symmetry; lia).
  cbn [bind]. eexists. split; [reflexivity|]. list_fields.
  split; [unfold same_layout; list_fields; repeat split; reflexivity|].
  split; [reflexivity|]. split.
  - rewrite !wlen_app, wlen_fill by lia. lia.
  - split; [rewrite length_app; cbn [List.length]; lia|]. split; reflexivity.
Qed.

Lemma empty_rows_add_rows (n : nat) :
  forall s : t,
    layout_ok s ->
    exists s',
      times_opt n empty_row s = Some s'
      /\ same_layout s s'
      /\ NumIndexes s' = NumIndexes s
      /\ wlen (bf s') = wlen (bf s) + TextLineLength s * Z.of_nat n
      /\ List.length (NameColumns s') = (List.length (NameColumns s) + n)%nat
      /\ TopIndex s' = TopIndex s /\ FocusIndex s' = FocusIndex s.
Proof.
  induction n as [|n IH]; intros s Hok.
  - exists s. cbn [times_opt]. split; [reflexivity|]. split; [apply same_layout_refl|].
    repeat split; lia.
  - destruct (empty_row_adds_a_row s Hok) as (s1 & E1 & Hsame1 & Hn1 & Hbf1 & Hc1 & Ht1 & Hfo1).
    pose proof (layout_ok_same s s1 Hsame1 Hok) as Hok1.
    pose proof Hsame1 as (HA & HL & HR & HT & _).
    destruct (IH s1 Hok1) as (s2 & E2 & Hsame2 & Hn2 & Hbf2 & Hc2 & Ht2 & Hfo2).
    exists s2. cbn [times_opt]. rewrite E1. cbn [bind]. rewrite E2.
    split; [reflexivity|]. split; [eapply same_layout_trans; eassumption|].
    repeat split; try lia; try congruence; rewrite Hbf2, Hbf1, HT; lia.
Qed.

Lemma create_fills_the_box (s : t) :
  layout_ok s -> 0 <= NumIndexes s ->
  wlen (bf s) = TextLineLength s * NumIndexes s ->
  exists s',
    create s = Some s'
    /\ same_layout s s'
    /\ NumIndexes s' = NumIndexes s
    /\ wlen (bf s')
       = TextLineLength s * Z.max (NumIndexes s) (Coord.num_rows (Area s) - 1)
    /\ List.length (NameColumns s')
       = (List.length (NameColumns s)
          + Z.to_nat (Coord.num_rows (Area s) - 1 - NumIndexes s))%nat
    /\ TopIndex s' = 0 /\ FocusIndex s' = 0
    /\ (NumIndexes s > 0 -> substr (bf s') 0 (wlen (CommFocus s')) = Some (CommFocus s')).
Proof.
  intros Hok Hn Hbf. unfold create. list_fields.
  set (s0 := set_FocusIndex (set_TopIndex s 0) 0).
  assert (Hok0 : layout_ok s0) by exact Hok.
  destruct (empty_rows_add_rows
              (Z.to_nat (Coord.num_rows (Area s) - 1 - NumIndexes s)) s0 Hok0)
    as (s1 & E1 & Hsame1 & Hn1 & Hbf1 & Hc1 & Ht1 & Hfo1).
  rewrite E1. cbn [bind]. unfold s0 in *. list_fields.
  pose proof Hsame1 as (HA & HL & HR & HT & Hi & Hf & Hs & Hb & Hr).
  pose proof Hok as (HL0 & HR0 & Hcr & Hf0 & Hs0 & Hb0 & HT0).
  list_fields.
  pose proof (wlen_nonneg (CommInit s)) as Hci.
  assert (Hlen : wlen (bf s1)
                 = TextLineLength s * Z.max (NumIndexes s) (Coord.num_rows (Area s) - 1)).
  { rewrite Hbf1, Hbf. nia. }
  rewrite Hn1.
  destruct (Z.gtb_spec (NumIndexes s) 0) as [Hpos|Hzero].
  - destruct (wreplace_same_width (bf s1) (CommFocus s1) 0)
      as (bf' & E & Elen & Eread & _); [lia | rewrite Hf, Hf0; nia |].
    rewrite E. cbn [bind]. eexists. split; [reflexivity|]. list_fields.
    split; [exact Hsame1|]. split; [exact Hn1|]. split; [lia|].
    split; [exact Hc1|]. split; [exact Ht1|]. split; [exact Hfo1|].
    intros _. exact Eread.
  - eexists. split; [reflexivity|].
    split; [exact Hsame1|]. split; [exact Hn1|]. split; [exact Hlen|].
    split; [exact Hc1|]. split; [exact Ht1|]. split; [exact Hfo1|]. lia.
Qed.

Lemma navigate_all_runs (ops : list nav) :
  forall s : t,
    visible_count s >= 1 -> viewport_invariant s -> buffer_ok s ->
    0 <= WindowBox.BarLength (hScroll s) ->
    exists s',
      navigate_all ops s = Some s'
      /\ viewport_invariant s' /\ buffer_ok s' /\ NumIndexes s' = NumIndexes s.
Proof.
  induction ops as [|op ops IH]; intros s HV Hinv Hbuf HBar.
  - exists s. cbn [navigate_all]. auto.
  - destruct (navigate_runs op s HV Hinv Hbuf HBar) as (r & s1 & E1 & Hbuf1 & HBar1 & _).
    destruct (navigate_keeps_viewport op s s1 r HV Hinv E1) as (Hinv1 & Hn1 & HV1 & _).
    rewrite <- HBar1 in HBar.
    destruct (IH s1 ltac:(lia) Hinv1 Hbuf1 HBar) as (s2 & E2 & Hinv2 & Hbuf2 & Hn2).
    exists s2. cbn [navigate_all]. rewrite E1. cbn [bind]. rewrite E2.
    split; [reflexivity|]. split; [exact Hinv2|]. split; [exact Hbuf2|]. congruence.
Qed.

(** The bar and the columns through the steps that build a list. *)
Lemma initialize_bar (s s' : t) :
  initialize s = Some s' ->
  WindowBox.BarLength (hScroll s')
  = Coord.num_cols (Area s) - LeftColumnSize s - 3 - 1.
Proof.
  unfold initialize. intros H.
  destruct (color_commands _ _ _ _) as [[[ci cf] cs] cb].
  destruct (move_commands _ _) as [tb cr].
  destruct (line_template _ _ _ _) as [[[[a b] c] d]|]; [|discriminate].
  cbn [bind] in H. injection H as <-. reflexivity.
Qed.

Lemma add_item_keeps_bar (sv : wstring) (s s' : t) :
  add_item sv s = Some s' ->
  hScroll s' = hScroll s
  /\ List.length (NameColumns s') = S (List.length (NameColumns s))
  /\ NumIndexes s' = NumIndexes s + 1.
Proof.
  unfold add_item. intros H.
  repeat match type of H with
         | (if ?c then _ else _) = Some _ => destruct c; [discriminate|]
         | bind ?m _ = Some _ =>
             let E := fresh "E" in
             destruct m as [?|] eqn:E; [cbn [bind] in H | discriminate]
         | (let (_, _) := ?x in _) = Some _ => destruct x
         end.
  injection H as <-. list_fields.
  split; [reflexivity|]. split; [|reflexivity].
  rewrite length_app. cbn [List.length]. lia.
Qed.

Lemma add_all_keeps_bar (names : list wstring) :
  forall s s' : t,
    add_all names s = Some s' ->
    hScroll s' = hScroll s
    /\ Z.of_nat (List.length (NameColumns s')) - NumIndexes s'
       = Z.of_nat (List.length (NameColumns s)) - NumIndexes s.
Proof.
  induction names as [|sv names IH]; intros s s' H; cbn [add_all] in H.
  - injection H as <-. auto.
  - destruct (add_item sv s) as [s1|] eqn:E1; [|discriminate]. cbn [bind] in H.
    destruct (add_item_keeps_bar sv s s1 E1) as (Hb1 & Hc1 & Hn1).
    destruct (IH s1 s' H) as (Hb2 & Hc2).
    split; [congruence|]. lia.
Qed.

Lemma empty_rows_keep_bar (n : nat) :
  forall s s' : t,
    times_opt n empty_row s = Some s' ->
    hScroll s' = hScroll s
    /\ (List.length (NameColumns s) <= List.length (NameColumns s'))%nat.
Proof.
  induction n as [|n IH]; intros s s' H; cbn [times_opt] in H.
  - injection H as <-. auto.
  - destruct (empty_row s) as [s1|] eqn:E1; [|discriminate]. cbn [bind] in H.
    destruct (IH s1 s' H) as (Hb2 & Hc2).
    unfold empty_row in E1.
    destruct (append_n _ _ _) as [b|]; [|discriminate].
    cbn [bind] in E1. injection E1 as <-. list_fields.
    rewrite length_app in Hc2. cbn [List.length] in Hc2.
    split; [exact Hb2|]. lia.
Qed.

Lemma create_keeps_bar (s s' : t) :
  create s = Some s' ->
  hScroll s' = hScroll s
  /\ (List.length (NameColumns s) <= List.length (NameColumns s'))%nat.
Proof.
  unfold create. intros H.
  destruct (times_opt _ _ _) as [s1|] eqn:E1; [|discriminate]. cbn [bind] in H.
  apply empty_rows_keep_bar in E1. list_fields.
  destruct (NumIndexes s1 >? 0).
  - destruct (wreplace _ _ _ _) as [b|]; [|discriminate].
    cbn [bind] in H. injection H as <-. list_fields. exact E1.
  - injection H as <-. exact E1.
Qed.

(** X26. [add_item] appends exactly one row, or throws.  On a display
    that was not initialized (the return sequence is empty) it throws;
    after [initialize] it throws for a name shorter than the left
    column, and for every other name it appends one row of
    [TextLineLength] characters behind the rows the buffer holds, counts
    one item more, and leaves the layout as it was. *)
Theorem add_item_adds_one_row_or_throws (sv : wstring) (s : t) :
  (CommReturn s = [] -> add_item sv s = None)
  /\ (layout_ok s ->
      (wlen sv < LeftColumnSize s -> add_item sv s = None)
      /\ (LeftColumnSize s <= wlen sv ->
          exists s' row,
            add_item sv s = Some s'
            /\ bf s' = bf s ++ row /\ wlen row = TextLineLength s
            /\ NumIndexes s' = NumIndexes s + 1
            /\ same_layout s s' /\ layout_ok s')).
Proof.
  split; [|intros Hok; split].
  - intros E. unfold add_item. rewrite E. reflexivity.
  - intros Hshort. destruct Hok as (HL & HR & Hcr & _).
    pose proof (wlen_nonneg sv) as Hsv0.
    unfold add_item.
    replace (wlen (CommReturn s) =? 0) with false by (symmetry; apply Z.eqb_neq; lia).
    list_fields. unfold substr.
    replace ((0 <? 0) || (wlen sv <? 0)) with false by (symmetry; lia).
    replace ((LeftColumnSize s <? 0) || (wlen sv <? LeftColumnSize s)) with true
      by (symmetry; lia).
    cbn [bind].
    destruct ((LeftColumnSize s + RightColumnSize s <? 0)
              || (wlen sv <=? LeftColumnSize s + RightColumnSize s)); reflexivity.
  - intros Hsv.
    destruct (add_item_adds_a_row sv s Hok Hsv)
      as (s' & E & Hsame & Hn & (row & Hrow & Hlen) & _).
    exists s', row.
    split; [exact E|]. split; [exact Hrow|]. split; [exact Hlen|].
    split; [exact Hn|]. split; [exact Hsame|].
    exact (layout_ok_same s s' Hsame Hok).
Qed.

Lemma add_item_adds_one_row_or_throws_witness :
  exists s : t,
    initialize (empty_list 10 50) = Some s
    /\ add_item (wlit "short") s = None
    /\ exists s' row,
         add_item (item_name 0) s = Some s'
         /\ bf s' = bf s ++ row /\ wlen row = TextLineLength s.
Proof.
  destruct (initialize_succeeds (empty_list 10 50)) as (s & E & Hok & _).
  - vm_compute. intuition discriminate.
  - vm_compute. discriminate.
  - vm_compute. discriminate.
  - exists s. split; [exact E|].
    assert (HL : LeftColumnSize s = 14).
    { revert E. vm_compute. intros E. injection E as <-. reflexivity. }
    destruct (add_item_adds_one_row_or_throws (wlit "short") s) as (_ & Hshort).
    destruct (add_item_adds_one_row_or_throws (item_name 0) s) as (_ & Hlong).
    split.
    + apply (proj1 (Hshort Hok)). rewrite HL. vm_compute. reflexivity.
    + destruct (proj2 (Hlong Hok)) as (s' & row & E' & Hrow & Hlen & _).
      * rewrite HL. vm_compute. discriminate.
      * exists s', row. auto.
Defined.

(** X27. [get_focused_item] gives the part of a name that the two
    columns cannot show, not the name.  For the item that [add_item] has
    just added, once it has the focus: the empty view when the name is
    no longer than the two columns, and otherwise the name without its
    first [LeftColumnSize] characters. *)
Theorem focused_item_is_the_hidden_part (sv : wstring) (s : t) :
  layout_ok s ->
  NumIndexes s = Z.of_nat (List.length (NameColumns s)) ->
  int_range (wlen (NameContainer s) + wlen sv) ->
  LeftColumnSize s <= wlen sv ->
  exists s',
    add_item sv s = Some s'
    /\ get_focused_item (set_FocusIndex s' (NumIndexes s))
       = Some (if wlen sv <=? LeftColumnSize s + RightColumnSize s then []
               else skipn (Z.to_nat (LeftColumnSize s)) sv).
Proof.
  intros Hok Hcount Hint Hsv.
  destruct (add_item_adds_a_row sv s Hok Hsv)
    as (s' & E & Hsame & Hn & _ & _ & _ & _ & HNC & HCols).
  exists s'. split; [exact E|].
  destruct Hok as (HL & HR & _).
  pose proof (wlen_nonneg (NameContainer s)) as Hnc0.
  pose proof (wlen_nonneg sv) as Hsv0.
  unfold get_focused_item, column. list_fields. rewrite Hn, HCols.
  replace ((NumIndexes s >=? 0) && (NumIndexes s <? NumIndexes s + 1)) with true
    by (symmetry; lia).
  rewrite app_nth2 by lia.
  replace (Z.to_nat (NumIndexes s) - List.length (NameColumns s))%nat with O by lia.
  cbn [nth BeginOffset EndOffset].
  assert (E0 : to_int (wlen (NameContainer s)) = wlen (NameContainer s)).
  { apply to_int_id. unfold int_range in *. lia. }
  rewrite HNC, E0.
  destruct (Z.leb_spec (wlen sv) (LeftColumnSize s + RightColumnSize s)) as [Hfit|Hlong].
  - rewrite E0. rewrite Z.ltb_irrefl. reflexivity.
  - set (rest := skipn (Z.to_nat (LeftColumnSize s)) sv).
    assert (Hrest : wlen rest = wlen sv - LeftColumnSize s)
      by (unfold rest; apply wlen_skipn; lia).
    assert (E1 : to_int (wlen (NameContainer s ++ rest)) = wlen (NameContainer s) + wlen rest).
    { rewrite wlen_app. apply to_int_id. unfold int_range in *. lia. }
    rewrite E1.
    replace (wlen (NameContainer s) <? wlen (NameContainer s) + wlen rest) with true
      by (symmetry; lia).
    unfold substr. rewrite wlen_app.
    replace ((wlen (NameContainer s) <? 0)
             || (wlen (NameContainer s) + wlen rest <? wlen (NameContainer s)))
      with false by (symmetry; lia).
    replace (wlen (NameContainer s) + wlen rest - wlen (NameContainer s) <? 0)
      with false by (symmetry; lia).
    f_equal.
    replace (wlen (NameContainer s) + wlen rest - wlen (NameContainer s))
      with (wlen rest) by lia.
    assert (Hskip : skipn (Z.to_nat (wlen (NameContainer s))) (NameContainer s ++ rest)
                    = rest).
    { unfold wlen. rewrite Nat2Z.id, skipn_app, skipn_all, Nat.sub_diag. reflexivity. }
    rewrite Hskip. unfold wlen. rewrite Nat2Z.id. apply firstn_all.
Qed.

Lemma focused_item_is_the_hidden_part_witness :
  exists s : t,
    initialize (empty_list 10 50) = Some s
    /\ exists s',
         add_item (wlit "Line12345678  0123456789012345678901234567890123456789") s
         = Some s'
         /\ get_focused_item (set_FocusIndex s' 0)
            = Some (wlit "0123456789012345678901234567890123456789").
Proof.
  destruct (initialize_succeeds (empty_list 10 50))
    as (s & E & Hok & _ & HNC & HN & HC & _ & HL).
  - vm_compute. intuition discriminate.
  - vm_compute. discriminate.
  - vm_compute. discriminate.
  - exists s. split; [exact E|].
    assert (HR : RightColumnSize s = 33).
    { revert E. vm_compute. intros E. injection E as <-. reflexivity. }
    change (LeftColumnSize (empty_list 10 50)) with 14 in HL.
    change (NumIndexes (empty_list 10 50)) with 0 in HN.
    change (NameColumns (empty_list 10 50)) with (@nil name_column) in HC.
    destruct (focused_item_is_the_hidden_part
                (wlit "Line12345678  0123456789012345678901234567890123456789") s Hok)
      as (s' & E' & Hget).
    + rewrite HN, HC. reflexivity.
    + rewrite HNC. vm_compute. intuition discriminate.
    + rewrite HL. vm_compute. discriminate.
    + exists s'. split; [exact E'|].
      rewrite HN, HL, HR in Hget. exact Hget.
Defined.

Lemma build_gives (names : list wstring) (s : t) :
  Coord.wf_box (Area s) ->
  0 <= LeftColumnSize s -> LeftColumnSize s + 3 <= Coord.num_cols (Area s) ->
  NumIndexes s = 0 ->
  Forall (fun sv => LeftColumnSize s <= wlen sv) names ->
  exists s',
    (s1 <- initialize s ;; s2 <- add_all names s1 ;; create s2) = Some s'
    /\ layout_ok s' /\ Area s' = Area s
    /\ NumIndexes s' = Z.of_nat (List.length names)
    /\ wlen (bf s')
       = TextLineLength s'
         * Z.max (Z.of_nat (List.length names)) (Coord.num_rows (Area s) - 1)
    /\ TopIndex s' = 0 /\ FocusIndex s' = 0
    /\ WindowBox.BarLength (hScroll s')
       = Coord.num_cols (Area s) - LeftColumnSize s - 4
    /\ NumIndexes s' <= Z.of_nat (List.length (NameColumns s')).
Proof.
  intros Hwf HL HR Hn Hall.
  destruct (initialize_succeeds s Hwf HL HR)
    as (s1 & E1 & Hok1 & Hbf1 & _ & Hn1 & _ & HA1 & HL1).
  rewrite E1. cbn [bind]. rewrite <- HL1 in Hall.
  pose proof (initialize_bar s s1 E1) as Hbar1.
  destruct (add_all_adds_rows names s1 Hok1 Hall) as (s2 & E2 & Hsame2 & Hn2 & Hbf2 & Hc2).
  destruct (add_all_keeps_bar names s1 s2 E2) as (Hbar2 & _).
  rewrite E2. cbn [bind].
  pose proof (layout_ok_same s1 s2 Hsame2 Hok1) as Hok2.
  pose proof Hsame2 as (HA2 & _ & _ & HT2 & _).
  assert (Hcount : NumIndexes s2 = Z.of_nat (List.length names)) by lia.
  assert (Hfull : wlen (bf s2) = TextLineLength s2 * NumIndexes s2).
  { rewrite Hbf2, Hbf1, HT2, Hcount. change (wlen []) with 0. lia. }
  destruct (create_fills_the_box s2 Hok2 ltac:(lia) Hfull)
    as (s3 & E3 & Hsame3 & Hn3 & Hbf3 & _ & Ht3 & Hf3 & _).
  destruct (create_keeps_bar s2 s3 E3) as (Hbar3 & Hc3).
  pose proof Hsame3 as (HA3 & _ & _ & HT3 & _).
  exists s3. split; [exact E3|].
  split; [exact (layout_ok_same s2 s3 Hsame3 Hok2)|].
  split; [congruence|]. split; [congruence|].
  split; [rewrite Hbf3, HT3, Hcount, HA2, HA1; reflexivity|].
  split; [exact Ht3|]. split; [exact Hf3|].
  split; [rewrite Hbar3, Hbar2, Hbar1; lia|]. lia.
Qed.

Lemma layout_gives_buffer_ok (s : t) :
  layout_ok s -> 0 <= NumIndexes s ->
  TextLineLength s * NumIndexes s <= wlen (bf s) -> buffer_ok s.
Proof.
  intros (HL & HR & Hcr & Hf & Hs & Hb & HT) Hn Hbf.
  unfold buffer_ok. repeat split; try assumption. lia.
Qed.

(** X28. A list that is built in the order [initialize], [add_item] for
    every name, [create] can be navigated when its area is wide enough.
    From a display without items whose area has room for the left column
    and three columns more, and for names that are not shorter than the
    left column, the three steps succeed: the list counts the names and
    has a column for each, the buffer holds a row for every name and at
    least one for every visible line, the top and the focus are item 0,
    and with a name and a visible line the viewport invariant holds.
    When the area has room for one column more (so that the horizontal
    bar has a length that is not negative), every sequence of [move_up],
    [move_down], [page_up] and [page_down] returns and keeps the viewport
    invariant and the number of items.  [clear_items] gives the list
    built from no name, for which [get_focused_index] is -1. *)
Theorem built_list_can_be_navigated (names : list wstring) (s : t) :
  Coord.wf_box (Area s) ->
  0 <= LeftColumnSize s -> LeftColumnSize s + 3 <= Coord.num_cols (Area s) ->
  (NumIndexes s = 0 ->
   Forall (fun sv => LeftColumnSize s <= wlen sv) names ->
   exists s',
     (s1 <- initialize s ;; s2 <- add_all names s1 ;; create s2) = Some s'
     /\ NumIndexes s' = Z.of_nat (List.length names)
     /\ NumIndexes s' <= Z.of_nat (List.length (NameColumns s'))
     /\ wlen (bf s')
        = TextLineLength s'
          * Z.max (Z.of_nat (List.length names)) (Coord.num_rows (Area s) - 1)
     /\ buffer_ok s'
     /\ TopIndex s' = 0 /\ FocusIndex s' = 0
     /\ WindowBox.BarLength (hScroll s')
        = Coord.num_cols (Area s) - LeftColumnSize s - 4
     /\ (names <> [] -> 2 <= Coord.num_rows (Area s) ->
         viewport_invariant s'
         /\ (LeftColumnSize s + 4 <= Coord.num_cols (Area s) ->
             forall ops,
               exists s'',
                 navigate_all ops s' = Some s''
                 /\ viewport_invariant s'' /\ NumIndexes s'' = NumIndexes s')))
  /\ (exists s',
        clear_items s = Some s'
        /\ NumIndexes s' = 0 /\ get_focused_index s' = -1
        /\ wlen (bf s') = TextLineLength s' * Z.max 0 (Coord.num_rows (Area s) - 1)).
Proof.
  intros Hwf HL HR. split.
  - intros Hn Hall.
    destruct (build_gives names s Hwf HL HR Hn Hall)
      as (s' & E & Hok & HA & Hcount & Hbf & Ht & Hf & Hbar & Hcols).
    exists s'. split; [exact E|]. split; [exact Hcount|]. split; [exact Hcols|].
    split; [exact Hbf|].
    assert (HT0 : 0 <= TextLineLength s').
    { destruct Hok as (? & ? & ? & _ & _ & _ & HT).
      pose proof (wlen_nonneg (CommInit s')). lia. }
    assert (Hbuf : buffer_ok s').
    { apply layout_gives_buffer_ok; [exact Hok | lia |]. rewrite Hbf, Hcount. nia. }
    split; [exact Hbuf|]. split; [exact Ht|]. split; [exact Hf|]. split; [exact Hbar|].
    intros Hne Hrows.
    assert (Hpos : 0 < Z.of_nat (List.length names)).
    { destruct names; [congruence | cbn [List.length]; lia]. }
    assert (Hinv : viewport_invariant s').
    { unfold viewport_invariant, visible_count. rewrite Ht, Hf, HA, Hcount. lia. }
    split; [exact Hinv|].
    intros Hwide ops.
    destruct (navigate_all_runs ops s') as (s'' & E' & Hinv' & _ & Hn');
      [unfold visible_count; rewrite HA; lia | exact Hinv | exact Hbuf
      | rewrite Hbar; lia |].
    exists s''. auto.
  - unfold clear_items.
    set (s0 := set_bf _ []).
    assert (Hwf0 : Coord.wf_box (Area s0)) by exact Hwf.
    assert (HL0 : 0 <= LeftColumnSize s0) by exact HL.
    assert (HR0 : LeftColumnSize s0 + 3 <= Coord.num_cols (Area s0)) by exact HR.
    destruct (build_gives [] s0 Hwf0 HL0 HR0 eq_refl (Forall_nil _))
      as (s' & E & Hok & HA & Hcount & Hbf & Ht & Hf & _).
    cbn [add_all bind] in E.
    destruct (initialize s0) as [s1|] eqn:E1; [|discriminate]. cbn [bind] in E |- *.
    exists s'. split; [exact E|]. cbn [List.length] in Hcount, Hbf.
    split; [exact Hcount|]. split; [|exact Hbf].
    unfold get_focused_index. rewrite Hcount. reflexivity.
Qed.

Lemma built_list_can_be_navigated_witness :
  exists s',
    (s1 <- initialize (empty_list 10 50) ;;
     s2 <- add_all [item_name 0; item_name 1; item_name 2] s1 ;; create s2) = Some s'
    /\ NumIndexes s' = 3
    /\ exists s'',
         navigate_all [KeyDown; KeyPageDown; KeyUp; KeyPageUp] s' = Some s''
         /\ viewport_invariant s''.
Proof.
  destruct (built_list_can_be_navigated
              [item_name 0; item_name 1; item_name 2] (empty_list 10 50))
    as (Hbuild & _).
  - vm_compute. intuition discriminate.
  - vm_compute. discriminate.
  - vm_compute. discriminate.
  - destruct Hbuild as (s' & E & Hn & _ & _ & _ & _ & _ & _ & Hnav).
    + reflexivity.
    + repeat constructor; vm_compute; discriminate.
    + exists s'. split; [exact E|]. split; [exact Hn|].
      destruct Hnav as (_ & Hops); [discriminate | vm_compute; discriminate |].
      destruct (Hops ltac:(vm_compute; discriminate)
                     [KeyDown; KeyPageDown; KeyUp; KeyPageUp]) as (s'' & E' & Hinv & _).
      exists s''. auto.
Defined.

Lemma nth_update_nth {A : Type} (l : list A) (i : nat) (g : A -> A) (j : nat) (d : A) :
  nth j (update_nth l i g) d
  = if (Nat.eqb j i && Nat.ltb i (List.length l))%bool then g (nth j l d) else nth j l d.
Proof.
  revert i j. induction l as [|h l IH]; intros [|i] [|j]; cbn [update_nth nth List.length];
    try reflexivity.
  - rewrite Nat.eqb_sym. cbn. now destruct (Nat.eqb _ _).
  - rewrite IH. cbn [Nat.eqb].
    change (Nat.ltb (S i) (S (List.length l))) with (Nat.ltb i (List.length l)).
    reflexivity.
Qed.

Lemma update_nth_twice {A : Type} (l : list A) (i : nat) (g : A -> A) :
  (forall a, g (g a) = a) -> update_nth (update_nth l i g) i g = l.
Proof.
  intros Hg. revert i. induction l as [|h l IH]; intros [|i]; cbn [update_nth];
    try reflexivity.
  - now rewrite Hg.
  - now rewrite IH.
Qed.

Lemma selected_indices_in (P : Z -> bool) (n : nat) :
  forall (i0 : Z) (acc : list Z) (i : Z),
    In i (for_up n i0 (fun i selected => if P i then selected ++ [i] else selected) acc)
    <-> In i acc \/ (i0 <= i < i0 + Z.of_nat n /\ P i = true).
Proof.
  induction n as [|n IH]; intros i0 acc i; cbn [for_up].
  - split; [auto | intros [H|[H _]]; [exact H | lia]].
  - rewrite IH. destruct (P i0) eqn:E.
    + rewrite in_app_iff. cbn [In]. split.
      * intros [[H|[H|[]]]|[H HP]]; [auto | subst; right; split; [lia|exact E] |
                                     right; split; [lia|exact HP]].
      * intros [H|[H HP]]; [auto|].
        destruct (Z.eq_dec i i0) as [->|Hne]; [auto|]. right. split; [lia|exact HP].
    + split.
      * intros [H|[H HP]]; [auto|]. right. split; [lia|exact HP].
      * intros [H|[H HP]]; [auto|].
        destruct (Z.eq_dec i i0) as [->|Hne]; [congruence|]. right. split; [lia|exact HP].
Qed.

Lemma selection_count_is_length (P : Z -> bool) (n : nat) :
  forall (i0 : Z) (acc : list Z),
    for_up n i0 (fun i count => if P i then count + 1 else count)
           (Z.of_nat (List.length acc))
    = Z.of_nat (List.length
                  (for_up n i0 (fun i selected => if P i then selected ++ [i] else selected)
                          acc)).
Proof.
  induction n as [|n IH]; intros i0 acc; cbn [for_up]; [reflexivity|].
  destruct (P i0).
  - rewrite <- IH. f_equal. rewrite length_app. cbn [List.length]. lia.
  - apply IH.
Qed.

Lemma swap_select_runs (s : t) :
  buffer_ok s -> 0 <= FocusIndex s < NumIndexes s ->
  NumIndexes s <= Z.of_nat (List.length (NameColumns s)) ->
  exists s',
    swap_select s = Some (negb (Selected (column s (FocusIndex s))), s')
    /\ NameColumns s'
       = update_nth (NameColumns s) (Z.to_nat (FocusIndex s))
                    (fun c => set_Selected c (negb (Selected (column s (FocusIndex s)))))
    /\ NumIndexes s' = NumIndexes s /\ FocusIndex s' = FocusIndex s
    /\ TopIndex s' = TopIndex s /\ wlen (bf s') = wlen (bf s)
    /\ buffer_ok s'.
Proof.
  intros (B1 & B2 & B3 & B4 & B5) HF HC.
  pose proof (wlen_nonneg (CommInit s)) as B0.
  unfold swap_select, select_column, column, place, write_temp, write_rows.
  list_fields.
  rewrite !nth_update_nth, Nat.eqb_refl.
  replace (Nat.ltb (Z.to_nat (FocusIndex s)) (List.length (NameColumns s))) with true
    by (symmetry; apply Nat.ltb_lt; lia).
  cbn [andb Selected set_Selected].
  set (b := negb (Selected (nth (Z.to_nat (FocusIndex s)) (NameColumns s) default_col))).
  assert (Hrun : exists bf',
            (if b
             then wreplace (bf s) (TextLineLength s * FocusIndex s)
                           (wlen (CommBoth s)) (CommBoth s)
             else wreplace (bf s) (TextLineLength s * FocusIndex s)
                           (wlen (CommFocus s)) (CommFocus s)) = Some bf'
            /\ wlen bf' = wlen (bf s)).
  { destruct b.
    - destruct (wreplace_same_width (bf s) (CommBoth s) (TextLineLength s * FocusIndex s))
        as (bf' & E & Elen & _); [nia | nia |]. eauto.
    - destruct (wreplace_same_width (bf s) (CommFocus s) (TextLineLength s * FocusIndex s))
        as (bf' & E & Elen & _); [nia | nia |]. eauto. }
  destruct Hrun as (bf' & -> & Elen). cbn [bind].
  unfold substr.
  replace ((TextLineLength s * FocusIndex s <? 0)
           || (wlen bf' <? TextLineLength s * FocusIndex s)) with false
    by (symmetry; apply orb_false_iff; split; apply Z.ltb_ge; nia).
  cbn [bind]. list_fields.
  rewrite nth_update_nth, Nat.eqb_refl.
  replace (Nat.ltb (Z.to_nat (FocusIndex s)) (List.length (NameColumns s))) with true
    by (symmetry; apply Nat.ltb_lt; lia).
  cbn [andb Selected set_Selected].
  eexists. split; [reflexivity|]. list_fields.
  split; [reflexivity|]. split; [reflexivity|]. split; [reflexivity|].
  split; [reflexivity|]. split; [exact Elen|].
  unfold buffer_ok. list_fields. rewrite Elen. repeat split; assumption.
Qed.

Lemma column_after_swap (s s' : t) (v : bool) (i : Z) :
  NameColumns s'
  = update_nth (NameColumns s) (Z.to_nat (FocusIndex s)) (fun c => set_Selected c v) ->
  0 <= FocusIndex s -> FocusIndex s < Z.of_nat (List.length (NameColumns s)) -> 0 <= i ->
  Selected (column s' i) = if i =? FocusIndex s then v else Selected (column s i).
Proof.
  intros E HF HC Hi. unfold column. rewrite E, nth_update_nth.
  replace (Nat.ltb (Z.to_nat (FocusIndex s)) (List.length (NameColumns s))) with true
    by (symmetry; apply Nat.ltb_lt; lia).
  rewrite andb_true_r.
  destruct (Z.eqb_spec i (FocusIndex s)) as [->|Hne].
  - rewrite Nat.eqb_refl. reflexivity.
  - replace (Nat.eqb (Z.to_nat i) (Z.to_nat (FocusIndex s))) with false
      by (symmetry; apply Nat.eqb_neq; lia).
    reflexivity.
Qed.

Lemma length_update_nth {A : Type} (l : list A) (n : nat) (g : A -> A) :
  List.length (update_nth l n g) = List.length l.
Proof.
  revert n. induction l as [|h l IH]; intros [|n]; cbn [update_nth List.length];
    try reflexivity. now rewrite IH.
Qed.

Lemma select_twice (l : list name_column) (n : nat) (a : bool) :
  update_nth (update_nth l n (fun c => set_Selected c a)) n
             (fun c => set_Selected c (Selected (nth n l default_col)))
  = l.
Proof.
  revert n. induction l as [|h l IH]; intros [|n]; cbn [update_nth nth];
    try reflexivity.
  - destruct h. reflexivity.
  - now rewrite IH.
Qed.

Lemma selected_indices_are_the_selected (s : t) (i : Z) :
  In i (get_selected_indices s)
  <-> 0 <= i < NumIndexes s /\ Selected (column s i) = true.
Proof.
  unfold get_selected_indices. rewrite selected_indices_in. cbn [In].
  split.
  - intros [[]|[H HP]]. split; [lia|exact HP].
  - intros [H HP]. right. split; [lia|exact HP].
Qed.

(** X29. [swap_select] toggles the focused item and nothing else.  For
    a list whose buffer holds a row for every item and whose focus is an
    item: the call returns the new state of the item, the opposite of
    the one it had; the focused index enters the list of
    [get_selected_indices] if it was not in it and leaves it if it was,
    and no other index enters or leaves; the number of items, the focus,
    the top and the length of the buffer stay; [get_selection_count] is
    the length of [get_selected_indices]; and a second call takes the
    selection back to what it was. *)
Theorem swap_select_toggles_the_focused_item (s : t) :
  buffer_ok s -> 0 <= FocusIndex s < NumIndexes s ->
  NumIndexes s <= Z.of_nat (List.length (NameColumns s)) ->
  exists s',
    swap_select s = Some (negb (Selected (column s (FocusIndex s))), s')
    /\ NumIndexes s' = NumIndexes s /\ FocusIndex s' = FocusIndex s
    /\ TopIndex s' = TopIndex s /\ wlen (bf s') = wlen (bf s)
    /\ (In (FocusIndex s) (get_selected_indices s')
        <-> ~ In (FocusIndex s) (get_selected_indices s))
    /\ (forall i, i <> FocusIndex s ->
                  (In i (get_selected_indices s') <-> In i (get_selected_indices s)))
    /\ get_selection_count s' = Z.of_nat (List.length (get_selected_indices s'))
    /\ exists s'',
         swap_select s' = Some (Selected (column s (FocusIndex s)), s'')
         /\ NameColumns s'' = NameColumns s.
Proof.
  intros Hbuf HF HC.
  destruct (swap_select_runs s Hbuf HF HC) as (s' & E & Hcols & Hn & Hf & Ht & Hlen & Hbuf').
  exists s'. split; [exact E|]. split; [exact Hn|]. split; [exact Hf|].
  split; [exact Ht|]. split; [exact Hlen|].
  assert (Hsel : forall i, 0 <= i ->
            Selected (column s' i)
            = if i =? FocusIndex s then negb (Selected (column s (FocusIndex s)))
              else Selected (column s i)).
  { intros i Hi. apply (column_after_swap s s' _ i Hcols); lia. }
  split; [|split; [|split]].
  - rewrite !selected_indices_are_the_selected, Hn, Hsel, Z.eqb_refl by lia.
    destruct (Selected (column s (FocusIndex s))); cbn [negb]; split.
    + intros [_ H]. discriminate.
    + intros H. exfalso. apply H. split; [lia|reflexivity].
    + intros _ [_ H]. discriminate.
    + intros _. split; [lia|reflexivity].
  - intros i Hne. rewrite !selected_indices_are_the_selected, Hn.
    split; intros [Hi H]; (split; [exact Hi|]).
    + rewrite Hsel in H by lia.
      replace (i =? FocusIndex s) with false in H by (symmetry; apply Z.eqb_neq; lia).
      exact H.
    + rewrite Hsel by lia.
      replace (i =? FocusIndex s) with false by (symmetry; apply Z.eqb_neq; lia).
      exact H.
  - unfold get_selection_count, get_selected_indices.
    apply (selection_count_is_length (fun i => Selected (column s' i)) _ 0 []).
  - destruct (swap_select_runs s' Hbuf') as (s'' & E' & Hcols' & _);
      [rewrite Hf, Hn; exact HF | rewrite Hn, Hcols, length_update_nth; exact HC | ].
    exists s''. rewrite Hf, Hsel, Z.eqb_refl, negb_involutive in E' by lia.
    split; [exact E'|].
    rewrite Hcols', Hf, Hsel, Z.eqb_refl, negb_involutive, Hcols by lia.
    apply select_twice.
Qed.

Lemma swap_select_toggles_the_focused_item_witness :
  exists s s',
    (s1 <- initialize (empty_list 10 50) ;;
     s2 <- add_all [item_name 0; item_name 1; item_name 2] s1 ;; create s2) = Some s
    /\ swap_select s = Some (true, s')
    /\ get_selected_indices s' = [0].
Proof.
  eexists.
  match goal with
  | |- exists s', ?b = Some ?x /\ _ =>
      assert (E : b = Some x) by (vm_compute; reflexivity)
  end.
  match type of E with
  | _ = Some ?x =>
      assert (Hbuf : buffer_ok x) by (vm_compute; intuition discriminate);
      assert (HF : 0 <= FocusIndex x < NumIndexes x) by (vm_compute; intuition discriminate);
      assert (HC : NumIndexes x <= Z.of_nat (List.length (NameColumns x)))
        by (vm_compute; discriminate);
      destruct (swap_select_toggles_the_focused_item x Hbuf HF HC) as (s' & E' & _);
      exists s'; split; [exact E|]; split; [exact E'|]
  end.
  revert E'. vm_compute. intros E'. injection E' as <-. reflexivity.
Defined.

End ListFacts.

(* ------------------------------------------------------------------ *)
(** ** InputControl.h: what the field shows *)

Section WindowFacts.
Import InputControl ConsoleCMD.

(** X30. What [format_to] puts in the buffer of an input field, for a
    field it can render (the box has no negative width and [BeginIndex]
    is inside the text): the escape sequences that hide the cursor, set
    the color and the position, then a window of exactly
    [Area.num_cols()] characters, nothing after it.  The window starts
    with the characters of the text from [BeginIndex] on, as many as fit,
    and is filled with spaces; with a masking character that is not 0,
    the mask stands for each of these characters, so a masked field
    shows nothing but masks and spaces.  The state is otherwise left as
    it was. *)
Theorem masked_field_shows_no_text (c : Colors.color) (mask : wchar) (s : t) :
  printable s ->
  let Box := Coord.num_cols (Area s) in
  let shown := Z.min Box (wlen (Text s) - BeginIndex s) in
  exists w,
    format_to c mask s = Some (set_bf s (header c s ++ w))
    /\ wlen w = Box
    /\ w = (if mask =? 0
            then firstn (Z.to_nat shown) (skipn (Z.to_nat (BeginIndex s)) (Text s))
            else fill shown mask)
           ++ fill (Box - shown) 32
    /\ (mask <> 0 -> forall ch, In ch w -> ch = mask \/ ch = 32).
Proof.
  intros (Hc & Hi) Box shown.
  pose proof (wlen_nonneg (Text s)) as HL.
  assert (Hrem : (if (wlen (Text s) <? BeginIndex s)
                     || (wlen (Text s) - BeginIndex s >? Box)
                  then Box else wlen (Text s) - BeginIndex s) = shown).
  { unfold shown.
    destruct (Z.ltb_spec (wlen (Text s)) (BeginIndex s)); [lia|].
    rewrite Z.gtb_ltb. cbn [orb].
    destruct (Z.ltb_spec Box (wlen (Text s) - BeginIndex s)); lia. }
  assert (Hs0 : 0 <= shown <= Box) by (unfold shown; lia).
  unfold format_to. fold Box.
  replace (Box <? 0) with false by (symmetry; apply Z.ltb_ge; lia).
  rewrite Hrem. unfold substr.
  replace ((BeginIndex s <? 0) || (wlen (Text s) <? BeginIndex s)) with false
    by (symmetry; lia).
  replace (shown <? 0) with false by (symmetry; lia).
  destruct (Z.eqb_spec mask 0) as [Hm|Hm]; cbn [negb bind].
  - eexists. split; [reflexivity|]. split; [|split; [reflexivity|congruence]].
    rewrite wlen_app, wlen_fill, wlen_take by (unfold shown in *; lia). lia.
  - eexists. split; [reflexivity|]. split; [|split; [reflexivity|]].
    + rewrite wlen_app, !wlen_fill by lia. lia.
    + intros _ ch Hin. apply in_app_or in Hin. unfold fill in Hin.
      destruct Hin as [Hin|Hin]; apply repeat_spec in Hin; auto.
Qed.

Lemma masked_field_shows_no_text_witness :
  exists s : t,
    full_field = Some s
    /\ exists w,
         format_to (Color s) 42 s = Some (set_bf s (header (Color s) s ++ w))
         /\ w = [42; 42; 42; 42; 42].
Proof.
  eexists. split; [vm_compute; reflexivity|].
  match goal with
  | |- exists w, format_to _ _ ?x = _ /\ _ =>
      assert (Hp : printable x) by (vm_compute; intuition discriminate);
      destruct (masked_field_shows_no_text (Color x) 42 x Hp) as (w & E & _ & Hw & _);
      exists w; split; [exact E|]; rewrite Hw; vm_compute; reflexivity
  end.
Defined.

End WindowFacts.
